(** * asesor_financiero: safety filter, data sanitizer and BCRP context resolver

    A shallow embedding of [security.py], [bcrp_api.py], the turn handler and
    the context step of [app.py] and the context formatting of
    [rag_manager.py], and the properties of the specification proved (or
    refuted) against it.

    Python [str] values are sequences of Unicode code points; they are modelled
    as lists of code points.  The parts of Python's Unicode database the code
    relies on ([str.lower], [str.isspace], the [re] categories) are an
    interface, [Unicode], fixed on the Latin-1 range where the configured
    keywords and patterns live, with one executable instance. *)

From Stdlib Require Import Strings.String Strings.Ascii.
From Stdlib Require Import List NArith ZArith Bool Arith Lia PrimFloat.
Import ListNotations.

Set Implicit Arguments.

(* ================================================================== *)
(** ** Python strings *)
(* ================================================================== *)

Definition char := N.
Definition str := list char.

(** Source literals are written as UTF-8 text and decoded to code points. *)
Fixpoint utf8_decode (pending : nat) (acc : N) (bs : list N) : str :=
  match bs with
  | [] => []
  | b :: bs' =>
      match pending with
      | O =>
          if (b <? 128)%N then b :: utf8_decode 0 0%N bs'
          else if (b <? 192)%N then b :: utf8_decode 0 0%N bs'
          else if (b <? 224)%N then utf8_decode 1 (N.land b 31) bs'
          else if (b <? 240)%N then utf8_decode 2 (N.land b 15) bs'
          else utf8_decode 3 (N.land b 7) bs'
      | S k =>
          let acc' := (acc * 64 + N.land b 63)%N in
          match k with
          | O => acc' :: utf8_decode 0 0%N bs'
          | S _ => utf8_decode k acc' bs'
          end
      end
  end.

Definition U (s : string) : str :=
  utf8_decode 0 0%N (map N_of_ascii (list_ascii_of_string s)).

Definition char_eqb (a b : char) : bool := (a =? b)%N.

Fixpoint str_eqb (a b : str) : bool :=
  match a, b with
  | [], [] => true
  | x :: a', y :: b' => char_eqb x y && str_eqb a' b'
  | _, _ => false
  end.

(** [s.startswith(p)] *)
Fixpoint startswith (p s : str) : bool :=
  match p, s with
  | [], _ => true
  | a :: p', b :: s' => char_eqb a b && startswith p' s'
  | _ :: _, [] => false
  end.

(** [x in s] for two strings: substring containment. *)
Fixpoint str_in (x s : str) : bool :=
  startswith x s ||
  match s with
  | [] => false
  | _ :: s' => str_in x s'
  end.

(** [sep.join(parts)] *)
Fixpoint join (sep : str) (parts : list str) : str :=
  match parts with
  | [] => []
  | [p] => p
  | p :: rest => p ++ sep ++ join sep rest
  end.

(** The newline character. *)
Definition NL : str := [10%N].

(* ------------------------------------------------------------------ *)
(** *** The Latin-1 range of the Unicode tables *)

Definition is_latin1 (s : str) : bool := forallb (fun c => (c <? 256)%N) s.

(** [chr(c).lower()] for [c < 256]: A-Z and U+00C0..U+00DE except the
    multiplication sign U+00D7 move up by 32. *)
Definition lower1 (c : char) : char :=
  if ((65 <=? c) && (c <=? 90))%N then (c + 32)%N
  else if ((192 <=? c) && (c <=? 222) && negb (c =? 215))%N then (c + 32)%N
  else c.

(** [chr(c).isspace()] for [c < 256]. *)
Definition isspace1 (c : char) : bool :=
  (((9 <=? c) && (c <=? 13)) || ((28 <=? c) && (c <=? 32))
   || (c =? 133) || (c =? 160))%N.

(** [chr(c).isdecimal()] for [c < 256]. *)
Definition isdecimal1 (c : char) : bool := ((48 <=? c) && (c <=? 57))%N.

(** [chr(c).isalnum()] for [c < 256]. *)
Definition isalnum1 (c : char) : bool :=
  (((48 <=? c) && (c <=? 57)) || ((65 <=? c) && (c <=? 90))
   || ((97 <=? c) && (c <=? 122))
   || (c =? 170) || (c =? 178) || (c =? 179) || (c =? 181)
   || (c =? 185) || (c =? 186) || ((188 <=? c) && (c <=? 190))
   || ((192 <=? c) && (c <=? 255) && negb (c =? 215) && negb (c =? 247)))%N.

(** What the code uses of Python's Unicode database.  [lower] is [str.lower];
    [isspace], [isdecimal] and [isalnum] are the tests behind [str.split()] and
    the [re] categories [\s], [\d] and [\w]; [casematch p c] says that the
    subject character [c] matches the pattern literal [p] under
    [re.IGNORECASE].  On Latin-1 text they are the tables above; [str.lower]
    rewrites a Latin-1 segment in place whatever surrounds it (its only
    context rule concerns the Greek capital sigma).  An ASCII symbol has no
    case, so it matches itself only; and the characters a literal matches
    under [re.IGNORECASE] are its case variants, of the same category. *)
Class Unicode := {
  lower : str -> str;
  isspace : char -> bool;
  isdecimal : char -> bool;
  isalnum : char -> bool;
  casematch : char -> char -> bool;
  lower_latin1 : forall k, is_latin1 k = true -> lower k = map lower1 k;
  lower_local : forall pre k post, is_latin1 k = true ->
    exists x y, lower (pre ++ k ++ post) = x ++ map lower1 k ++ y;
  isspace_latin1 : forall c, (c < 256)%N -> isspace c = isspace1 c;
  isdecimal_latin1 : forall c, (c < 256)%N -> isdecimal c = isdecimal1 c;
  isalnum_latin1 : forall c, (c < 256)%N -> isalnum c = isalnum1 c;
  casematch_latin1 : forall p c, (p < 256)%N -> (c < 256)%N ->
    casematch p c = char_eqb (lower1 p) (lower1 c);
  casematch_symbol : forall p c, (p < 128)%N -> isalnum1 p = false ->
    casematch p c = char_eqb p c;
  casematch_class : forall p c, (p < 256)%N -> casematch p c = true ->
    isspace c = isspace p /\ isdecimal c = isdecimal p;
  isdecimal_isalnum : forall c, isdecimal c = true -> isalnum c = true;
  isdecimal_not_space : forall c, isdecimal c = true -> isspace c = false
}.

(** Case analysis on the comparisons of a goal about the tables. *)
Ltac nbool :=
  repeat match goal with
         | H : context [(?a <=? ?b)%N] |- _ =>
             destruct (N.leb_spec a b); cbn in H; try lia; try discriminate
         | H : context [(?a =? ?b)%N] |- _ =>
             destruct (N.eqb_spec a b); cbn in H; try lia; try discriminate
         | |- context [(?a <=? ?b)%N] => destruct (N.leb_spec a b); cbn; try lia
         | |- context [(?a =? ?b)%N] => destruct (N.eqb_spec a b); cbn; try lia
         end; try reflexivity; try lia.

(** The instance that runs: exact on Latin-1 text, and treating every other
    code point as an uncased symbol. *)
#[refine] Instance Latin1 : Unicode := {|
  lower := map lower1;
  isspace := isspace1;
  isdecimal := isdecimal1;
  isalnum := isalnum1;
  casematch := fun p c => char_eqb (lower1 p) (lower1 c)
|}.
Proof.
  - reflexivity.
  - intros pre k post _. exists (map lower1 pre), (map lower1 post).
    now rewrite !map_app.
  - reflexivity.
  - reflexivity.
  - reflexivity.
  - reflexivity.
  - intros p c Hp H. unfold isalnum1 in H. unfold char_eqb, lower1. nbool.
  - intros p c _ H. unfold char_eqb, lower1 in H. unfold isspace1, isdecimal1.
    nbool.
  - intros c H. unfold isdecimal1 in H. unfold isalnum1. now rewrite H.
  - intros c H. unfold isdecimal1 in H. unfold isspace1. nbool.
Defined.

(* ================================================================== *)
(** ** The subset of Python's [re] the patterns use *)
(* ================================================================== *)

(** One-character tests: a literal, [\d], [\s], [\w]. *)
Inductive atom :=
| Lit (c : char)
| Digit
| Space
| Word.

(** Patterns.  Repetition is only ever applied to a single character or a
    bracket set in the source ([\s+], [\d{10,20}], [[\s-]?], [l?]), so [Rep]
    carries the set; it is greedy.  [Group n] is the [n]-th capturing group. *)
Inductive regex :=
| Eps
| Chars (cs : list atom)
| Rep (cs : list atom) (min : nat) (max : option nat)
| Bound
| Seq (r1 r2 : regex)
| Alt (r1 r2 : regex)
| Group (n : nat) (r : regex).

Declare Scope re_scope.
Delimit Scope re_scope with re.
Bind Scope re_scope with regex.
Infix "+++" := Seq (at level 60, right associativity) : re_scope.
Infix "<|>" := Alt (at level 65, right associativity) : re_scope.

(** A literal run of characters. *)
Definition lit (s : str) : regex :=
  fold_right (fun c r => Seq (Chars [Lit c]) r) Eps s.

Definition plus (cs : list atom) : regex := Rep cs 1 None.
Definition opt (cs : list atom) : regex := Rep cs 0 (Some 1).
Definition times (cs : list atom) (lo hi : nat) : regex := Rep cs lo (Some hi).

(** A position in the subject: the text before the cursor (nearest character
    first), the text from the cursor on, and the groups captured so far. *)
Record mstate := MState {
  behind : list char;
  ahead : str;
  caps : list (nat * str)
}.

(** Replacement templates: literal text and group references ([\1]). *)
Inductive piece :=
| Text (s : str)
| Ref (n : nat).

Fixpoint lookup_cap (n : nat) (l : list (nat * str)) : str :=
  match l with
  | [] => []
  | (k, w) :: l' => if Nat.eqb k n then w else lookup_cap n l'
  end.

Definition expand (tpl : list piece) (st : mstate) : str :=
  flat_map (fun p => match p with
                     | Text s => s
                     | Ref n => lookup_cap n (caps st)
                     end) tpl.

Section Regex.
Context {UD : Unicode}.

Definition isword (c : char) : bool := isalnum c || char_eqb c 95%N.

Definition atom_match (icase : bool) (a : atom) (c : char) : bool :=
  match a with
  | Lit p => if icase then casematch p c else char_eqb p c
  | Digit => isdecimal c
  | Space => isspace c
  | Word => isword c
  end.

Definition in_set (icase : bool) (cs : list atom) (c : char) : bool :=
  existsb (fun a => atom_match icase a c) cs.

Definition can_take (max : option nat) : bool :=
  match max with
  | Some O => false
  | _ => true
  end.

(** Greedy repetition with backtracking: the longest run first, then every
    shorter one down to [min]. *)
Fixpoint rep (icase : bool) (cs : list atom) (min : nat) (max : option nat)
    (bh : list char) (ah : str) (cp : list (nat * str)) : list mstate :=
  (match ah with
   | c :: rest =>
       if in_set icase cs c && can_take max
       then rep icase cs (pred min) (option_map pred max) (c :: bh) rest cp
       else []
   | [] => []
   end)
  ++ (match min with
      | O => [MState bh ah cp]
      | S _ => []
      end).

(** [\b]: exactly one side of the cursor is a word character. *)
Definition at_boundary (st : mstate) : bool :=
  xorb (match behind st with c :: _ => isword c | [] => false end)
       (match ahead st with c :: _ => isword c | [] => false end).

(** The text consumed between two positions of one scan. *)
Definition consumed (st st' : mstate) : str :=
  rev (firstn (length (behind st') - length (behind st)) (behind st')).

(** The backtracking matcher as a list of successes, in the order in which
    Python's engine tries them: the head is the match [re] reports. *)
Fixpoint run (icase : bool) (r : regex) (st : mstate) : list mstate :=
  match r with
  | Eps => [st]
  | Chars cs =>
      match ahead st with
      | c :: rest =>
          if in_set icase cs c
          then [MState (c :: behind st) rest (caps st)]
          else []
      | [] => []
      end
  | Rep cs min max => rep icase cs min max (behind st) (ahead st) (caps st)
  | Bound => if at_boundary st then [st] else []
  | Seq r1 r2 => flat_map (run icase r2) (run icase r1 st)
  | Alt r1 r2 => run icase r1 st ++ run icase r2 st
  | Group n r1 =>
      map (fun st' => MState (behind st') (ahead st')
                             ((n, consumed st st') :: caps st'))
          (run icase r1 st)
  end.

(** [re.search]: the leftmost position with a match. *)
Fixpoint search_from (icase : bool) (r : regex) (bh : list char) (ah : str)
    : option mstate :=
  match run icase r (MState bh ah []) with
  | st' :: _ => Some st'
  | [] =>
      match ah with
      | c :: rest => search_from icase r (c :: bh) rest
      | [] => None
      end
  end.

Definition re_search (icase : bool) (r : regex) (s : str) : bool :=
  match search_from icase r [] s with
  | Some _ => true
  | None => false
  end.

Definition width (bh : list char) (st' : mstate) : nat :=
  length (behind st') - length bh.

(** [re.sub]: scan left to right, replace each leftmost match and resume after
    it.  [skip] counts the characters of the current match still to pass.  An
    empty match is replaced too, and the scan then wants a non-empty match at
    the same position before it copies the character and moves on. *)
Fixpoint sub_scan (icase : bool) (r : regex) (tpl : list piece)
    (skip : nat) (bh : list char) (ah : str) : str :=
  match skip with
  | S k =>
      match ah with
      | c :: rest => sub_scan icase r tpl k (c :: bh) rest
      | [] => []
      end
  | O =>
      let cands := run icase r (MState bh ah []) in
      let copy :=
        match ah with
        | c :: rest => c :: sub_scan icase r tpl 0 (c :: bh) rest
        | [] => []
        end in
      let jump (st' : mstate) :=
        expand tpl st' ++
        match ah with
        | c :: rest => sub_scan icase r tpl (pred (width bh st')) (c :: bh) rest
        | [] => []
        end in
      match cands with
      | [] => copy
      | st' :: _ =>
          match width bh st' with
          | S _ => jump st'
          | O =>
              expand tpl st' ++
              match find (fun st2 => negb (Nat.eqb (width bh st2) 0)) cands with
              | Some st2 => jump st2
              | None => copy
              end
          end
      end
  end.

Definition re_sub (icase : bool) (r : regex) (tpl : list piece) (s : str) : str :=
  sub_scan icase r tpl 0 [] s.

(** [s.split()]: the maximal runs of non-whitespace characters. *)
Fixpoint split_aux (cur : list char) (s : str) : list str :=
  match s with
  | [] => match cur with [] => [] | _ => [rev cur] end
  | c :: s' =>
      if isspace c
      then match cur with
           | [] => split_aux [] s'
           | _ => rev cur :: split_aux [] s'
           end
      else split_aux (c :: cur) s'
  end.

Definition split (s : str) : list str := split_aux [] s.

End Regex.

(* ================================================================== *)
(** ** security.py *)
(* ================================================================== *)

Definition set (s : string) : list atom := map Lit (U s).
Definition txt (s : string) : regex := lit (U s).

Definition palabras_in : list str := map U [
  (* Fraude y actividades ilegales *)
  "hackear"; "robar"; "estafar"; "defraudar"; "falsificar";
  "lavar dinero"; "lavado de dinero"; "evadir impuestos"; "evasión fiscal";
  "cuentas fantasma"; "cuenta offshore ilegal"; "piramide"; "esquema ponzi";
  (* Manipulación de sistemas bancarios *)
  "clonar tarjeta"; "skimming"; "phishing"; "fraude bancario";
  "transferencia ilegal"; "suplantación de identidad";
  (* Productos financieros ilegales *)
  "préstamo gota a gota"; "usura"; "prestamista ilegal";
  "inversión piramidal"; "multinivel fraudulento";
  (* Información sensible de terceros *)
  "dame el pin"; "contraseña de"; "clave de"; "datos de cuenta de otra persona";
  (* Competencia desleal *)
  "mejor que [banco]"; "peor banco"; "banco fraudulento";
  (* Discriminación *)
  "no dar crédito por"; "discriminar por edad"; "discriminar por género";
  (* Manipulación del bot *)
  "ignora las instrucciones"; "eres ahora"; "modo desarrollador";
  "prompt injection"; "system prompt"; "olvida tu rol"
]%string.

Definition palabras_out : list str := map U [
  "no puedo ayudarte"; "no sé"; "no tengo información";
  "fuera de mi alcance"; "no es mi función";
  "garantizo que ganarás"; "inversión sin riesgo"; "dinero fácil";
  "nunca perderás"; "rendimiento asegurado";
  "tu contraseña es"; "tu pin es"; "tu clave es";
  "evade impuestos"; "oculta ingresos"; "lava dinero";
  "falsifica documentos"; "miente en tu declaración";
  "por tu edad no"; "por tu género no"; "por tu raza no";
  "criptomoneda sin regulación"; "inversión piramidal";
  "maldiciones"; "groserías"; "palabras ofensivas"
]%string.

(** Each pattern is kept with its source text, which is what the checks
    return as detail. *)
Definition patterns_in : list (str * regex) := [
  (U "cu[ae]nta\s+de\s+\w+",
   txt "cu" +++ Chars (set "ae") +++ txt "nta" +++ plus [Space] +++ txt "de"
   +++ plus [Space] +++ plus [Word]);
  (U "clave\s+de\s+mi\s+(esposa|esposo|amigo|jefe)",
   txt "clave" +++ plus [Space] +++ txt "de" +++ plus [Space] +++ txt "mi"
   +++ plus [Space]
   +++ Group 1 (txt "esposa" <|> txt "esposo" <|> txt "amigo" <|> txt "jefe"));
  (U "c[oó]mo\s+(ocultar|esconder)\s+(ingresos|dinero|ganancias)",
   txt "c" +++ Chars (set "oó") +++ txt "mo" +++ plus [Space]
   +++ Group 1 (txt "ocultar" <|> txt "esconder") +++ plus [Space]
   +++ Group 2 (txt "ingresos" <|> txt "dinero" <|> txt "ganancias"));
  (U "evitar\s+pagar\s+(impuestos|tributos)",
   txt "evitar" +++ plus [Space] +++ txt "pagar" +++ plus [Space]
   +++ Group 1 (txt "impuestos" <|> txt "tributos"));
  (U "transferir\s+sin\s+que\s+se\s+den\s+cuenta",
   txt "transferir" +++ plus [Space] +++ txt "sin" +++ plus [Space]
   +++ txt "que" +++ plus [Space] +++ txt "se" +++ plus [Space] +++ txt "den"
   +++ plus [Space] +++ txt "cuenta");
  (U "sacar\s+dinero\s+de\s+cuenta\s+ajena",
   txt "sacar" +++ plus [Space] +++ txt "dinero" +++ plus [Space] +++ txt "de"
   +++ plus [Space] +++ txt "cuenta" +++ plus [Space] +++ txt "ajena")
]%re.

Definition patterns_out : list (str * regex) := [
  (U "(garantizo|aseguro|prometo)\s+que\s+(ganarás|nunca perderás)",
   Group 1 (txt "garantizo" <|> txt "aseguro" <|> txt "prometo")
   +++ plus [Space] +++ txt "que" +++ plus [Space]
   +++ Group 2 (txt "ganarás" <|> txt "nunca perderás"));
  (U "rendimiento\s+(garantizado|asegurado|seguro)\s+del?\s+\d+%",
   txt "rendimiento" +++ plus [Space]
   +++ Group 1 (txt "garantizado" <|> txt "asegurado" <|> txt "seguro")
   +++ plus [Space] +++ txt "de" +++ opt (set "l") +++ plus [Space]
   +++ plus [Digit] +++ txt "%");
  (U "(evita|evade|esquiva)\s+(impuestos|tributos|sbs)",
   Group 1 (txt "evita" <|> txt "evade" <|> txt "esquiva") +++ plus [Space]
   +++ Group 2 (txt "impuestos" <|> txt "tributos" <|> txt "sbs"))
]%re.

Definition responses_input_blocked : list str := map U [
  "Lo siento, no puedo asistirte con ese tipo de consultas. Mi función es brindarte asesoría financiera ética y legal.";
  "Esa solicitud está fuera del alcance de mi asesoría. Si necesitas ayuda con productos financieros legales, estaré encantado de ayudarte.";
  "No puedo procesar consultas que involucren actividades ilegales o no éticas. ¿Puedo ayudarte con algo más relacionado a finanzas personales?";
  "Mi rol es asesorar en finanzas de manera responsable. Esa consulta no es apropiada. ¿Tienes alguna otra pregunta sobre productos bancarios?";
  "Disculpa, no puedo responder a eso. Estoy aquí para ayudarte con decisiones financieras legales y éticas.";
  "Por políticas de seguridad y ética, no puedo ayudarte con esa consulta. ¿Necesitas información sobre cuentas de ahorro o préstamos?"
]%string.

Definition responses_output_blocked : list str := map U [
  "Disculpa, mi respuesta anterior no cumplió con los estándares de seguridad. Por favor, reformula tu pregunta y con gusto te ayudaré.";
  "Lo siento, detecté un error en mi respuesta. ¿Podrías replantear tu consulta de otra manera?";
  "Por seguridad, no puedo completar esa respuesta. ¿Hay algo más en lo que pueda ayudarte?";
  "Mi respuesta no pasó los filtros de seguridad. Intentemos de nuevo con una pregunta diferente."
]%string.

(** [random.choice], the draw made explicit. *)
Definition get_random_response (response_list : list str) (draw : nat) : str :=
  nth (draw mod length response_list) response_list [].

(** The card, account and CVV rules of [sanitize_financial_data]. *)
Definition card_pattern : regex :=
  (Bound +++ times [Digit] 4 4 +++ opt (Space :: set "-")
   +++ times [Digit] 4 4 +++ opt (Space :: set "-")
   +++ times [Digit] 4 4 +++ opt (Space :: set "-")
   +++ times [Digit] 4 4 +++ Bound)%re.

Definition account_pattern : regex :=
  (Bound +++ times [Digit] 10 20 +++ Bound)%re.

Definition cvv_pattern : regex :=
  (Group 1 (txt "cvv" <|> txt "código" <|> txt "code" <|> txt "cvc")
   +++ plus (Space :: set ":") +++ times [Digit] 3 4)%re.

Definition financial_keywords : list str := map U [
  "préstamo"; "crédito"; "ahorro"; "inversión"; "banco"; "cuenta";
  "tarjeta"; "tasa"; "interés"; "deuda"; "plazo fijo"; "hipoteca";
  "seguro"; "tcea"; "trea"; "cts"; "afp"; "fondos"; "dinero";
  "soles"; "dólares"; "financiero"; "económico"; "presupuesto"
]%string.

(** The record [log_security_event] prints (its timestamp left out). *)
Record SecurityEvent := {
  event_type : str;
  blocked_content : str;
  excerpt : str
}.

Definition log_security_event (ev user_message blocked : str) : SecurityEvent :=
  {| event_type := ev;
     blocked_content := blocked;
     excerpt := firstn 100 user_message |}.

Section Security.
Context {UD : Unicode}.

(** [for palabra in palabras: if palabra.lower() in message_lower: return ...] *)
Fixpoint first_palabra (palabras : list str) (message_lower : str)
    : option str :=
  match palabras with
  | [] => None
  | palabra :: rest =>
      if str_in (lower palabra) message_lower then Some palabra
      else first_palabra rest message_lower
  end.

(** [for pattern in patterns: if re.search(pattern, message_lower): return ...] *)
Fixpoint first_pattern (patterns : list (str * regex)) (message_lower : str)
    : option str :=
  match patterns with
  | [] => None
  | (pattern, r) :: rest =>
      if re_search false r message_lower then Some pattern
      else first_pattern rest message_lower
  end.

Definition check_input (message : str) : bool * str * str :=
  let message_lower := lower message in
  match first_palabra palabras_in message_lower with
  | Some palabra => (true, U "palabra", palabra)
  | None =>
      match first_pattern patterns_in message_lower with
      | Some pattern => (true, U "patrón", pattern)
      | None => (false, [], [])
      end
  end.

Definition check_output (response : str) : bool * str * str :=
  let response_lower := lower response in
  match first_palabra palabras_out response_lower with
  | Some palabra => (true, U "palabra", palabra)
  | None =>
      match first_pattern patterns_out response_lower with
      | Some pattern => (true, U "patrón", pattern)
      | None => (false, [], [])
      end
  end.

Definition sanitize_financial_data (text : str) : str :=
  let text := re_sub false card_pattern [Text (U "[TARJETA-OCULTA]")] text in
  let text := re_sub false account_pattern [Text (U "[CUENTA-OCULTA]")] text in
  let text := re_sub true cvv_pattern [Ref 1; Text (U ": [OCULTO]")] text in
  text.

Definition validate_financial_context (message : str) : bool * str :=
  let message_lower := lower message in
  if length (split message) <? 3 then (true, [])
  else
    let has_financial_keyword :=
      existsb (fun kw => str_in kw message_lower) financial_keywords in
    if negb has_financial_keyword
    then (false, U "La consulta no parece estar relacionada con finanzas.")
    else (true, []).

End Security.

(* ================================================================== *)
(** ** Python values and exceptions *)
(* ================================================================== *)

(** What [response.json()] can return, and the dictionaries the client builds
    from it: [None], [bool], [int], [float], [str], [list], [dict] (keys in
    insertion order, each key once). *)
#[local] Unset Elimination Schemes.
Inductive value :=
| VNone
| VBool (b : bool)
| VInt (n : Z)
| VFloat (f : float)
| VStr (s : str)
| VList (l : list value)
| VDict (d : list (str * value)).
#[local] Set Elimination Schemes.

Inductive exn :=
| ValueError (msg : str)
| TypeError
| KeyError
| IndexError
| AttributeError
| JSONDecodeError.

Inductive res (A : Type) :=
| Ok (a : A)
| Raise (e : exn).
Arguments Ok {A} a.
Arguments Raise {A} e.

Definition res_bind {A B} (x : res A) (f : A -> res B) : res B :=
  match x with
  | Ok a => f a
  | Raise e => Raise e
  end.

Declare Scope res_scope.
Delimit Scope res_scope with res.
Notation "'let?' x ':=' a 'in' b" := (res_bind a (fun x => b))
  (at level 10, x name, a at level 100, b at level 200) : res_scope.

Fixpoint dict_lookup (k : str) (d : list (str * value)) : option value :=
  match d with
  | [] => None
  | (k', v) :: d' => if str_eqb k k' then Some v else dict_lookup k d'
  end.

(** [bool(v)] *)
Definition truthy (v : value) : bool :=
  match v with
  | VNone => false
  | VBool b => b
  | VInt n => negb (n =? 0)%Z
  | VFloat f => negb (PrimFloat.eqb f PrimFloat.zero)
  | VStr s => negb (Nat.eqb (length s) 0)
  | VList l => negb (Nat.eqb (length l) 0)
  | VDict d => negb (Nat.eqb (length d) 0)
  end.

(** [key in v] for a string [key] *)
Definition py_contains (key : str) (v : value) : res bool :=
  match v with
  | VDict d => Ok (match dict_lookup key d with Some _ => true | None => false end)
  | VList l => Ok (existsb (fun x => match x with
                                     | VStr s => str_eqb s key
                                     | _ => false
                                     end) l)
  | VStr s => Ok (str_in key s)
  | _ => Raise TypeError
  end.

(** [v[key]] for a string [key] *)
Definition py_getitem (v : value) (key : str) : res value :=
  match v with
  | VDict d => match dict_lookup key d with
               | Some x => Ok x
               | None => Raise KeyError
               end
  | _ => Raise TypeError
  end.

(** [v[i]] for an integer [i], negative indices counting from the end *)
Definition py_index (v : value) (i : Z) : res value :=
  let pick {A} (l : list A) : option A :=
    let n := Z.of_nat (length l) in
    let j := (if i <? 0 then i + n else i)%Z in
    if ((0 <=? j) && (j <? n))%Z then nth_error l (Z.to_nat j) else None in
  match v with
  | VList l => match pick l with Some x => Ok x | None => Raise IndexError end
  | VStr s => match pick s with Some c => Ok (VStr [c]) | None => Raise IndexError end
  | VDict _ => Raise KeyError
  | _ => Raise TypeError
  end.

(** [v.get(key, default)] *)
Definition py_get (v : value) (key : str) (default : value) : res value :=
  match v with
  | VDict d => Ok (match dict_lookup key d with Some x => x | None => default end)
  | _ => Raise AttributeError
  end.

(** [len(v)] *)
Definition py_len (v : value) : res nat :=
  match v with
  | VList l => Ok (length l)
  | VStr s => Ok (length s)
  | VDict d => Ok (length d)
  | _ => Raise TypeError
  end.

(* ================================================================== *)
(** ** bcrp_api.py *)
(* ================================================================== *)

Module BCRPConfig.
Definition BASE_URL : str :=
  U "https://estadisticas.bcrp.gob.pe/estadisticas/series/api".
Definition DEFAULT_FORMAT : str := U "json".
Definition DEFAULT_LANGUAGE : str := U "esp".
Definition TIMEOUT : nat := 10.
End BCRPConfig.

Module SeriesCodes.
Definition TIPO_CAMBIO_PROMEDIO : str := U "PD04637PD".
Definition TIPO_CAMBIO_COMPRA : str := U "PD04638PD".
Definition TIPO_CAMBIO_VENTA : str := U "PD04639PD".
Definition TASA_REFERENCIA_BCRP : str := U "PD04711PD".
Definition TASA_INTERBANCARIA : str := U "PD04706PD".
Definition TAMN_DEPOSITOS : str := U "PD04718PD".
Definition TAMEX_DEPOSITOS : str := U "PD04719PD".
Definition TCEA_PRESTAMOS_MN : str := U "PD04720PD".
Definition TCEA_PRESTAMOS_ME : str := U "PD04721PD".
Definition IPC_NACIONAL : str := U "PN01270PM".
Definition IPC_LIMA : str := U "PN01271PM".
Definition INFLACION_ANUAL : str := U "PN01272PM".
Definition PBI_REAL : str := U "PN01755AQ".
Definition PBI_NOMINAL : str := U "PN01758AQ".
Definition RIN_MILLONES_USD : str := U "PD04635PD".
Definition EMISION_PRIMARIA : str := U "PD04641PD".
Definition EXPORTACIONES : str := U "PN01306PM".
Definition IMPORTACIONES : str := U "PN01307PM".
Definition CREDITO_TOTAL : str := U "PD04725PD".
Definition CREDITO_HIPOTECARIO : str := U "PD04733PD".
End SeriesCodes.

Definition SERIES_DESCRIPTIONS : list (str * value) := [
  (SeriesCodes.TIPO_CAMBIO_PROMEDIO, VStr (U "Tipo de cambio promedio (S/ por US$)"));
  (SeriesCodes.TIPO_CAMBIO_COMPRA, VStr (U "Tipo de cambio compra (S/ por US$)"));
  (SeriesCodes.TIPO_CAMBIO_VENTA, VStr (U "Tipo de cambio venta (S/ por US$)"));
  (SeriesCodes.TASA_REFERENCIA_BCRP, VStr (U "Tasa de referencia del BCRP (%)"));
  (SeriesCodes.TASA_INTERBANCARIA, VStr (U "Tasa interbancaria (%)"));
  (SeriesCodes.TAMN_DEPOSITOS, VStr (U "TAMN - Tasa activa de depósitos en soles (%)"));
  (SeriesCodes.TAMEX_DEPOSITOS, VStr (U "TAMEX - Tasa activa de depósitos en dólares (%)"));
  (SeriesCodes.TCEA_PRESTAMOS_MN, VStr (U "TCEA préstamos personales en soles (%)"));
  (SeriesCodes.TCEA_PRESTAMOS_ME, VStr (U "TCEA préstamos personales en dólares (%)"));
  (SeriesCodes.IPC_NACIONAL, VStr (U "IPC Nacional - Variación mensual (%)"));
  (SeriesCodes.INFLACION_ANUAL, VStr (U "Inflación anual (%)"));
  (SeriesCodes.RIN_MILLONES_USD, VStr (U "Reservas Internacionales Netas (millones US$)"));
  (SeriesCodes.PBI_REAL, VStr (U "PBI real - Variación trimestral (%)"))
].

(** What one [requests.get] followed by [raise_for_status] and, for the json
    format, [response.json()] can come to: the request itself raises a
    [RequestException] (no connection, timeout); the status is an error; the
    body is not JSON; or all is well. *)
Inductive HttpOutcome :=
| RequestFailed (e : str)
| HttpErrorStatus (e : str)
| BadJson (text e : str)
| Good (text : str) (body : value).

(** Client calls are computations over the list of URLs requested so far,
    which may raise. *)
Definition M (A : Type) : Type := list str -> res A * list str.

Definition ret {A} (a : A) : M A := fun log => (Ok a, log).
Definition raise {A} (e : exn) : M A := fun log => (Raise e, log).
Definition bind {A B} (m : M A) (f : A -> M B) : M B :=
  fun log => match m log with
             | (Ok a, log') => f a log'
             | (Raise e, log') => (Raise e, log')
             end.
Definition lift {A} (r : res A) : M A := fun log => (r, log).

(** [try: m  except Exception: handler] *)
Definition try_except {A} (m : M A) (handler : exn -> M A) : M A :=
  fun log => match m log with
             | (Ok a, log') => (Ok a, log')
             | (Raise e, log') => handler e log'
             end.

Declare Scope m_scope.
Delimit Scope m_scope with m.
Notation "x <- m ;; k" := (bind m (fun x => k))
  (at level 61, m at next level, right associativity) : m_scope.

Definition query_patterns : list (str * list str) := [
  (U "tipo_cambio", map U ["tipo de cambio"; "dolar"; "dólar"; "tc"; "cambio dolar"]%string);
  (U "tasas", map U ["tasa de interes"; "tasa de interés"; "tamn"; "tamex"; "tasa referencia"]%string);
  (U "inflacion", map U ["inflacion"; "inflación"; "ipc"]%string);
  (U "general", map U ["datos económicos"; "indicadores económicos"; "estadísticas bcrp"]%string)
].

Section BCRPClient.
Context {UD : Unicode}.

(** The statistics service: the outcome of the [n]-th request of a call, by
    its URL. *)
Variable http : nat -> str -> HttpOutcome.

(** Whether [response.json()] fails with a [RequestException] (requests 2.27
    and later) or with a plain [ValueError] subclass (before). *)
Variable json_error_is_request_exception : bool.

(** [str(v)], as the f-strings of [format_for_prompt] render a value. *)
Variable py_str : value -> str.

Definition error_dict (e : str) : value := VDict [(U "error", VStr e)].

Definition get_series (series_codes : list str) (output_format : str)
    (start_period end_period : option str) (language : str) : M value :=
  fun log =>
    if 10 <? length series_codes
    then (Raise (ValueError (U "Máximo 10 series por consulta")), log)
    else
      let series_str := join (U "-") series_codes in
      let url_parts := [BCRPConfig.BASE_URL; series_str; output_format] in
      let url_parts :=
        match start_period with
        | Some (c :: sp) =>
            match end_period with
            | Some (c' :: ep) => url_parts ++ [c :: sp] ++ [c' :: ep]
            | _ => url_parts ++ [c :: sp]
            end
        | _ => url_parts
        end in
      let url_parts :=
        if negb (str_eqb language (U "esp")) then url_parts ++ [language]
        else url_parts in
      let url := join (U "/") url_parts in
      let is_json := str_eqb output_format (U "json") in
      let log' := log ++ [url] in
      match http (length log) url with
      | RequestFailed e => (Ok (error_dict e), log')
      | HttpErrorStatus e => (Ok (error_dict e), log')
      | BadJson text e =>
          if is_json
          then if json_error_is_request_exception
               then (Ok (error_dict e), log')
               else (Raise JSONDecodeError, log')
          else (Ok (VDict [(U "raw", VStr text)]), log')
      | Good text body =>
          if is_json then (Ok body, log')
          else (Ok (VDict [(U "raw", VStr text)]), log')
      end.

(** [get_series(codes)] with the defaults of the signature. *)
Definition get_series_default (series_codes : list str) : M value :=
  get_series series_codes (U "json") None None (U "esp").

(** ["periods" in data and data["periods"]] *)
Definition has_periods (data : value) : res bool :=
  (let? c := py_contains (U "periods") data in
   if c then let? p := py_getitem data (U "periods") in Ok (truthy p)
   else Ok false)%res.

(** [values[i] if len(values) > i else None] *)
Definition value_at (values : value) (i : nat) : res value :=
  (let? n := py_len values in
   if i <? n then py_index values (Z.of_nat i) else Ok VNone)%res.

Definition latest_value_of (series_code : str) (data : value) : res value :=
  (let? hp := has_periods data in
   if hp then
     let? periods := py_getitem data (U "periods") in
     let? last_period := py_index periods (-1) in
     let? config := py_get data (U "config") (VDict []) in
     let? series := py_get config (U "series") (VList [VDict []]) in
     let? series0 := py_index series 0 in
     let? series_name := py_get series0 (U "name") (VStr series_code) in
     let? periodo := py_get last_period (U "name") VNone in
     let? values := py_get last_period (U "values") (VList [VNone]) in
     let? valor := py_index values 0 in
     let? descripcion := py_get (VDict SERIES_DESCRIPTIONS) series_code (VStr []) in
     Ok (VDict [(U "serie", series_name);
                (U "codigo", VStr series_code);
                (U "periodo", periodo);
                (U "valor", valor);
                (U "descripcion", descripcion)])
   else Ok VNone)%res.

Definition get_latest_value (series_code : str) : M value :=
  try_except
    (data <- get_series_default [series_code] ;; lift (latest_value_of series_code data))%m
    (fun _ => ret VNone).

(** The body shared by [get_tipo_cambio] and [get_tasas_interes]: the last
    period's label and its first three values under the given keys. *)
Definition triplet_of (k0 k1 k2 : str) (data : value) : res value :=
  (let? hp := has_periods data in
   if hp then
     let? periods := py_getitem data (U "periods") in
     let? last_period := py_index periods (-1) in
     let? values := py_get last_period (U "values") (VList []) in
     let? fecha := py_get last_period (U "name") VNone in
     let? v0 := value_at values 0 in
     let? v1 := value_at values 1 in
     let? v2 := value_at values 2 in
     Ok (VDict [(U "fecha", fecha); (k0, v0); (k1, v1); (k2, v2)])
   else Ok VNone)%res.

Definition get_tipo_cambio : M value :=
  try_except
    (data <- get_series_default [SeriesCodes.TIPO_CAMBIO_PROMEDIO;
                                 SeriesCodes.TIPO_CAMBIO_COMPRA;
                                 SeriesCodes.TIPO_CAMBIO_VENTA] ;;
     lift (triplet_of (U "promedio") (U "compra") (U "venta") data))%m
    (fun _ => ret VNone).

Definition get_tasas_interes : M value :=
  try_except
    (data <- get_series_default [SeriesCodes.TASA_REFERENCIA_BCRP;
                                 SeriesCodes.TAMN_DEPOSITOS;
                                 SeriesCodes.TAMEX_DEPOSITOS] ;;
     lift (triplet_of (U "tasa_referencia") (U "tamn_depositos")
                      (U "tamex_depositos") data))%m
    (fun _ => ret VNone).

Definition get_inflacion : M value :=
  get_latest_value SeriesCodes.INFLACION_ANUAL.

Definition format_for_prompt (data : value) : res str :=
  (let? unusable :=
     (if negb (truthy data) then Ok true else py_contains (U "error") data) in
   if unusable then Ok (U "No se pudieron obtener datos del BCRP.")
   else
     let? is_serie := py_contains (U "serie") data in
     if is_serie then
       let? serie := py_getitem data (U "serie") in
       let? periodo := py_getitem data (U "periodo") in
       let? valor := py_getitem data (U "valor") in
       let? has_desc := py_get data (U "descripcion") VNone in
       let? desc_line :=
         (if truthy has_desc
          then let? d := py_getitem data (U "descripcion") in
               Ok [U "   " ++ py_str d]
          else Ok []) in
       Ok (join NL ([U "📊 " ++ py_str serie;
               U "   Periodo: " ++ py_str periodo;
               U "   Valor: " ++ py_str valor] ++ desc_line))
     else
       let? is_tc := py_contains (U "promedio") data in
       if is_tc then
         let? fecha := py_getitem data (U "fecha") in
         let? promedio := py_getitem data (U "promedio") in
         let? compra := py_getitem data (U "compra") in
         let? venta := py_getitem data (U "venta") in
         Ok (join NL [U "💱 Tipo de Cambio (" ++ py_str fecha ++ U ")";
              U "   Promedio: S/ " ++ py_str promedio;
              U "   Compra: S/ " ++ py_str compra;
              U "   Venta: S/ " ++ py_str venta])
       else
         let? is_tasas := py_contains (U "tasa_referencia") data in
         if is_tasas then
           let? fecha := py_getitem data (U "fecha") in
           let? tasa := py_getitem data (U "tasa_referencia") in
           let? tamn := py_getitem data (U "tamn_depositos") in
           let? tamex := py_getitem data (U "tamex_depositos") in
           Ok (join NL [U "📈 Tasas de Interés (" ++ py_str fecha ++ U ")";
                U "   Tasa de Referencia BCRP: " ++ py_str tasa ++ U "%";
                U "   TAMN Depósitos: " ++ py_str tamn ++ U "%";
                U "   TAMEX Depósitos: " ++ py_str tamex ++ U "%"])
         else Ok (join NL []))%res.

(** [for query_type, keywords in patterns.items(): if any(...): return query_type] *)
Fixpoint first_query_type (patterns : list (str * list str))
    (message_lower : str) : option str :=
  match patterns with
  | [] => None
  | (query_type, keywords) :: rest =>
      if existsb (fun keyword => str_in keyword message_lower) keywords
      then Some query_type
      else first_query_type rest message_lower
  end.

Definition detect_economic_query (message : str) : option str :=
  first_query_type query_patterns (lower message).

Definition context_header : str :=
  U "--- DATOS ECONÓMICOS ACTUALIZADOS (BCRP) ---" ++ NL.

Definition context_footer : str :=
  NL ++ U "Fuente: Banco Central de Reserva del Perú (BCRP)".

(** [if data: context_parts.append(prefix + format_for_prompt(data))] *)
Definition append_formatted (prefix : str) (data : value)
    (context_parts : list str) : M (list str) :=
  if truthy data
  then (f <- lift (format_for_prompt data) ;; ret (context_parts ++ [prefix ++ f]))%m
  else ret context_parts.

(** The part of [get_economic_context] after the intent is known: the client
    calls under [try], and [except Exception: return ""]. *)
Definition economic_context_for (query_type : str) : M str :=
  let context_parts := [context_header] in
  try_except
    (parts <-
       (if str_eqb query_type (U "tipo_cambio") then
          data <- get_tipo_cambio ;; append_formatted [] data context_parts
        else if str_eqb query_type (U "tasas") then
          data <- get_tasas_interes ;; append_formatted [] data context_parts
        else if str_eqb query_type (U "inflacion") then
          data <- get_inflacion ;; append_formatted [] data context_parts
        else if str_eqb query_type (U "general") then
          tc <- get_tipo_cambio ;;
          tasas <- get_tasas_interes ;;
          parts <- append_formatted [] tc context_parts ;;
          append_formatted NL tasas parts
        else ret context_parts) ;;
     ret (join NL (parts ++ [context_footer])))%m
    (fun _ => ret []).

(** [if not query_type: return ""] holds for [None] and for the empty string. *)
Definition get_economic_context (message : str) : M str :=
  match detect_economic_query message with
  | None => ret []
  | Some [] => ret []
  | Some query_type => economic_context_for query_type
  end.

End BCRPClient.

(* ================================================================== *)
(** ** app.py: the session and one turn *)
(* ================================================================== *)

Inductive Role := Human | AI.

Record ChatMessage := {
  role : Role;
  content : str
}.

(** [ChatMessageHistory]: the ordered messages of the session. *)
Definition ChatMessageHistory := list ChatMessage.

(** What the chat surface is asked to do during a turn. *)
Inductive UiAction :=
| Send (text : str)
| StreamToken (chunk : str)
| RemoveStreamed
| SendStreamed.

Record TurnOutput := {
  ui : list UiAction;
  security_log : list SecurityEvent
}.

(** The generation pipeline ([add_..._context | prompt_with_rag | llm |
    StrOutputParser()]) is the hosted model's: any function from the history
    and the input to the chunks it streams. *)
Definition Chain := ChatMessageHistory -> str -> list str.

(** [RunnableWithMessageHistory(chain, get_session_history,
    input_messages_key="input", history_messages_key="history")], streamed:
    the wrapper reads the session memory, passes it to the chain as
    [history], and when the stream ends adds the input as a human message and
    the whole output as an AI message to the same memory. *)
Definition RunnableWithMessageHistory (chain : Chain)
    (memory : ChatMessageHistory) (input : str)
    : list str * ChatMessageHistory :=
  let chunks := chain memory input in
  (chunks,
   memory ++ [ {| role := Human; content := input |};
               {| role := AI; content := concat chunks |} ]).

(** The two values [on_chat_start] stores in the user session. *)
Record Session := {
  memory : ChatMessageHistory;
  agent : ChatMessageHistory -> str -> list str * ChatMessageHistory
}.

Definition on_chat_start (chain : Chain) : Session :=
  {| memory := [];
     agent := RunnableWithMessageHistory chain |}.

Section App.
Context {UD : Unicode}.

Definition warn (blocked_response : str) : UiAction :=
  Send (U "⚠️ " ++ blocked_response).

(** One user message; [draw] is the random draw of the blocked response. *)
Definition on_message (session : Session) (message_content : str) (draw : nat)
    : TurnOutput * Session :=
  let sanitized_message := sanitize_financial_data message_content in
  let '(is_blocked, tipo, detalle) := check_input sanitized_message in
  if is_blocked then
    ({| ui := [warn (get_random_response responses_input_blocked draw)];
        security_log :=
          [log_security_event (U "input_blocked") message_content detalle] |},
     session)
  else
    let '(chunks, memory') := agent session (memory session) sanitized_message in
    let session' := {| memory := memory'; agent := agent session |} in
    let full_response := concat chunks in
    let '(is_blocked_out, tipo_out, detalle_out) := check_output full_response in
    if is_blocked_out then
      ({| ui := map StreamToken chunks
                ++ [RemoveStreamed;
                    warn (get_random_response responses_output_blocked draw)];
          security_log :=
            [log_security_event (U "output_blocked") message_content detalle_out] |},
       session')
    else
      ({| ui := map StreamToken chunks ++ [SendStreamed];
          security_log := [] |},
       session').

End App.

(* ================================================================== *)
(** ** app.py and rag_manager.py: the context step of the chain *)
(* ================================================================== *)

(** [str(n)] for a natural number: its decimal digits. *)
Fixpoint uint_chars (d : Decimal.uint) : str :=
  match d with
  | Decimal.Nil => []
  | Decimal.D0 d' => 48%N :: uint_chars d'
  | Decimal.D1 d' => 49%N :: uint_chars d'
  | Decimal.D2 d' => 50%N :: uint_chars d'
  | Decimal.D3 d' => 51%N :: uint_chars d'
  | Decimal.D4 d' => 52%N :: uint_chars d'
  | Decimal.D5 d' => 53%N :: uint_chars d'
  | Decimal.D6 d' => 54%N :: uint_chars d'
  | Decimal.D7 d' => 55%N :: uint_chars d'
  | Decimal.D8 d' => 56%N :: uint_chars d'
  | Decimal.D9 d' => 57%N :: uint_chars d'
  end.

Definition str_of_nat (n : nat) : str := uint_chars (Nat.to_uint n).

(** [enumerate(l, start)] *)
Fixpoint enumerate {A : Type} (start : nat) (l : list A) : list (nat * A) :=
  match l with
  | [] => []
  | x :: l' => (start, x) :: enumerate (S start) l'
  end.

(** A LangChain [Document]: its text and its metadata. *)
Record Document := {
  page_content : str;
  metadata : list (str * value)
}.

Definition format_docs (docs : list Document) : str :=
  match docs with
  | [] => U "No se encontró información relevante en los documentos."
  | _ =>
      join (NL ++ NL)
        (map (fun '(i, doc) =>
                U "Documento " ++ str_of_nat (i + 1) ++ U ":" ++ NL
                ++ page_content doc)
             (enumerate 0 docs))
  end.

(** The dictionary the context step is given ([inputs.get] supplies the
    defaults for a missing key), and the one it returns to the prompt. *)
Record Inputs := {
  inputs_input : option str;
  inputs_history : option ChatMessageHistory
}.

Record PromptInputs := {
  context : str;
  input : str;
  history : ChatMessageHistory
}.

Section ContextStep.
Context {UD : Unicode}.
Variable http : nat -> str -> HttpOutcome.
Variable json_error_is_request_exception : bool.
Variable py_str : value -> str.

(** [retriever.invoke(query)]: the documents found, or an exception. *)
Variable retriever : str -> res (list Document).

(** [if bcrp_context: context_parts.append(bcrp_context)] *)
Definition append_bcrp (bcrp_context : str) (context_parts : list str)
    : list str :=
  if negb (Nat.eqb (length bcrp_context) 0)
  then context_parts ++ [bcrp_context]
  else context_parts.

Definition add_bcrp_only_context (inputs : Inputs) : M PromptInputs :=
  let query := match inputs_input inputs with Some q => q | None => [] end in
  let history := match inputs_history inputs with Some h => h | None => [] end in
  let context_parts := [U "No hay documentos PDF disponibles."] in
  (bcrp_context <-
     get_economic_context http json_error_is_request_exception py_str query ;;
   let context_parts := append_bcrp bcrp_context context_parts in
   ret {| context := join (NL ++ NL) context_parts;
          input := query;
          history := history |})%m.

Definition add_rag_and_bcrp_context (inputs : Inputs) : M PromptInputs :=
  let query := match inputs_input inputs with Some q => q | None => [] end in
  let history := match inputs_history inputs with Some h => h | None => [] end in
  let context_parts := [] in
  (docs <- lift (retriever query) ;;
   let rag_context := format_docs docs in
   let context_parts := context_parts ++ [rag_context] in
   bcrp_context <-
     get_economic_context http json_error_is_request_exception py_str query ;;
   let context_parts := append_bcrp bcrp_context context_parts in
   ret {| context := join (NL ++ NL) context_parts;
          input := query;
          history := history |})%m.

End ContextStep.

(** *** rag_manager.py: the formatted context *)

Section RAGManager.
Variable py_str : value -> str.

(** [RAGManager._format_docs] *)
Definition _format_docs (docs : list Document) : str :=
  match docs with
  | [] => U "No se encontró información relevante en los documentos."
  | _ =>
      join NL
        (map (fun '(i, doc) =>
                let source :=
                  match dict_lookup (U "source") (metadata doc) with
                  | Some x => x
                  | None => VStr (U "Desconocido")
                  end in
                let page :=
                  match dict_lookup (U "page") (metadata doc) with
                  | Some x => x
                  | None => VStr (U "N/A")
                  end in
                U "--- Documento " ++ str_of_nat i ++ U " ---" ++ NL
                ++ U "Fuente: " ++ py_str source ++ U " (Página " ++ py_str page
                ++ U ")" ++ NL
                ++ U "Contenido:" ++ NL ++ page_content doc ++ NL)
             (enumerate 1 docs))
  end.

(** [RAGManager.retrieve_context]; [retriever] is [self.retriever], [None]
    before a successful initialisation. *)
Definition retrieve_context (retriever : option (str -> res (list Document)))
    (query : str) : str :=
  match retriever with
  | None => U "No hay documentos disponibles."
  | Some r =>
      match r query with
      | Ok docs => _format_docs docs
      | Raise _ => U "Error al recuperar documentos."
      end
  end.

(** [create_rag_chain_function(rag_manager)] *)
Definition add_rag_context (retriever : option (str -> res (list Document)))
    (inputs : Inputs) : PromptInputs :=
  let query := match inputs_input inputs with Some q => q | None => [] end in
  let history := match inputs_history inputs with Some h => h | None => [] end in
  {| context := retrieve_context retriever query;
     input := query;
     history := history |}.

(** [get_empty_context_function()] *)
Definition add_empty_context (inputs : Inputs) : PromptInputs :=
  {| context := U "No hay documentos disponibles.";
     input := match inputs_input inputs with Some q => q | None => [] end;
     history := match inputs_history inputs with Some h => h | None => [] end |}.

End RAGManager.

(* ================================================================== *)
(** ** Notions the properties are stated with *)
(* ================================================================== *)

(** A spelling of a keyword in some mix of upper and lower case. *)
Definition casing_of (k' kw : str) : Prop :=
  is_latin1 k' = true /\ map lower1 k' = map lower1 kw.

(** The URL of a default request for the given codes, and what [get_series]
    makes of the outcome of a json request. *)
Definition series_url (codes : list str) : str :=
  join (U "/") [BCRPConfig.BASE_URL; join (U "-") codes; U "json"].

Definition series_result (json_error_is_request_exception : bool)
    (o : HttpOutcome) : res value :=
  match o with
  | RequestFailed e => Ok (error_dict e)
  | HttpErrorStatus e => Ok (error_dict e)
  | BadJson _ e =>
      if json_error_is_request_exception then Ok (error_dict e)
      else Raise JSONDecodeError
  | Good _ body => Ok body
  end.

(** The fetch failed: no connection, an error status, or a body that is not
    JSON. *)
Definition fetch_failed (o : HttpOutcome) : Prop :=
  match o with
  | Good _ _ => False
  | _ => True
  end.

Definition tipo_cambio_codes : list str :=
  [SeriesCodes.TIPO_CAMBIO_PROMEDIO; SeriesCodes.TIPO_CAMBIO_COMPRA;
   SeriesCodes.TIPO_CAMBIO_VENTA].

Definition tasas_codes : list str :=
  [SeriesCodes.TASA_REFERENCIA_BCRP; SeriesCodes.TAMN_DEPOSITOS;
   SeriesCodes.TAMEX_DEPOSITOS].

(** Decide the comparisons of two literals in a goal. *)
Ltac eval_str_eqb :=
  repeat match goal with
         | |- context [str_eqb (U ?a) (U ?b)] =>
             let v := eval vm_compute in (str_eqb (U a) (U b)) in
             replace (str_eqb (U a) (U b)) with v by (vm_compute; reflexivity)
         end.

(** The words a pattern can match, context assertions left aside. *)
Fixpoint matches {UD : Unicode} (icase : bool) (r : regex) (w : str) : Prop :=
  match r with
  | Eps => w = []
  | Chars cs => exists c, w = [c] /\ in_set icase cs c = true
  | Rep cs min max =>
      Forall (fun c => in_set icase cs c = true) w /\ min <= length w /\
      match max with
      | Some m => length w <= m
      | None => True
      end
  | Bound => w = []
  | Seq r1 r2 => exists w1 w2, w = w1 ++ w2 /\ matches icase r1 w1 /\ matches icase r2 w2
  | Alt r1 r2 => matches icase r1 w \/ matches icase r2 w
  | Group _ r1 => matches icase r1 w
  end.

Definition is_digit_atom (a : atom) : bool :=
  match a with
  | Digit => true
  | _ => false
  end.

(** The number of decimal digits every match of a pattern holds at least, and
    the length of a run of consecutive digits every match holds. *)
Fixpoint min_digits (r : regex) : nat :=
  match r with
  | Eps | Bound => 0
  | Chars cs => if forallb is_digit_atom cs then 1 else 0
  | Rep cs min _ => if forallb is_digit_atom cs then min else 0
  | Seq r1 r2 => min_digits r1 + min_digits r2
  | Alt r1 r2 => Nat.min (min_digits r1) (min_digits r2)
  | Group _ r1 => min_digits r1
  end.

Fixpoint min_run (r : regex) : nat :=
  match r with
  | Eps | Bound => 0
  | Chars cs => if forallb is_digit_atom cs then 1 else 0
  | Rep cs min _ => if forallb is_digit_atom cs then min else 0
  | Seq r1 r2 => Nat.max (min_run r1) (min_run r2)
  | Alt r1 r2 => Nat.min (min_run r1) (min_run r2)
  | Group _ r1 => min_run r1
  end.

(** [n] decimal digits at the head of [s]; a run of [n] somewhere in [s]. *)
Fixpoint digits_at {UD : Unicode} (n : nat) (s : str) : bool :=
  match n with
  | O => true
  | S k =>
      match s with
      | c :: s' => isdecimal c && digits_at k s'
      | [] => false
      end
  end.

Fixpoint has_digit_run {UD : Unicode} (n : nat) (s : str) : bool :=
  digits_at n s ||
  match s with
  | [] => false
  | _ :: s' => has_digit_run n s'
  end.

Definition ndigits {UD : Unicode} (s : str) : nat :=
  length (filter isdecimal s).


(** The labels of the CVV pattern, in the order of its alternatives, and its
    separator set [[\s:]]. *)
Definition cvv_labels : list str := map U ["cvv"; "código"; "code"; "cvc"]%string.

Definition seps : list atom := Space :: set ":".


(** The letters of the labels are Latin-1 letters: no whitespace, no colon,
    no digit. *)
Definition label_letters_ok : bool :=
  forallb (fun label =>
    forallb (fun p => (p <? 256)%N && negb (isspace1 p) && negb (isdecimal1 p)
                      && negb (char_eqb (lower1 p) 58%N))
      label && negb (Nat.eqb (length label) 0))
    cvv_labels.

(** What it is for a word to match a label letter by letter. *)
Definition spells {UD : Unicode} (label w : str) : Prop :=
  Forall2 (fun p c => in_set true [Lit p] c = true) label w.

(** A response of two periods: the values of the second, by position. *)
Definition sample_response : value :=
  VDict [(U "config",
          VDict [(U "series", VList [VDict [(U "name", VStr (U "venta"))];
                                     VDict [(U "name", VStr (U "compra"))];
                                     VDict [(U "name", VStr (U "promedio"))]])]);
         (U "periods",
          VList [VDict [(U "name", VStr (U "01.Oct.25"));
                        (U "values", VList [VStr (U "3.70"); VStr (U "3.69");
                                            VStr (U "3.71")])];
                 VDict [(U "name", VStr (U "02.Oct.25"));
                        (U "values", VList [VStr (U "3.75"); VStr (U "3.74");
                                            VStr (U "3.76")])]])].

(** *** The digit rules *)

(** The character on one side of a cursor is a word character. *)
Definition word_at_head {UD : Unicode} (s : list char) : bool :=
  match s with
  | c :: _ => isword c
  | [] => false
  end.

(** The separator set [[\s-]] of the card pattern, and what may stand between
    two blocks of a card number: nothing, or one separator. *)
Definition card_seps : list atom := Space :: set "-".

Definition is_card_sep {UD : Unicode} (s : str) : bool :=
  match s with
  | [] => true
  | [c] => isspace c || char_eqb c 45%N
  | _ => false
  end.

(** The two spellings the first input pattern accepts for its first word. *)
Definition cuenta_spellings : list str := map U ["cuenta"; "cuanta"]%string.

(** *** The client's results *)

(** The dictionaries the client methods build. *)
Definition triplet_dict (k0 k1 k2 : str) (fecha v0 v1 v2 : value) : value :=
  VDict [(U "fecha", fecha); (k0, v0); (k1, v1); (k2, v2)].

Definition tipo_cambio_dict : value -> value -> value -> value -> value :=
  triplet_dict (U "promedio") (U "compra") (U "venta").

Definition tasas_dict : value -> value -> value -> value -> value :=
  triplet_dict (U "tasa_referencia") (U "tamn_depositos") (U "tamex_depositos").

Definition latest_dict (serie : value) (codigo : str)
    (periodo valor descripcion : value) : value :=
  VDict [(U "serie", serie); (U "codigo", VStr codigo); (U "periodo", periodo);
         (U "valor", valor); (U "descripcion", descripcion)].

(** The requests each intent makes, in order. *)
Definition intent_requests (query_type : str) : list str :=
  if str_eqb query_type (U "tipo_cambio") then [series_url tipo_cambio_codes]
  else if str_eqb query_type (U "tasas") then [series_url tasas_codes]
  else if str_eqb query_type (U "inflacion")
  then [series_url [SeriesCodes.INFLACION_ANUAL]]
  else if str_eqb query_type (U "general")
  then [series_url tipo_cambio_codes; series_url tasas_codes]
  else [].

(** Follow a chain of [let?] steps in a goal [... = Ok v -> ...]. *)
Ltac step_res :=
  repeat match goal with
         | |- res_bind ?x _ = _ -> _ =>
             destruct x; cbn [res_bind]; [|discriminate]
         | |- (if ?b then _ else _) = _ -> _ => destruct b
         end.

(** [str(v)] for [None], booleans, integers and strings, the values the
    examples render; a float, a list or a dictionary, which none of them
    renders, is left blank. *)
Definition sample_py_str (v : value) : str :=
  match v with
  | VNone => U "None"
  | VBool true => U "True"
  | VBool false => U "False"
  | VInt n =>
      if (n <? 0)%Z then 45%N :: str_of_nat (Z.to_nat (- n))
      else str_of_nat (Z.to_nat n)
  | VStr s => s
  | _ => []
  end.

(** A response whose last period holds two values only. *)
Definition short_response : value :=
  VDict [(U "periods",
          VList [VDict [(U "name", VStr (U "Sep.2025"));
                        (U "values", VList [VStr (U "4.50"); VStr (U "14.2")])]])].

(** A response to a request for the annual inflation series. *)
Definition inflation_response : value :=
  VDict [(U "config",
          VDict [(U "series",
                  VList [VDict [(U "name", VStr (U "IPC var. 12 meses"))]])]);
         (U "periods",
          VList [VDict [(U "name", VStr (U "Ago.2025"));
                        (U "values", VList [VStr (U "1.1")])];
                 VDict [(U "name", VStr (U "Sep.2025"));
                        (U "values", VList [VStr (U "1.4")])]])].

(** A response whose last period has an empty list of values. *)
Definition empty_values_response : value :=
  VDict [(U "periods",
          VList [VDict [(U "name", VStr (U "Sep.2025"));
                        (U "values", VList [])]])].

(** A service that answers the first request with [sample_response] and the
    following ones with [short_response]. *)
Definition sample_http (n : nat) (url : str) : HttpOutcome :=
  match n with
  | O => Good [] sample_response
  | S _ => Good [] short_response
  end.

(** Two documents, and a retriever that finds them for every query. *)
Definition sample_docs : list Document :=
  [ {| page_content := U "Cuenta de ahorro: TREA 4.5%";
       metadata := [(U "source", VStr (U "tarifario.pdf")); (U "page", VInt 3)] |};
    {| page_content := U "Plazo fijo: TREA 6.1%"; metadata := [] |} ].

Definition sample_retriever (query : str) : res (list Document) := Ok sample_docs.

(** *** Conversations *)

(** A conversation: the messages of the user, each with the draw of its
    blocked response, handled one after the other. *)
Definition turns {UD : Unicode} (session : Session)
    (messages : list (str * nat)) : Session :=
  fold_left (fun s m => snd (on_message s (fst m) (snd m))) messages session.

(** A history made of exchanges: a human message and the answer to it. *)
Definition exchanges (pairs : list (str * str)) : ChatMessageHistory :=
  flat_map (fun p => [ {| role := Human; content := fst p |};
                       {| role := AI; content := snd p |} ]) pairs.

(** *** Matches in context *)

(** The words a pattern matches at a cursor, context assertions included:
    [cmatches icase r bh w rest] says that [r] matches [w] when [bh] is the
    text behind the cursor and [rest] the text after [w]. *)
Fixpoint cmatches {UD : Unicode} (icase : bool) (r : regex) (bh : list char)
    (w rest : str) : Prop :=
  match r with
  | Eps => w = []
  | Chars cs => exists c, w = [c] /\ in_set icase cs c = true
  | Rep cs min max =>
      Forall (fun c => in_set icase cs c = true) w /\ min <= length w /\
      match max with
      | Some m => length w <= m
      | None => True
      end
  | Bound => w = [] /\ at_boundary (MState bh rest []) = true
  | Seq r1 r2 =>
      exists w1 w2, w = w1 ++ w2 /\ cmatches icase r1 bh w1 (w2 ++ rest) /\
                    cmatches icase r2 (rev w1 ++ bh) w2 rest
  | Alt r1 r2 => cmatches icase r1 bh w rest \/ cmatches icase r2 bh w rest
  | Group _ r1 => cmatches icase r1 bh w rest
  end.

(** Patterns without [\b], and patterns without groups. *)
Fixpoint bound_free (r : regex) : bool :=
  match r with
  | Bound => false
  | Seq r1 r2 | Alt r1 r2 => bound_free r1 && bound_free r2
  | Group _ r1 => bound_free r1
  | _ => true
  end.

Fixpoint group_free (r : regex) : bool :=
  match r with
  | Group _ _ => false
  | Seq r1 r2 | Alt r1 r2 => group_free r1 && group_free r2
  | _ => true
  end.

(** The mask the CVV rule writes, and its being directly followed, somewhere
    in a text, by a match of the card rule or of the account rule. *)
Definition cvv_mask : str := U "[OCULTO]".

Definition hits {UD : Unicode} (icase : bool) (r : regex) (bh : list char)
    (ah : str) : bool :=
  match run icase r (MState bh ah []) with
  | [] => false
  | _ :: _ => true
  end.

Fixpoint mask_then_match {UD : Unicode} (bh : list char) (s : str) : bool :=
  (startswith cvv_mask s &&
   (hits false card_pattern (rev (firstn (length cvv_mask) s) ++ bh)
         (skipn (length cvv_mask) s)
    || hits false account_pattern (rev (firstn (length cvv_mask) s) ++ bh)
            (skipn (length cvv_mask) s)))
  || match s with
     | [] => false
     | c :: s' => mask_then_match (c :: bh) s'
     end.

(** What the card rule and the account rule share: a match stands between two
    word boundaries, starts and ends with a digit and holds no [']']. *)
Definition digit_rule {UD : Unicode} (icase : bool) (r : regex) : Prop :=
  forall (bh : list char) (w rest : str),
    cmatches icase r bh w rest ->
    word_at_head bh = false /\ word_at_head rest = false /\
    (exists d w1, w = d :: w1 /\ isdecimal d = true) /\
    Forall (fun c => c <> 93%N) w /\
    (exists w0 d, w = w0 ++ [d] /\ isdecimal d = true).

(** *** Requests and document blocks *)

(** What [get_series] appends to the base URL, the codes and the format: the
    start period if there is one, the end period if both are there, and the
    language unless it is "esp". *)
Definition url_tail (start_period end_period : option str) (language : str)
    : list str :=
  match start_period with
  | Some (c :: sp) =>
      (c :: sp) :: match end_period with
                   | Some (c' :: ep) => [c' :: ep]
                   | _ => []
                   end
  | _ => []
  end
  ++ (if str_eqb language (U "esp") then [] else [language]).

(** [doc.metadata.get(key, default)] and the block [_format_docs] writes for
    the [i]-th document. *)
Definition metadata_get (doc : Document) (key default : str) : value :=
  match dict_lookup key (metadata doc) with
  | Some x => x
  | None => VStr default
  end.

Definition document_block (py_str : value -> str) (i : nat) (doc : Document)
    : str :=
  U "--- Documento " ++ str_of_nat i ++ U " ---" ++ NL
  ++ U "Fuente: " ++ py_str (metadata_get doc (U "source") (U "Desconocido"))
  ++ U " (Página " ++ py_str (metadata_get doc (U "page") (U "N/A"))
  ++ U ")" ++ NL
  ++ U "Contenido:" ++ NL ++ page_content doc ++ NL.

(* ================================================================== *)
(** * Properties *)
(* ================================================================== *)

Unset Implicit Arguments.

(** ** Strings *)

Lemma char_eqb_eq (a b : char) : char_eqb a b = true <-> a = b.
Proof. unfold char_eqb. apply N.eqb_eq. Qed.

Lemma char_eqb_refl (a : char) : char_eqb a a = true.
Proof. now apply char_eqb_eq. Qed.

Lemma str_eqb_eq (a b : str) : str_eqb a b = true <-> a = b.
Proof.
  revert b. induction a as [|x a IH]; intros [|y b]; simpl; split;
    try congruence; try easy.
  - intros H. apply andb_true_iff in H as [H1 H2].
    apply char_eqb_eq in H1. apply IH in H2. now subst.
  - intros H. injection H as -> ->. rewrite char_eqb_refl. now apply IH.
Qed.

Lemma startswith_iff (p s : str) :
  startswith p s = true <-> exists t, s = p ++ t.
Proof.
  revert s. induction p as [|a p IH]; intros s; simpl.
  - split; [intros _; now exists s | reflexivity].
  - destruct s as [|b s].
    + split; [discriminate | intros [t H]; discriminate].
    + rewrite andb_true_iff, char_eqb_eq, IH. split.
      * intros [-> [t ->]]. now exists t.
      * intros [t H]. injection H as -> ->. split; [reflexivity | now exists t].
Qed.

Lemma str_in_iff (x s : str) :
  str_in x s = true <-> exists pre post, s = pre ++ x ++ post.
Proof.
  induction s as [|c s IH]; simpl.
  - rewrite orb_false_r, startswith_iff. split.
    + intros [t H]. now exists [], t.
    + intros [pre [post H]]. destruct pre; simpl in H.
      * now exists post.
      * discriminate.
  - rewrite orb_true_iff, startswith_iff, IH. split.
    + intros [[t H] | [pre [post H]]].
      * now exists [], t.
      * exists (c :: pre), post. simpl. now rewrite H.
    + intros [pre [post H]]. destruct pre as [|c' pre]; simpl in H.
      * left. now exists post.
      * right. injection H as _ H. now exists pre, post.
Qed.

Section Keywords.
Context {UD : Unicode}.

(** A keyword written in lower case is found in the lowered message whatever
    the casing the message uses for it. *)
Lemma casing_found (kw k' pre post : str) :
  casing_of k' kw -> map lower1 kw = kw ->
  str_in kw (lower (pre ++ k' ++ post)) = true.
Proof.
  intros [Hl Hk] Hkw.
  destruct (lower_local pre k' post Hl) as [x [y E]].
  rewrite E, Hk, Hkw. apply str_in_iff. now exists x, y.
Qed.

(** The loop over the keywords returns the first one, in list order, that
    occurs in the lowered message. *)
Lemma first_palabra_some (l : list str) (m k : str) :
  first_palabra l m = Some k ->
  exists i, nth_error l i = Some k /\ str_in (lower k) m = true /\
    forall j k2, j < i -> nth_error l j = Some k2 -> str_in (lower k2) m = false.
Proof.
  induction l as [|p l IH]; simpl; [discriminate|].
  destruct (str_in (lower p) m) eqn:E.
  - intros H. injection H as <-. exists 0. repeat split; auto.
    intros j k2 Hj. lia.
  - intros H. destruct (IH H) as [i [H1 [H2 H3]]]. exists (S i).
    repeat split; auto. intros [|j] k2 Hj; simpl.
    + intros H4. now injection H4 as <-.
    + apply H3. lia.
Qed.

Lemma first_palabra_none (l : list str) (m : str) :
  first_palabra l m = None -> forall k, In k l -> str_in (lower k) m = false.
Proof.
  induction l as [|p l IH]; simpl; [easy|].
  destruct (str_in (lower p) m) eqn:E; [discriminate|].
  intros H k [<- | Hk]; auto.
Qed.

Lemma palabras_in_lowercase :
  forall kw, In kw palabras_in -> is_latin1 kw = true /\ map lower1 kw = kw.
Proof.
  assert (H : forallb (fun kw => is_latin1 kw && str_eqb (map lower1 kw) kw)
                palabras_in = true) by (vm_compute; reflexivity).
  intros kw Hin. rewrite forallb_forall in H. specialize (H kw Hin).
  apply andb_true_iff in H as [H1 H2]. now apply str_eqb_eq in H2.
Qed.

(** C3. An inbound text that contains a configured input keyword, in any
    casing, is blocked by [check_input] with kind ["palabra"] (a keyword
    match), whatever the regex patterns would say.  The keywords are tried in
    declaration order and the first that occurs is the one reported: it stands
    at or before the contained keyword in the list, nothing before it occurs,
    and it is that keyword itself when no earlier one occurs in the text. *)
Theorem check_input_blocks_keyword :
  forall (msg pre k' post kw : str) (n : nat),
    nth_error palabras_in n = Some kw ->
    casing_of k' kw ->
    msg = pre ++ k' ++ post ->
    exists i k,
      i <= n /\ nth_error palabras_in i = Some k /\
      check_input msg = (true, U "palabra", k) /\
      str_in (lower k) (lower msg) = true /\
      (forall j k2, j < i -> nth_error palabras_in j = Some k2 ->
                    str_in (lower k2) (lower msg) = false) /\
      ((forall j k2, j < n -> nth_error palabras_in j = Some k2 ->
                     str_in (lower k2) (lower msg) = false) -> k = kw).
Proof.
  intros msg pre k' post kw n Hn Hc ->.
  destruct (palabras_in_lowercase kw (nth_error_In _ _ Hn)) as [Hl Hkw].
  assert (Hocc : str_in (lower kw) (lower (pre ++ k' ++ post)) = true).
  { rewrite (lower_latin1 kw Hl), Hkw. now apply casing_found. }
  unfold check_input.
  destruct (first_palabra palabras_in (lower (pre ++ k' ++ post))) as [k|] eqn:E.
  - destruct (first_palabra_some _ _ _ E) as [i [H1 [H2 H3]]].
    assert (Hle : i <= n).
    { destruct (le_lt_dec i n) as [|Hlt]; [assumption|].
      rewrite (H3 n kw Hlt Hn) in Hocc. discriminate. }
    exists i, k. repeat split; auto.
    intros Hnone. destruct (Nat.eq_dec i n) as [-> | Hne].
    + congruence.
    + rewrite (Hnone i k) in H2; [discriminate | lia | assumption].
  - rewrite (first_palabra_none _ _ E kw (nth_error_In _ _ Hn)) in Hocc.
    discriminate.
Qed.

End Keywords.

(** The message "Quiero HACKEAR y Robar una cuenta" holds the first keyword in
    capitals (and the second one too): it is blocked on "hackear". *)
Lemma check_input_blocks_keyword_witness :
  exists i k,
    i <= 0 /\ nth_error palabras_in i = Some k /\
    check_input (U "Quiero HACKEAR y Robar una cuenta") = (true, U "palabra", k) /\
    str_in (lower k) (lower (U "Quiero HACKEAR y Robar una cuenta")) = true /\
    (forall j k2, j < i -> nth_error palabras_in j = Some k2 ->
       str_in (lower k2) (lower (U "Quiero HACKEAR y Robar una cuenta")) = false) /\
    ((forall j k2, j < 0 -> nth_error palabras_in j = Some k2 ->
       str_in (lower k2) (lower (U "Quiero HACKEAR y Robar una cuenta")) = false) ->
     k = U "hackear").
Proof.
  apply (@check_input_blocks_keyword Latin1
           (U "Quiero HACKEAR y Robar una cuenta")
           (U "Quiero ") (U "HACKEAR") (U " y Robar una cuenta") (U "hackear") 0).
  - vm_compute; reflexivity.
  - split; vm_compute; reflexivity.
  - vm_compute; reflexivity.
Defined.

(** ** The topic check *)

Section Topic.
Context {UD : Unicode}.

(** C9. A message of fewer than three whitespace-separated words is valid with
    an empty reason; the financial keywords are not consulted. *)
Theorem short_message_is_valid :
  forall message : str,
    length (split message) < 3 ->
    validate_financial_context message = (true, []).
Proof.
  intros message H. unfold validate_financial_context.
  apply Nat.ltb_lt in H. now rewrite H.
Qed.

End Topic.

(** "hola mundo" names no financial keyword and has two words. *)
Lemma short_message_is_valid_witness :
  length (split (U "hola mundo")) < 3 /\
  existsb (fun kw => str_in kw (lower (U "hola mundo"))) financial_keywords = false /\
  validate_financial_context (U "hola mundo") = (true, []).
Proof.
  assert (H : length (split (U "hola mundo")) < 3) by (vm_compute; lia).
  split; [exact H | split; [vm_compute; reflexivity |]].
  exact (@short_message_is_valid Latin1 (U "hola mundo") H).
Defined.

(** ** The economic context resolver *)

Section Resolver.
Context {UD : Unicode}.
Variable http : nat -> str -> HttpOutcome.
Variable json_error_is_request_exception : bool.
Variable py_str : value -> str.

Lemma first_query_type_none (l : list (str * list str)) (m : str) :
  (forall qt kws kw, In (qt, kws) l -> In kw kws -> str_in kw m = false) ->
  first_query_type l m = None.
Proof.
  induction l as [|[qt kws] l IH]; intros H; simpl; [reflexivity|].
  destruct (existsb (fun keyword => str_in keyword m) kws) eqn:E.
  - apply existsb_exists in E as [kw [Hin Hkw]].
    rewrite (H qt kws kw) in Hkw; [discriminate | now left | assumption].
  - apply IH. intros qt' kws' kw Hin. apply (H qt' kws' kw). now right.
Qed.

Lemma first_query_type_in (l : list (str * list str)) (m q : str) :
  first_query_type l m = Some q -> In q (map fst l).
Proof.
  induction l as [|[qt kws] l IH]; simpl; [discriminate|].
  destruct (existsb (fun keyword => str_in keyword m) kws).
  - intros H. injection H as ->. now left.
  - intros H. right. now apply IH.
Qed.

(** C6. A message that matches none of the four keyword lists has no intent,
    and [get_economic_context] returns the empty string without a request:
    the list of requested URLs is the one it started from. *)
Theorem no_intent_no_fetch :
  forall (message : str) (log : list str),
    (forall qt kws kw, In (qt, kws) query_patterns -> In kw kws ->
                       str_in kw (lower message) = false) ->
    detect_economic_query message = None /\
    get_economic_context http json_error_is_request_exception py_str message log
    = (Ok [], log).
Proof.
  intros message log H.
  assert (E : detect_economic_query message = None)
    by (now apply first_query_type_none).
  split; [exact E|]. unfold get_economic_context. now rewrite E.
Qed.

(** C10. A message with the letters "tc", in either case each and anywhere,
    also inside a longer word, is an exchange-rate query: that intent is
    checked first and its keyword list holds the bare "tc". *)
Theorem tc_substring_is_tipo_cambio :
  forall msg pre k' post : str,
    casing_of k' (U "tc") ->
    msg = pre ++ k' ++ post ->
    detect_economic_query msg = Some (U "tipo_cambio").
Proof.
  intros msg pre k' post Hc ->.
  assert (Hin : str_in (U "tc") (lower (pre ++ k' ++ post)) = true)
    by (apply casing_found; [exact Hc | vm_compute; reflexivity]).
  unfold detect_economic_query, query_patterns. cbn [first_query_type].
  match goal with
  | |- (if ?b then _ else _) = _ => assert (E : b = true)
  end.
  { apply existsb_exists. exists (U "tc"). split; [|exact Hin].
    vm_compute. right. right. right. left. reflexivity. }
  now rewrite E.
Qed.

End Resolver.

(** A question about the cost rate of a loan, "TCEA", is taken for an
    exchange-rate query, although "tasa de interés" comes later in it. *)
Lemma tc_substring_is_tipo_cambio_witness :
  casing_of (U "TC") (U "tc") /\
  detect_economic_query (U "¿Cuál es la TCEA y la tasa de interés de un préstamo?")
  = Some (U "tipo_cambio").
Proof.
  assert (H : casing_of (U "TC") (U "tc")) by (split; vm_compute; reflexivity).
  split; [exact H|].
  apply (@tc_substring_is_tipo_cambio Latin1
           (U "¿Cuál es la TCEA y la tasa de interés de un préstamo?")
           (U "¿Cuál es la ") (U "TC")
           (U "EA y la tasa de interés de un préstamo?") H).
  vm_compute; reflexivity.
Defined.

(** "hola, buenos días" matches no intent keyword. *)
Lemma no_intent_no_fetch_witness :
  detect_economic_query (U "hola, buenos días") = None /\
  get_economic_context (fun _ _ => RequestFailed []) true (fun _ => [])
    (U "hola, buenos días") [] = (Ok [], []).
Proof.
  apply (@no_intent_no_fetch Latin1 (fun _ _ => RequestFailed []) true
           (fun _ => []) (U "hola, buenos días") []).
  intros qt kws kw Hin Hkw.
  assert (A : forallb (fun p => forallb (fun k =>
                negb (str_in k (lower (U "hola, buenos días")))) (snd p))
              query_patterns = true) by (vm_compute; reflexivity).
  rewrite forallb_forall in A. specialize (A _ Hin). cbn [snd] in A.
  rewrite forallb_forall in A. specialize (A _ Hkw).
  now apply negb_true_iff in A.
Defined.

(** ** The statistics client *)

Lemma str_eqb_refl (s : str) : str_eqb s s = true.
Proof. now apply str_eqb_eq. Qed.

Section Client.
Variable http : nat -> str -> HttpOutcome.
Variable json_error_is_request_exception : bool.

(** C8. [get_series] with more than ten codes raises the [ValueError] at once:
    the list of requested URLs is untouched.  With ten codes or fewer it
    issues one request whose URL names all the codes given, joined by "-", and
    whatever the outcome it does not raise a [ValueError]. *)
Theorem get_series_limit :
  forall (codes : list str) (fmt : str) (sp ep : option str) (lang : str)
         (log : list str),
    (10 < length codes ->
     get_series http json_error_is_request_exception codes fmt sp ep lang log
     = (Raise (ValueError (U "Máximo 10 series por consulta")), log)) /\
    (length codes <= 10 ->
     exists r more,
       get_series http json_error_is_request_exception codes fmt sp ep lang log
       = (r, log ++ [join (U "/")
                       ([BCRPConfig.BASE_URL; join (U "-") codes; fmt] ++ more)])
       /\ forall msg, r <> Raise (ValueError msg)).
Proof.
  intros codes fmt sp ep lang log. unfold get_series. split; intros H.
  - apply Nat.ltb_lt in H. now rewrite H.
  - apply Nat.ltb_ge in H. rewrite H. cbv zeta.
    set (base := [BCRPConfig.BASE_URL; join (U "-") codes; fmt]).
    assert (E : exists more,
      (if negb (str_eqb lang (U "esp"))
       then match sp with
            | Some (c :: sp0) =>
                match ep with
                | Some (c' :: ep0) => base ++ [c :: sp0] ++ [c' :: ep0]
                | _ => base ++ [c :: sp0]
                end
            | _ => base
            end ++ [lang]
       else match sp with
            | Some (c :: sp0) =>
                match ep with
                | Some (c' :: ep0) => base ++ [c :: sp0] ++ [c' :: ep0]
                | _ => base ++ [c :: sp0]
                end
            | _ => base
            end) = base ++ more).
    { destruct (negb (str_eqb lang (U "esp")));
        destruct sp as [[|c sp0]|]; destruct ep as [[|c' ep0]|];
        rewrite <- ?app_assoc; try (eexists; reflexivity);
        try (exists []; now rewrite app_nil_r). }
    destruct E as [more E]. rewrite E.
    destruct (http (length log) (join (U "/") (base ++ more)));
      destruct (str_eqb fmt (U "json"));
      destruct json_error_is_request_exception;
      eexists; exists more; (split; [reflexivity | intros msg; discriminate]).
Qed.

Lemma get_series_default_eq (codes : list str) (log : list str) :
  length codes <= 10 ->
  get_series_default http json_error_is_request_exception codes log
  = (series_result json_error_is_request_exception
       (http (length log) (series_url codes)),
     log ++ [series_url codes]).
Proof.
  intros H. unfold get_series_default, get_series.
  apply Nat.ltb_ge in H. rewrite H. rewrite !str_eqb_refl.
  cbv beta iota zeta. cbn [negb]. cbv iota.
  unfold series_url, series_result.
  destruct (http (length log) _);
    destruct json_error_is_request_exception; reflexivity.
Qed.

(** [get_tipo_cambio] and [get_tasas_interes] make one request and never
    raise: any exception becomes [None]. *)
Lemma triplet_call_eq (codes : list str) (k0 k1 k2 : str) (log : list str) :
  length codes <= 10 ->
  try_except
    (bind (get_series_default http json_error_is_request_exception codes)
          (fun data => lift (triplet_of k0 k1 k2 data)))
    (fun _ => ret VNone) log
  = (Ok match res_bind (series_result json_error_is_request_exception
                          (http (length log) (series_url codes)))
                       (triplet_of k0 k1 k2) with
        | Ok v => v
        | Raise _ => VNone
        end,
     log ++ [series_url codes]).
Proof.
  intros H. unfold try_except, bind, lift, ret.
  rewrite (get_series_default_eq codes log H).
  destruct (series_result _ _) as [data|e]; cbn [res_bind]; [|reflexivity].
  destruct (triplet_of k0 k1 k2 data); reflexivity.
Qed.

Lemma get_tipo_cambio_eq (log : list str) :
  get_tipo_cambio http json_error_is_request_exception log
  = (Ok match res_bind (series_result json_error_is_request_exception
                          (http (length log) (series_url tipo_cambio_codes)))
                       (triplet_of (U "promedio") (U "compra") (U "venta")) with
        | Ok v => v
        | Raise _ => VNone
        end,
     log ++ [series_url tipo_cambio_codes]).
Proof.
  unfold get_tipo_cambio. apply triplet_call_eq. simpl. lia.
Qed.

Lemma get_tasas_interes_eq (log : list str) :
  get_tasas_interes http json_error_is_request_exception log
  = (Ok match res_bind (series_result json_error_is_request_exception
                          (http (length log) (series_url tasas_codes)))
                       (triplet_of (U "tasa_referencia") (U "tamn_depositos")
                                   (U "tamex_depositos")) with
        | Ok v => v
        | Raise _ => VNone
        end,
     log ++ [series_url tasas_codes]).
Proof.
  unfold get_tasas_interes. apply triplet_call_eq. simpl. lia.
Qed.

Lemma get_latest_value_eq (code : str) (log : list str) :
  get_latest_value http json_error_is_request_exception code log
  = (Ok match res_bind (series_result json_error_is_request_exception
                          (http (length log) (series_url [code])))
                       (latest_value_of code) with
        | Ok v => v
        | Raise _ => VNone
        end,
     log ++ [series_url [code]]).
Proof.
  unfold get_latest_value, try_except, bind, lift, ret.
  rewrite (get_series_default_eq [code] log) by (simpl; lia).
  destruct (series_result _ _) as [data|e]; cbn [res_bind]; [|reflexivity].
  destruct (latest_value_of code data); reflexivity.
Qed.

End Client.

Lemma py_index_last (earlier : list value) (x : value) :
  py_index (VList (earlier ++ [x])) (-1) = Ok x.
Proof.
  unfold py_index. cbv zeta beta. rewrite length_app. cbn [length].
  replace (-1 <? 0)%Z with true by reflexivity.
  replace (-1 + Z.of_nat (length earlier + 1))%Z
    with (Z.of_nat (length earlier)) by lia.
  destruct (Z.leb_spec 0 (Z.of_nat (length earlier))); [|lia].
  destruct (Z.ltb_spec (Z.of_nat (length earlier))
                       (Z.of_nat (length earlier + 1))); [|lia].
  cbn [andb]. rewrite Nat2Z.id, nth_error_app2, Nat.sub_diag by lia.
  reflexivity.
Qed.

Lemma value_at_list (vs : list value) (i : nat) :
  value_at (VList vs) i = Ok (nth i vs VNone).
Proof.
  unfold value_at, py_len. cbn [res_bind].
  destruct (i <? length vs) eqn:E.
  - apply Nat.ltb_lt in E. unfold py_index. cbv zeta beta.
    destruct (Z.ltb_spec (Z.of_nat i) 0); [lia|].
    destruct (Z.leb_spec 0 (Z.of_nat i)); [|lia].
    destruct (Z.ltb_spec (Z.of_nat i) (Z.of_nat (length vs))); [|lia].
    cbn [andb]. rewrite Nat2Z.id. now rewrite (nth_error_nth' vs VNone E).
  - apply Nat.ltb_ge in E. now rewrite nth_overflow.
Qed.

(** On a well-formed body, the triplet comes from the last period alone, its
    values taken by position. *)
Lemma triplet_of_periods (k0 k1 k2 : str) (d p : list (str * value))
    (earlier vs : list value) :
  dict_lookup (U "periods") d = Some (VList (earlier ++ [VDict p])) ->
  dict_lookup (U "values") p = Some (VList vs) ->
  triplet_of k0 k1 k2 (VDict d)
  = Ok (VDict [(U "fecha", match dict_lookup (U "name") p with
                           | Some x => x
                           | None => VNone
                           end);
               (k0, nth 0 vs VNone); (k1, nth 1 vs VNone); (k2, nth 2 vs VNone)]).
Proof.
  intros Hp Hv. unfold triplet_of, has_periods.
  cbn [py_contains py_getitem res_bind]. rewrite Hp. cbn [res_bind truthy].
  rewrite length_app. cbn [length]. rewrite Nat.add_1_r. cbn [Nat.eqb negb].
  rewrite py_index_last. cbn [res_bind py_get]. rewrite Hv.
  cbn [res_bind]. rewrite !value_at_list. reflexivity.
Qed.

Section EconomicContext.
Context {UD : Unicode}.
Variable http : nat -> str -> HttpOutcome.
Variable json_error_is_request_exception : bool.
Variable py_str : value -> str.

(** Formatting makes no request. *)
Lemma append_formatted_log (prefix : str) (data : value) (parts log : list str) :
  exists r, append_formatted py_str prefix data parts log = (r, log).
Proof.
  unfold append_formatted, bind, lift, ret.
  destruct (truthy data); [|eexists; reflexivity].
  destruct (format_for_prompt py_str data); eexists; reflexivity.
Qed.

Lemma exchange_rate_query_detected :
  detect_economic_query (U "cual es el tipo de cambio hoy")
  = Some (U "tipo_cambio").
Proof.
  unfold detect_economic_query.
  rewrite lower_latin1 by (vm_compute; reflexivity).
  vm_compute. reflexivity.
Qed.

(** C7. The query "cual es el tipo de cambio hoy" has the exchange-rate
    intent.  Resolving it issues exactly one request, whose URL names exactly
    the three exchange-rate codes (average, buy, sell) joined by "-"; and on a
    response with periods, [get_tipo_cambio] reads the last period only and
    takes "promedio", "compra" and "venta" from positions 0, 1 and 2 of its
    values, whatever series names the response carries. *)
Theorem exchange_rate_query_batched_by_position :
  detect_economic_query (U "cual es el tipo de cambio hoy")
  = Some (U "tipo_cambio") /\
  snd (get_economic_context http json_error_is_request_exception py_str
         (U "cual es el tipo de cambio hoy") [])
  = [join (U "/") [BCRPConfig.BASE_URL;
                   join (U "-") [SeriesCodes.TIPO_CAMBIO_PROMEDIO;
                                 SeriesCodes.TIPO_CAMBIO_COMPRA;
                                 SeriesCodes.TIPO_CAMBIO_VENTA];
                   U "json"]] /\
  (forall (text : str) (d p : list (str * value)) (earlier vs : list value),
     http 0 (series_url tipo_cambio_codes) = Good text (VDict d) ->
     dict_lookup (U "periods") d = Some (VList (earlier ++ [VDict p])) ->
     dict_lookup (U "values") p = Some (VList vs) ->
     fst (get_tipo_cambio http json_error_is_request_exception [])
     = Ok (VDict [(U "fecha", match dict_lookup (U "name") p with
                              | Some x => x
                              | None => VNone
                              end);
                  (U "promedio", nth 0 vs VNone);
                  (U "compra", nth 1 vs VNone);
                  (U "venta", nth 2 vs VNone)])).
Proof.
  split; [exact exchange_rate_query_detected | split].
  - unfold get_economic_context. rewrite exchange_rate_query_detected.
    replace (U "tipo_cambio") with (116%N :: U "ipo_cambio")
      by (vm_compute; reflexivity).
    cbv iota.
    replace (116%N :: U "ipo_cambio") with (U "tipo_cambio")
      by (vm_compute; reflexivity).
    unfold economic_context_for. cbv zeta. rewrite str_eqb_refl.
    unfold try_except at 1. unfold bind at 1. unfold bind at 1.
    rewrite get_tipo_cambio_eq. cbn [length app].
    match goal with
    | |- context [append_formatted ?f ?x ?d ?ps ?l] =>
        destruct (append_formatted_log x d ps l) as [r Hr]; rewrite Hr
    end.
    destruct r; reflexivity.
  - intros text d p earlier vs Hh Hp Hv.
    rewrite get_tipo_cambio_eq. cbn [length fst]. rewrite Hh.
    cbn [series_result res_bind].
    now rewrite (triplet_of_periods _ _ _ d p earlier vs Hp Hv).
Qed.

Lemma first_query_type_nonempty (m q : str) :
  first_query_type query_patterns m = Some q ->
  q = U "tipo_cambio" \/ q = U "tasas" \/ q = U "inflacion" \/ q = U "general".
Proof.
  intros H. apply first_query_type_in in H.
  unfold query_patterns in H. cbn [map fst In] in H.
  intuition.
Qed.

Lemma failed_series_result (o : HttpOutcome) :
  fetch_failed o ->
  series_result json_error_is_request_exception o = Raise JSONDecodeError \/
  exists e, series_result json_error_is_request_exception o = Ok (error_dict e).
Proof.
  destruct o; cbn; intros H; try contradiction;
    try (right; eexists; reflexivity).
  destruct json_error_is_request_exception;
    [right; eexists; reflexivity | now left].
Qed.

Lemma error_dict_triplet (k0 k1 k2 e : str) :
  triplet_of k0 k1 k2 (error_dict e) = Ok VNone.
Proof. vm_compute. reflexivity. Qed.

Lemma error_dict_latest (e : str) :
  latest_value_of SeriesCodes.INFLACION_ANUAL (error_dict e) = Ok VNone.
Proof. vm_compute. reflexivity. Qed.

Hypothesis all_fail : forall n url, fetch_failed (http n url).

Lemma get_tipo_cambio_failed (log : list str) :
  get_tipo_cambio http json_error_is_request_exception log
  = (Ok VNone, log ++ [series_url tipo_cambio_codes]).
Proof.
  rewrite get_tipo_cambio_eq.
  destruct (failed_series_result _ (all_fail (length log)
              (series_url tipo_cambio_codes))) as [E | [e E]]; rewrite E;
    cbn [res_bind]; [reflexivity | now rewrite error_dict_triplet].
Qed.

Lemma get_tasas_interes_failed (log : list str) :
  get_tasas_interes http json_error_is_request_exception log
  = (Ok VNone, log ++ [series_url tasas_codes]).
Proof.
  rewrite get_tasas_interes_eq.
  destruct (failed_series_result _ (all_fail (length log)
              (series_url tasas_codes))) as [E | [e E]]; rewrite E;
    cbn [res_bind]; [reflexivity | now rewrite error_dict_triplet].
Qed.

Lemma get_inflacion_failed (log : list str) :
  get_inflacion http json_error_is_request_exception log
  = (Ok VNone, log ++ [series_url [SeriesCodes.INFLACION_ANUAL]]).
Proof.
  unfold get_inflacion. rewrite get_latest_value_eq.
  destruct (failed_series_result _ (all_fail (length log)
              (series_url [SeriesCodes.INFLACION_ANUAL]))) as [E | [e E]];
    rewrite E; cbn [res_bind]; [reflexivity | now rewrite error_dict_latest].
Qed.

(** C2, on the code.  When an intent matches and every fetch fails, no
    exception escapes, but the context returned is not the empty string: it is
    the header and the source line with no data between them.  The failure is
    already absorbed by the client methods (they return [None]), so the
    [except] branch that returns [""] is not the one taken. *)
Theorem failed_fetch_context_is_header_and_footer :
  forall (message q : str) (log : list str),
    detect_economic_query message = Some q ->
    exists log',
      get_economic_context http json_error_is_request_exception py_str message log
      = (Ok (join NL [context_header; context_footer]), log') /\
      join NL [context_header; context_footer] <> [].
Proof.
  intros message q log H.
  assert (Hne : join NL [context_header; context_footer] <> [])
    by (vm_compute; discriminate).
  unfold get_economic_context. rewrite H.
  assert (Hq : q <> []).
  { destruct (first_query_type_nonempty _ _ H) as [-> | [-> | [-> | ->]]];
      vm_compute; discriminate. }
  destruct q as [|c q']; [congruence|]. set (q := c :: q') in *.
  assert (E : economic_context_for http json_error_is_request_exception py_str q
                log = (Ok (join NL [context_header; context_footer]),
                       snd (economic_context_for http
                              json_error_is_request_exception py_str q log))).
  { destruct (first_query_type_nonempty _ _ H) as [-> | [-> | [-> | ->]]];
      unfold economic_context_for; cbv zeta; eval_str_eqb; cbv iota;
      unfold try_except, bind;
      rewrite ?get_tipo_cambio_failed, ?get_tasas_interes_failed,
        ?get_inflacion_failed;
      unfold append_formatted; cbn [truthy]; cbv iota; unfold ret;
      reflexivity. }
  eexists. split; [exact E | exact Hne].
Qed.

End EconomicContext.

(** With the service unreachable, "precio del dolar hoy" still gets a context:
    the header and the source line. *)
Lemma failed_fetch_context_witness :
  exists log',
    get_economic_context (fun _ _ => RequestFailed (U "Connection timed out"))
      true (fun _ => []) (U "precio del dolar hoy") []
    = (Ok (join NL [context_header; context_footer]), log') /\
    join NL [context_header; context_footer] <> [].
Proof.
  apply (@failed_fetch_context_is_header_and_footer Latin1
           (fun _ _ => RequestFailed (U "Connection timed out")) true
           (fun _ => []) (fun _ _ => I)
           (U "precio del dolar hoy") (U "tipo_cambio") []).
  vm_compute. reflexivity.
Defined.

(** ** The turn *)

Section Turn.
Context {UD : Unicode}.

(** X1. A turn stopped at the input screen leaves the session as it was. *)
Lemma blocked_input_keeps_session (session : Session) (message : str) (draw : nat) :
  fst (fst (check_input (sanitize_financial_data message))) = true ->
  snd (on_message session message draw) = session.
Proof.
  unfold on_message.
  destruct (check_input (sanitize_financial_data message)) as [[b t] d].
  cbn [fst]. intros ->. reflexivity.
Qed.

(** Past the input screen, the memory after the turn is the one the agent
    left, whether the output is blocked or not: [on_message] neither adds to
    it nor takes anything back. *)
Lemma passed_input_memory_is_agents (session : Session) (message : str) (draw : nat) :
  fst (fst (check_input (sanitize_financial_data message))) = false ->
  memory (snd (on_message session message draw))
  = snd (agent session (memory session) (sanitize_financial_data message)).
Proof.
  unfold on_message.
  destruct (check_input (sanitize_financial_data message)) as [[b t] d].
  cbn [fst]. intros ->.
  destruct (agent session (memory session) (sanitize_financial_data message))
    as [chunks memory'].
  destruct (check_output (concat chunks)) as [[b' t'] d'].
  destruct b'; reflexivity.
Qed.

(** C1, on the code.  With the agent [on_chat_start] builds, a turn whose
    output is blocked ends with the sanitized user message and the blocked
    response appended to the session history: the history is not the one
    before the turn. *)
Theorem blocked_output_turn_is_recorded :
  forall (chain : Chain) (mem : ChatMessageHistory) (message : str) (draw : nat),
    fst (fst (check_input (sanitize_financial_data message))) = false ->
    fst (fst (check_output
                (concat (chain mem (sanitize_financial_data message))))) = true ->
    let session := {| memory := mem; agent := agent (on_chat_start chain) |} in
    memory (snd (on_message session message draw))
    = mem ++ [ {| role := Human; content := sanitize_financial_data message |};
               {| role := AI;
                  content := concat (chain mem (sanitize_financial_data message)) |} ]
    /\ memory (snd (on_message session message draw)) <> mem.
Proof.
  intros chain mem message draw Hin Hout session.
  assert (E : memory (snd (on_message session message draw))
              = mem ++ [ {| role := Human;
                            content := sanitize_financial_data message |};
                         {| role := AI;
                            content := concat (chain mem
                                         (sanitize_financial_data message)) |} ]).
  { rewrite passed_input_memory_is_agents by exact Hin. reflexivity. }
  split; [exact E|]. rewrite E. intros H.
  apply (f_equal (@length ChatMessage)) in H. rewrite length_app in H.
  cbn [length] in H. lia.
Qed.

End Turn.

(** A blocked input: the session is the one the turn started with. *)
Lemma blocked_input_keeps_session_example :
  fst (fst (check_input (sanitize_financial_data (U "quiero HACKEAR una cuenta"))))
  = true /\
  snd (on_message (on_chat_start (fun _ _ => [U "Claro"]))
         (U "quiero HACKEAR una cuenta") 0)
  = on_chat_start (fun _ _ => [U "Claro"]).
Proof.
  assert (H : fst (fst (check_input (sanitize_financial_data
                                       (U "quiero HACKEAR una cuenta")))) = true)
    by (vm_compute; reflexivity).
  split; [exact H|].
  exact (@blocked_input_keeps_session Latin1
           (on_chat_start (fun _ _ => [U "Claro"]))
           (U "quiero HACKEAR una cuenta") 0 H).
Defined.

(** The user says "hola", the model answers "No sé": the answer is blocked
    (keyword "no sé") and both messages are in the history afterwards. *)
Lemma blocked_output_turn_is_recorded_witness :
  memory (snd (on_message
                 {| memory := [];
                    agent := agent (on_chat_start (fun _ _ => [U "No "; U "sé"])) |}
                 (U "hola") 0))
  = [] ++ [ {| role := Human; content := sanitize_financial_data (U "hola") |};
            {| role := AI;
               content := concat [U "No "; U "sé"] |} ]
  /\ memory (snd (on_message
                 {| memory := [];
                    agent := agent (on_chat_start (fun _ _ => [U "No "; U "sé"])) |}
                 (U "hola") 0)) <> [].
Proof.
  apply (@blocked_output_turn_is_recorded Latin1
           (fun _ _ => [U "No "; U "sé"]) [] (U "hola") 0).
  - vm_compute. reflexivity.
  - vm_compute. reflexivity.
Defined.

(** ** The matcher *)

Section Matcher.
Context {UD : Unicode}.

Lemma rep_sound (icase : bool) (cs : list atom) :
  forall (ah : str) (min : nat) (max : option nat) (bh : list char)
         (cp : list (nat * str)) (st' : mstate),
    In st' (rep icase cs min max bh ah cp) ->
    exists w, ah = w ++ ahead st' /\ behind st' = rev w ++ bh /\
      caps st' = cp /\
      Forall (fun c => in_set icase cs c = true) w /\ min <= length w /\
      match max with
      | Some m => length w <= m
      | None => True
      end.
Proof.
  induction ah as [|c rest IH]; intros min max bh cp st' H; cbn [rep] in H.
  - destruct min; cbn in H; [|contradiction].
    destruct H as [<- | []]. exists []. cbn.
    repeat split; auto. destruct max; [lia | exact I].
  - apply in_app_or in H as [H | H].
    + destruct (in_set icase cs c) eqn:Ec; [|contradiction].
      destruct (can_take max) eqn:Em; [|contradiction]. cbn [andb] in H.
      destruct (IH _ _ _ _ _ H) as [w [H1 [H2 [H3 [H4 [H5 H6]]]]]].
      exists (c :: w). cbn [app rev length]. rewrite <- app_assoc.
      repeat split; auto.
      * now rewrite H1 at 1.
      * lia.
      * destruct max as [[|m]|]; cbn in *; try discriminate; auto. lia.
    + destruct min; cbn in H; [|contradiction].
      destruct H as [<- | []]. exists []. cbn.
      repeat split; auto. destruct max; [lia | exact I].
Qed.

(** Every success of the matcher consumed a word of the pattern from the
    text ahead. *)
Lemma run_sound (icase : bool) :
  forall (r : regex) (st st' : mstate),
    In st' (run icase r st) ->
    exists w, ahead st = w ++ ahead st' /\ behind st' = rev w ++ behind st /\
      matches icase r w.
Proof.
  induction r as [|cs|cs min max| |r1 IH1 r2 IH2|r1 IH1 r2 IH2|n r1 IH1];
    intros st st' H; cbn [run] in H.
  - destruct H as [<- | []]. now exists [].
  - destruct (ahead st) as [|c rest] eqn:Ea; [contradiction|].
    destruct (in_set icase cs c) eqn:Ec; [|contradiction].
    destruct H as [<- | []]. exists [c]. cbn. repeat split; auto.
    now exists c.
  - destruct (rep_sound _ _ _ _ _ _ _ _ H) as [w [H1 [H2 [H3 [H4 [H5 H6]]]]]].
    exists w. cbn. repeat split; auto.
  - destruct (at_boundary st); [|contradiction].
    destruct H as [<- | []]. now exists [].
  - apply in_flat_map in H as [mid [Hm H]].
    destruct (IH1 _ _ Hm) as [w1 [A1 [B1 M1]]].
    destruct (IH2 _ _ H) as [w2 [A2 [B2 M2]]].
    exists (w1 ++ w2). rewrite A1, A2, B2, B1, rev_app_distr, <- !app_assoc.
    repeat split. cbn. now exists w1, w2.
  - apply in_app_or in H as [H | H].
    + destruct (IH1 _ _ H) as [w [A [B M]]]. exists w. cbn. auto.
    + destruct (IH2 _ _ H) as [w [A [B M]]]. exists w. cbn. auto.
  - apply in_map_iff in H as [mid [<- Hm]].
    destruct (IH1 _ _ Hm) as [w [A [B M]]]. exists w. cbn. auto.
Qed.

(** Where no part of the text is a word of the pattern, [re.sub] changes
    nothing. *)
Lemma sub_scan_no_match (icase : bool) (r : regex) (tpl : list piece) :
  forall (ah : str) (bh : list char),
    (forall a w b, ah = a ++ w ++ b -> ~ matches icase r w) ->
    sub_scan icase r tpl 0 bh ah = ah.
Proof.
  assert (E : forall ah bh,
             (forall a w b, ah = a ++ w ++ b -> ~ matches icase r w) ->
             run icase r (MState bh ah []) = []).
  { intros ah bh H. destruct (run icase r (MState bh ah [])) as [|st' l] eqn:Er;
      [reflexivity|].
    destruct (run_sound icase r (MState bh ah []) st') as [w [A [B M]]];
      [rewrite Er; now left|].
    cbn in A. exfalso. apply (H [] w (ahead st')); auto. }
  induction ah as [|c rest IH]; intros bh H; cbn [sub_scan]; rewrite (E _ _ H).
  - reflexivity.
  - f_equal. apply IH. intros a w b Hs. apply (H (c :: a) w b).
    cbn. now rewrite Hs.
Qed.

Lemma re_sub_no_match (icase : bool) (r : regex) (tpl : list piece) (s : str) :
  (forall a w b, s = a ++ w ++ b -> ~ matches icase r w) ->
  re_sub icase r tpl s = s.
Proof. apply sub_scan_no_match. Qed.

(** *** Digits in a match *)

Lemma digit_set (icase : bool) (cs : list atom) (c : char) :
  forallb is_digit_atom cs = true -> in_set icase cs c = true ->
  isdecimal c = true.
Proof.
  unfold in_set. induction cs as [|a cs IH]; cbn; [discriminate|].
  intros H1 H2. apply andb_true_iff in H1 as [Ha Hcs].
  apply orb_true_iff in H2 as [H2 | H2]; [|now apply IH].
  destruct a; try discriminate. exact H2.
Qed.

Lemma ndigits_app (a b : str) : ndigits (a ++ b) = ndigits a + ndigits b.
Proof. unfold ndigits. now rewrite filter_app, length_app. Qed.

Lemma ndigits_all (w : str) :
  Forall (fun c => isdecimal c = true) w -> ndigits w = length w.
Proof.
  unfold ndigits. induction 1 as [|c w Hc Hw IH]; cbn; [reflexivity|].
  rewrite Hc. cbn. now rewrite IH.
Qed.

Lemma matches_min_digits (icase : bool) :
  forall (r : regex) (w : str), matches icase r w -> min_digits r <= ndigits w.
Proof.
  induction r as [|cs|cs min max| |r1 IH1 r2 IH2|r1 IH1 r2 IH2|n r1 IH1];
    intros w H; cbn in *.
  - lia.
  - destruct H as [c [-> Hc]]. destruct (forallb is_digit_atom cs) eqn:E; [|lia].
    unfold ndigits. cbn. now rewrite (digit_set _ _ _ E Hc).
  - destruct H as [Hw [Hmin _]].
    destruct (forallb is_digit_atom cs) eqn:E; [|lia].
    rewrite ndigits_all; [exact Hmin|].
    eapply Forall_impl; [|exact Hw]. intros c Hc. now apply (digit_set icase cs).
  - lia.
  - destruct H as [w1 [w2 [-> [H1 H2]]]]. rewrite ndigits_app.
    specialize (IH1 _ H1). specialize (IH2 _ H2). lia.
  - destruct H as [H | H]; [specialize (IH1 _ H) | specialize (IH2 _ H)]; lia.
  - now apply IH1.
Qed.

Lemma digits_at_all (n : nat) :
  forall d rest : str,
    Forall (fun c => isdecimal c = true) d -> n <= length d ->
    digits_at n (d ++ rest) = true.
Proof.
  induction n as [|n IH]; intros d rest Hd Hn; [reflexivity|].
  destruct Hd as [|c d Hc Hd]; cbn in *; [lia|].
  rewrite Hc. cbn. apply IH; [exact Hd | lia].
Qed.

Lemma has_digit_run_app_r (n : nat) (a b : str) :
  has_digit_run n b = true -> has_digit_run n (a ++ b) = true.
Proof.
  intros H. induction a as [|c a IH]; cbn [app]; [exact H|].
  cbn [has_digit_run]. rewrite IH. apply orb_true_r.
Qed.

Lemma digits_at_app_l (n : nat) :
  forall a b : str, digits_at n a = true -> digits_at n (a ++ b) = true.
Proof.
  induction n as [|n IH]; intros a b H; [reflexivity|].
  destruct a as [|c a]; cbn in *; [discriminate|].
  apply andb_true_iff in H as [Hc H]. rewrite Hc. cbn. now apply IH.
Qed.

Lemma has_digit_run_app_l (n : nat) (a b : str) :
  has_digit_run n a = true -> has_digit_run n (a ++ b) = true.
Proof.
  induction a as [|c a IH]; cbn [app has_digit_run]; intros H.
  - rewrite orb_false_r in H. destruct n; [|discriminate].
    destruct b; reflexivity.
  - apply orb_true_iff in H as [H | H].
    + change (c :: a ++ b) with ((c :: a) ++ b).
      now rewrite (digits_at_app_l n (c :: a) b H).
    + rewrite (IH H). apply orb_true_r.
Qed.

Lemma has_digit_run_le (n m : nat) (s : str) :
  m <= n -> has_digit_run n s = true -> has_digit_run m s = true.
Proof.
  assert (D : forall n m s, m <= n -> digits_at n s = true -> digits_at m s = true).
  { clear. induction n as [|n IH]; intros m s Hm H.
    - now replace m with 0 by lia.
    - destruct m as [|m]; [reflexivity|].
      destruct s as [|c s]; cbn in *; [discriminate|].
      apply andb_true_iff in H as [Hc H]. rewrite Hc. cbn.
      apply (IH m s); [lia | exact H]. }
  intros Hm. induction s as [|c s IH]; cbn [has_digit_run]; intros H.
  - rewrite orb_false_r in *. now apply (D n m).
  - apply orb_true_iff in H as [H | H].
    + now rewrite (D n m _ Hm H).
    + rewrite (IH H). apply orb_true_r.
Qed.

Lemma matches_min_run (icase : bool) :
  forall (r : regex) (w : str),
    matches icase r w -> has_digit_run (min_run r) w = true.
Proof.
  assert (Z0 : forall s, has_digit_run 0 s = true) by (intros [|c s]; reflexivity).
  induction r as [|cs|cs min max| |r1 IH1 r2 IH2|r1 IH1 r2 IH2|n r1 IH1];
    intros w H; cbn [min_run matches] in *.
  - apply Z0.
  - destruct H as [c [-> Hc]]. destruct (forallb is_digit_atom cs) eqn:E;
      [|apply Z0].
    cbn. now rewrite (digit_set _ _ _ E Hc).
  - destruct H as [Hw [Hmin _]].
    destruct (forallb is_digit_atom cs) eqn:E; [|apply Z0].
    assert (Hd : Forall (fun c => isdecimal c = true) w).
    { eapply Forall_impl; [|exact Hw]. intros c Hc.
      now apply (digit_set icase cs). }
    destruct w as [|c w]; cbn [has_digit_run].
    + cbn in Hmin. now replace min with 0 by lia.
    + pose proof (digits_at_all min (c :: w) [] Hd Hmin) as Hx.
      rewrite app_nil_r in Hx. now rewrite Hx.
  - apply Z0.
  - destruct H as [w1 [w2 [-> [H1 H2]]]].
    destruct (Nat.max_spec (min_run r1) (min_run r2)) as [[_ ->] | [_ ->]].
    + apply has_digit_run_app_r. now apply IH2.
    + apply has_digit_run_app_l. now apply IH1.
  - destruct H as [H | H].
    + apply (has_digit_run_le (min_run r1)); [lia | now apply IH1].
    + apply (has_digit_run_le (min_run r2)); [lia | now apply IH2].
  - now apply IH1.
Qed.

(** A text with no run of [min_run r] digits, or with fewer than
    [min_digits r] digits, has nothing for the pattern [r]. *)
Lemma re_sub_without_run (icase : bool) (r : regex) (tpl : list piece) (s : str) :
  has_digit_run (min_run r) s = false -> re_sub icase r tpl s = s.
Proof.
  intros H. apply re_sub_no_match. intros a w b -> M.
  apply matches_min_run in M.
  rewrite (has_digit_run_app_r _ a _ (has_digit_run_app_l _ w b M)) in H.
  discriminate.
Qed.

Lemma re_sub_few_digits (icase : bool) (r : regex) (tpl : list piece) (s : str) :
  ndigits s < min_digits r -> re_sub icase r tpl s = s.
Proof.
  intros H. apply re_sub_no_match. intros a w b -> M.
  apply matches_min_digits in M. rewrite !ndigits_app in H. lia.
Qed.

End Matcher.

(** ** The sanitizer *)

Section Sanitizer.
Context {UD : Unicode}.

Lemma card_pattern_measures :
  min_run card_pattern = 4 /\ min_digits card_pattern = 16.
Proof. split; vm_compute; reflexivity. Qed.

Lemma account_pattern_measures :
  min_run account_pattern = 10 /\ min_digits account_pattern = 10.
Proof. split; vm_compute; reflexivity. Qed.

Lemma cvv_pattern_measures :
  min_run cvv_pattern = 3 /\ min_digits cvv_pattern = 3.
Proof. split; vm_compute; reflexivity. Qed.

Lemma no_longer_run (n m : nat) (s : str) :
  m <= n -> has_digit_run m s = false -> has_digit_run n s = false.
Proof.
  intros Hm H. destruct (has_digit_run n s) eqn:E; [|reflexivity].
  now rewrite (has_digit_run_le n m s Hm E) in H.
Qed.

(** A text with no three decimal digits in a row is left as it is. *)
Lemma sanitize_without_digit_runs (s : str) :
  has_digit_run 3 s = false -> sanitize_financial_data s = s.
Proof.
  intros H. unfold sanitize_financial_data.
  rewrite (re_sub_without_run false card_pattern); cycle 1.
  { rewrite (proj1 card_pattern_measures). apply (no_longer_run 4 3); [lia | exact H]. }
  rewrite (re_sub_without_run false account_pattern); cycle 1.
  { rewrite (proj1 account_pattern_measures).
    apply (no_longer_run 10 3); [lia | exact H]. }
  apply re_sub_without_run. now rewrite (proj1 cvv_pattern_measures).
Qed.

End Sanitizer.

(** The card number of "mi tarjeta es 4111 1111 1111 1111" is masked, and no
    digit is left. *)
Lemma card_number_is_masked :
  sanitize_financial_data (U "mi tarjeta es 4111 1111 1111 1111")
  = U "mi tarjeta es [TARJETA-OCULTA]" /\
  ndigits (sanitize_financial_data (U "mi tarjeta es 4111 1111 1111 1111")) = 0.
Proof. split; vm_compute; reflexivity. Qed.

(** The three mask tokens hold no digit: a pass over them changes nothing. *)
Lemma mask_tokens_are_fixed :
  sanitize_financial_data (U "[TARJETA-OCULTA]") = U "[TARJETA-OCULTA]" /\
  sanitize_financial_data (U "[CUENTA-OCULTA]") = U "[CUENTA-OCULTA]" /\
  sanitize_financial_data (U ": [OCULTO]") = U ": [OCULTO]".
Proof. repeat split; vm_compute; reflexivity. Qed.

(** C5 fails as stated: the sanitizer is not idempotent.  After "cvv " come 21 digits: too long a run for the
    account rule, so the first pass masks only the first four of them as a
    CVV; the 17 left over then start at a word boundary, and the second pass
    masks them as an account number. *)
Lemma sanitize_not_idempotent :
  sanitize_financial_data (U "cvv 123456789012345678901")
  = U "cvv: [OCULTO]56789012345678901" /\
  sanitize_financial_data
    (sanitize_financial_data (U "cvv 123456789012345678901"))
  = U "cvv: [OCULTO][CUENTA-OCULTA]" /\
  sanitize_financial_data
    (sanitize_financial_data (U "cvv 123456789012345678901"))
  <> sanitize_financial_data (U "cvv 123456789012345678901").
Proof.
  repeat split; try (vm_compute; reflexivity).
  vm_compute. discriminate.
Qed.

(** ** The CVV rule on a labelled value *)

Section Engine.
Context {UD : Unicode}.

Lemma lit_cons (p : char) (l : str) :
  lit (p :: l) = Seq (Chars [Lit p]) (lit l).
Proof. reflexivity. Qed.

Lemma is_latin1_cons (c : char) (s : str) :
  is_latin1 (c :: s) = true <-> (c < 256)%N /\ is_latin1 s = true.
Proof.
  unfold is_latin1. cbn [forallb]. rewrite andb_true_iff, N.ltb_lt. tauto.
Qed.

Lemma in_set_lit (p c : char) :
  (p < 256)%N -> (c < 256)%N ->
  in_set true [Lit p] c = char_eqb (lower1 p) (lower1 c).
Proof.
  intros Hp Hc. unfold in_set. cbn [existsb atom_match].
  now rewrite orb_false_r, casematch_latin1.
Qed.

(** The greedy repetition takes a whole run first when nothing more can be
    taken after it. *)
Lemma rep_greedy_head (icase : bool) (cs : list atom) :
  forall (w rest : str) (min : nat) (max : option nat) (bh : list char)
         (cp : list (nat * str)),
    Forall (fun c => in_set icase cs c = true) w ->
    min <= length w ->
    match max with Some m => length w <= m | None => True end ->
    match rest with
    | c :: _ => in_set icase cs c = false \/ max = Some (length w)
    | [] => True
    end ->
    exists tail,
      rep icase cs min max bh (w ++ rest) cp
      = MState (rev w ++ bh) rest cp :: tail.
Proof.
  induction w as [|c w IH]; intros rest min max bh cp Hw Hmin Hmax Hstop.
  - cbn in Hmin. replace min with 0 by lia. cbn [app rev].
    destruct rest as [|c r]; cbn [rep].
    + now exists [].
    + destruct Hstop as [-> | ->]; cbn [length can_take andb app].
      * now exists [].
      * rewrite andb_false_r. now exists [].
  - inversion Hw as [|c' w' Hc Hw']; subst. cbn [app rep]. rewrite Hc.
    assert (Ht : can_take max = true).
    { destruct max as [[|m]|]; cbn in *; try reflexivity. lia. }
    rewrite Ht. cbn [andb].
    destruct (IH rest (pred min) (option_map pred max) (c :: bh) cp Hw')
      as [tail Ht'].
    + cbn in Hmin. lia.
    + destruct max as [m|]; cbn in *; [lia | exact I].
    + destruct rest as [|c2 r]; [exact I|].
      destruct Hstop as [H | ->]; [now left | right]. reflexivity.
    + rewrite Ht'. cbn [rev]. rewrite <- app_assoc. cbn [app].
      eexists. reflexivity.
Qed.




(** *** The scan *)

Lemma sub_scan_skip (icase : bool) (r : regex) (tpl : list piece) :
  forall (w rest : str) (bh : list char),
    sub_scan icase r tpl (length w) bh (w ++ rest)
    = sub_scan icase r tpl 0 (rev w ++ bh) rest.
Proof.
  induction w as [|c w IH]; intros rest bh; [reflexivity|].
  cbn [length app sub_scan rev]. rewrite IH. now rewrite <- app_assoc.
Qed.

(** A non-empty match at the cursor is replaced, and the scan resumes after
    it. *)
Lemma sub_scan_match (icase : bool) (r : regex) (tpl : list piece)
    (m rest : str) (bh : list char) (st' : mstate) (tail : list mstate) :
  m <> [] ->
  run icase r (MState bh (m ++ rest) []) = st' :: tail ->
  behind st' = rev m ++ bh ->
  sub_scan icase r tpl 0 bh (m ++ rest)
  = expand tpl st' ++ sub_scan icase r tpl 0 (rev m ++ bh) rest.
Proof.
  intros Hm Hr Hb. destruct m as [|c m]; [congruence|].
  cbn [app]. cbn [sub_scan]. cbn [app] in Hr. rewrite Hr.
  unfold width. rewrite Hb. rewrite length_app, length_rev. cbn [length].
  replace (S (length m) + length bh - length bh) with (S (length m)) by lia.
  cbn [pred]. f_equal. rewrite sub_scan_skip. cbn [rev].
  now rewrite <- app_assoc.
Qed.

(** Where no match starts inside a prefix, the prefix is copied. *)
Lemma sub_scan_prefix (icase : bool) (r : regex) (tpl : list piece) (rest : str) :
  forall (pre : str) (bh : list char),
    (forall u v, pre = u ++ v -> v <> [] ->
                 run icase r (MState (rev u ++ bh) (v ++ rest) []) = []) ->
    sub_scan icase r tpl 0 bh (pre ++ rest)
    = pre ++ sub_scan icase r tpl 0 (rev pre ++ bh) rest.
Proof.
  induction pre as [|c pre IH]; intros bh H; [reflexivity|].
  cbn [app]. cbn [sub_scan].
  assert (H0 : run icase r (MState bh (c :: pre ++ rest) []) = []).
  { apply (H [] (c :: pre) eq_refl). discriminate. }
  rewrite H0. f_equal. rewrite IH.
  - cbn [rev]. now rewrite <- app_assoc.
  - intros u v -> Hv. specialize (H (c :: u) v eq_refl Hv).
    cbn [rev] in H. now rewrite <- app_assoc in H.
Qed.

Lemma sub_scan_few_digits (icase : bool) (r : regex) (tpl : list piece)
    (s : str) (bh : list char) :
  ndigits s < min_digits r -> sub_scan icase r tpl 0 bh s = s.
Proof.
  intros H. apply sub_scan_no_match. intros a w b -> M.
  apply matches_min_digits in M. rewrite !ndigits_app in H. lia.
Qed.

End Engine.

Section CvvRule.
Context {UD : Unicode}.

Lemma in_set_seps (c : char) :
  in_set true seps c = isspace c || char_eqb 58%N c.
Proof.
  unfold seps, set. replace (U ":") with [58%N] by (vm_compute; reflexivity).
  unfold in_set. cbn [map existsb atom_match].
  rewrite casematch_symbol by (try reflexivity; lia).
  now rewrite orb_false_r.
Qed.

Lemma in_set_digit (icase : bool) (c : char) :
  in_set icase [Digit] c = isdecimal c.
Proof. unfold in_set. cbn. apply orb_false_r. Qed.





(** A character that matches a label letter is no separator and no digit. *)
Lemma letter_match (p y : char) :
  (p < 256)%N -> isspace1 p = false -> isdecimal1 p = false ->
  char_eqb (lower1 p) 58%N = false ->
  in_set true [Lit p] y = true ->
  in_set true seps y = false /\ isdecimal y = false.
Proof.
  intros Hp Hs Hd Hc H. unfold in_set in H. cbn [existsb atom_match] in H.
  rewrite orb_false_r in H.
  destruct (@casematch_class _ p y Hp H) as [Es Ed].
  rewrite (@isspace_latin1 _ p Hp) in Es.
  rewrite (@isdecimal_latin1 _ p Hp) in Ed.
  split; [|congruence]. rewrite in_set_seps, Es, Hs. cbn [orb].
  destruct (char_eqb 58%N y) eqn:E; [|reflexivity].
  apply char_eqb_eq in E. subst y.
  rewrite casematch_latin1 in H by (try exact Hp; lia).
  change (lower1 58%N) with 58%N in H. congruence.
Qed.

Lemma matches_lit_spells :
  forall l w : str, matches true (lit l) w -> spells l w.
Proof.
  induction l as [|p l IH]; intros w H.
  - cbn in H. subst. constructor.
  - rewrite lit_cons in H. cbn [matches] in H.
    destruct H as [w1 [w2 [-> [[c [-> Hc]] H2]]]]. cbn [app].
    constructor; [exact Hc | now apply IH].
Qed.


Lemma label_facts (label : str) :
  In label cvv_labels ->
  is_latin1 label = true /\ label <> [] /\
  Forall (fun p => (p < 256)%N /\ isspace1 p = false /\ isdecimal1 p = false /\
                   char_eqb (lower1 p) 58%N = false) label.
Proof.
  intros Hin.
  assert (A : label_letters_ok = true) by (vm_compute; reflexivity).
  unfold label_letters_ok in A. rewrite forallb_forall in A.
  specialize (A label Hin). apply andb_true_iff in A as [A B].
  assert (F : Forall (fun p => (p < 256)%N /\ isspace1 p = false /\
                        isdecimal1 p = false /\
                        char_eqb (lower1 p) 58%N = false) label).
  { apply Forall_forall. intros p Hp. rewrite forallb_forall in A.
    specialize (A p Hp).
    apply andb_true_iff in A as [A A4]. apply andb_true_iff in A as [A A3].
    apply andb_true_iff in A as [A1 A2].
    apply N.ltb_lt in A1. apply negb_true_iff in A2, A3, A4. auto. }
  repeat split; [| |exact F].
  - unfold is_latin1. apply forallb_forall. intros p Hp.
    rewrite Forall_forall in F. apply N.ltb_lt. now apply F.
  - intros ->. discriminate.
Qed.

Lemma spells_facts (label w : str) :
  In label cvv_labels -> spells label w ->
  w <> [] /\ Forall (fun y => in_set true seps y = false) w /\
  Forall (fun y => isdecimal y = false) w.
Proof.
  intros Hin Hs. destruct (label_facts label Hin) as [_ [Hne F]].
  split.
  - intros ->. inversion Hs. congruence.
  - clear Hne Hin. induction Hs as [|p y l w Hpy Hs IH]; [split; constructor|].
    inversion F as [|p' l' [Hp [H1 [H2 H3]]] F']; subst.
    destruct (letter_match p y Hp H1 H2 H3 Hpy) as [Ha Hb].
    destruct (IH F') as [IH1 IH2]. split; constructor; auto.
Qed.

(** *** Two list facts *)

Lemma last_of_app {A : Type} (x l : list A) (x0 : list A) (a : A) :
  l <> [] -> x ++ l = x0 ++ [a] -> exists l0, l = l0 ++ [a].
Proof.
  intros Hl H. destruct (exists_last Hl) as [l0 [b ->]].
  rewrite app_assoc in H. apply app_inj_tail in H as [_ ->]. now exists l0.
Qed.


(** In a text whose only digits are the block [D], a part that ends in a
    non-digit and is followed by a digit ends where [D] starts. *)
Lemma align_digits (A D post X X0 wd rest' : str) (y d : char) (wd' : str) :
  Forall (fun c => isdecimal c = false) A ->
  Forall (fun c => isdecimal c = true) D ->
  Forall (fun c => isdecimal c = false) post ->
  X = X0 ++ [y] -> isdecimal y = false ->
  wd = d :: wd' -> isdecimal d = true ->
  A ++ D ++ post = X ++ wd ++ rest' ->
  X = A.
Proof.
  intros HA HD Hpost HX Hy Hwd Hd H.
  destruct (app_eq_app _ _ _ _ H) as [l [[E1 E2] | [E1 E2]]].
  - destruct l as [|c l]; [now rewrite app_nil_r in E1|].
    exfalso. rewrite Hwd in E2. cbn in E2. injection E2 as <- _.
    rewrite E1 in HA. apply Forall_app in HA as [_ HA]. inversion HA. congruence.
  - destruct l as [|c l]; [now rewrite app_nil_r in E1|].
    exfalso. assert (Hl : c :: l <> []) by discriminate.
    rewrite HX in E1. symmetry in E1.
    destruct (last_of_app A (c :: l) X0 y Hl E1) as [l0 El].
    rewrite El, Hwd in E2.
    destruct (app_eq_app _ _ _ _ E2) as [l2 [[F1 F2] | [F1 F2]]].
    + rewrite F1 in HD. apply Forall_app in HD as [HD _].
      apply Forall_app in HD as [_ HD]. inversion HD. congruence.
    + rewrite F2 in Hpost. apply Forall_app in Hpost as [_ Hpost].
      inversion Hpost. congruence.
Qed.

End CvvRule.

Section CvvMask.
Context {UD : Unicode}.

Lemma consumed_eq (w : str) (bh : list char) (a a' : str)
    (c c' : list (nat * str)) :
  consumed (MState bh a c) (MState (rev w ++ bh) a' c') = w.
Proof.
  unfold consumed. cbn [behind]. rewrite length_app.
  replace (length (rev w) + length bh - length bh) with (length (rev w) + 0)
    by lia.
  now rewrite firstn_app_2, firstn_O, app_nil_r, rev_involutive.
Qed.

Lemma ndigits_none (s : str) :
  Forall (fun c => isdecimal c = false) s -> ndigits s = 0.
Proof.
  unfold ndigits. induction 1 as [|c s Hc Hs IH]; cbn; [reflexivity|].
  now rewrite Hc.
Qed.






End CvvMask.



Lemma exchange_rate_query_witness :
  fst (get_tipo_cambio (fun _ _ => Good [] sample_response) true [])
  = Ok (VDict [(U "fecha", VStr (U "02.Oct.25"));
               (U "promedio", VStr (U "3.75"));
               (U "compra", VStr (U "3.74"));
               (U "venta", VStr (U "3.76"))]).
Proof.
  pose proof (proj2 (proj2 (@exchange_rate_query_batched_by_position Latin1
                (fun _ _ => Good [] sample_response) true (fun _ => [])))) as H.
  specialize (H []
    [(U "config",
      VDict [(U "series", VList [VDict [(U "name", VStr (U "venta"))];
                                 VDict [(U "name", VStr (U "compra"))];
                                 VDict [(U "name", VStr (U "promedio"))]])]);
     (U "periods",
      VList [VDict [(U "name", VStr (U "01.Oct.25"));
                    (U "values", VList [VStr (U "3.70"); VStr (U "3.69");
                                        VStr (U "3.71")])];
             VDict [(U "name", VStr (U "02.Oct.25"));
                    (U "values", VList [VStr (U "3.75"); VStr (U "3.74");
                                        VStr (U "3.76")])]])]
    [(U "name", VStr (U "02.Oct.25"));
     (U "values", VList [VStr (U "3.75"); VStr (U "3.74"); VStr (U "3.76")])]
    [VDict [(U "name", VStr (U "01.Oct.25"));
            (U "values", VList [VStr (U "3.70"); VStr (U "3.69");
                                VStr (U "3.71")])]]
    [VStr (U "3.75"); VStr (U "3.74"); VStr (U "3.76")]).
  rewrite H.
  - vm_compute. reflexivity.
  - reflexivity.
  - vm_compute. reflexivity.
  - vm_compute. reflexivity.
Defined.

(* ================================================================== *)
(** * Further properties of the code *)
(* ================================================================== *)

(** ** The card and account rules *)

Section DigitRules.
Context {UD : Unicode}.

Lemma rep_exact (icase : bool) (cs : list atom) :
  forall (w rest : str) (bh : list char) (cp : list (nat * str)),
    Forall (fun c => in_set icase cs c = true) w ->
    rep icase cs (length w) (Some (length w)) bh (w ++ rest) cp
    = [MState (rev w ++ bh) rest cp].
Proof.
  induction w as [|c w IH]; intros rest bh cp Hw.
  - cbn [length app rev]. destruct rest as [|c r]; cbn [rep]; [reflexivity|].
    cbn [can_take]. now rewrite andb_false_r.
  - inversion Hw as [|c' w' Hc Hw']; subst. cbn [length app rep]. rewrite Hc.
    cbn [can_take andb pred option_map]. rewrite (IH rest (c :: bh) cp Hw').
    cbn [rev app]. now rewrite <- app_assoc.
Qed.

Lemma rep_needs_head (icase : bool) (cs : list atom) (min : nat)
    (max : option nat) (bh : list char) (ah : str) (cp : list (nat * str)) :
  match ah with
  | c :: _ => in_set icase cs c = false
  | [] => True
  end ->
  rep icase cs (S min) max bh ah cp = [].
Proof.
  intros H. destruct ah as [|c r]; cbn [rep]; [reflexivity|].
  now rewrite H.
Qed.

Lemma rep_opt_skip (icase : bool) (cs : list atom) (bh : list char) (ah : str)
    (cp : list (nat * str)) :
  match ah with
  | c :: _ => in_set icase cs c = false
  | [] => True
  end ->
  rep icase cs 0 (Some 1) bh ah cp = [MState bh ah cp].
Proof.
  intros H. destruct ah as [|c r]; cbn [rep]; [reflexivity|].
  now rewrite H.
Qed.

Lemma rep_opt_take (icase : bool) (cs : list atom) (bh : list char) (c : char)
    (rest : str) (cp : list (nat * str)) :
  in_set icase cs c = true ->
  rep icase cs 0 (Some 1) bh (c :: rest) cp
  = [MState (c :: bh) rest cp; MState bh (c :: rest) cp].
Proof.
  intros H. cbn [rep]. rewrite H. cbn [can_take andb pred option_map].
  pose proof (rep_exact icase cs [] rest (c :: bh) cp (Forall_nil _)) as E.
  cbn [length app rev] in E. now rewrite E.
Qed.

Lemma run_seq_single (icase : bool) (r1 r2 : regex) (st st1 : mstate) :
  run icase r1 st = [st1] ->
  run icase (Seq r1 r2) st = run icase r2 st1.
Proof. intros H. cbn [run]. rewrite H. cbn [flat_map]. apply app_nil_r. Qed.

Lemma run_seq_none (icase : bool) (r1 r2 : regex) (st : mstate) :
  run icase r1 st = [] -> run icase (Seq r1 r2) st = [].
Proof. intros H. cbn [run]. now rewrite H. Qed.

Lemma run_seq_head (icase : bool) (r1 r2 : regex) (st st1 st' : mstate)
    (t1 t' : list mstate) :
  run icase r1 st = st1 :: t1 ->
  run icase r2 st1 = st' :: t' ->
  exists tail, run icase (Seq r1 r2) st = st' :: tail.
Proof.
  intros H1 H2. cbn [run]. rewrite H1. cbn [flat_map]. rewrite H2.
  eexists. reflexivity.
Qed.

Lemma run_seq_bound (icase : bool) (r : regex) (st : mstate) :
  run icase (Bound +++ r) st = if at_boundary st then run icase r st else [].
Proof.
  cbn [run]. destruct (at_boundary st); [|reflexivity].
  cbn [flat_map]. apply app_nil_r.
Qed.

Lemma at_boundary_heads (st : mstate) :
  at_boundary st = xorb (word_at_head (behind st)) (word_at_head (ahead st)).
Proof. reflexivity. Qed.

Lemma digit_is_word (c : char) : isdecimal c = true -> isword c = true.
Proof. intros H. unfold isword. now rewrite (isdecimal_isalnum c H). Qed.

Lemma nonword_not_digit (c : char) : isword c = false -> isdecimal c = false.
Proof.
  intros H. destruct (isdecimal c) eqn:E; [|reflexivity].
  now rewrite (digit_is_word c E) in H.
Qed.

Lemma in_set_card_seps (c : char) :
  in_set false card_seps c = isspace c || char_eqb c 45%N.
Proof.
  unfold card_seps, set. replace (U "-") with [45%N] by (vm_compute; reflexivity).
  unfold in_set. cbn [map existsb atom_match]. rewrite orb_false_r.
  f_equal. unfold char_eqb. apply N.eqb_sym.
Qed.

Lemma hyphen_not_decimal : isdecimal 45%N = false.
Proof. rewrite isdecimal_latin1 by lia. reflexivity. Qed.

Lemma digit_not_card_sep (c : char) :
  isdecimal c = true -> in_set false card_seps c = false.
Proof.
  intros H. rewrite in_set_card_seps, (isdecimal_not_space c H). cbn [orb].
  destruct (char_eqb c 45%N) eqn:E; [|reflexivity].
  apply char_eqb_eq in E. subst. now rewrite hyphen_not_decimal in H.
Qed.

(** A rule that starts with [\b\d...] finds nothing where the next character
    is no digit. *)
Lemma digit_rule_needs_digit (icase : bool) (min : nat) (max : option nat)
    (r : regex) (bh : list char) (ah : str) (cp : list (nat * str)) :
  match ah with
  | c :: _ => isdecimal c = false
  | [] => True
  end ->
  run icase (Bound +++ Rep [Digit] (S min) max +++ r) (MState bh ah cp) = [].
Proof.
  intros H.
  assert (E : forall st, ahead st = ah ->
            run icase (Rep [Digit] (S min) max +++ r) st = []).
  { intros st Hst. apply run_seq_none. cbn [run]. rewrite Hst.
    apply rep_needs_head. destruct ah; [exact I|]. now rewrite in_set_digit. }
  cbn [run]. destruct (at_boundary (MState bh ah cp)); [|reflexivity].
  cbn [flat_map]. rewrite app_nil_r.
  exact (E (MState bh ah cp) eq_refl).
Qed.

(** ... and nothing in the middle of a run of digits. *)
Lemma digit_rule_needs_boundary (icase : bool) (r : regex) (bh : list char)
    (ah : str) (cp : list (nat * str)) :
  word_at_head bh = true -> word_at_head ah = true ->
  run icase (Bound +++ r) (MState bh ah cp) = [].
Proof.
  intros H1 H2. apply run_seq_none. cbn [run]. rewrite at_boundary_heads.
  cbn [behind ahead]. now rewrite H1, H2.
Qed.


Lemma word_after_digits (b : str) (bh : list char) :
  b <> [] -> Forall (fun c => isdecimal c = true) b ->
  word_at_head (rev b ++ bh) = true.
Proof.
  intros Hb Hd. destruct (exists_last Hb) as [b0 [d ->]].
  apply Forall_app in Hd as [_ Hd]. inversion Hd; subst.
  rewrite rev_app_distr. cbn [rev app word_at_head]. now apply digit_is_word.
Qed.

Lemma word_before_digits (b rest : str) :
  b <> [] -> Forall (fun c => isdecimal c = true) b ->
  word_at_head (b ++ rest) = true.
Proof.
  intros Hb Hd. destruct b as [|d b]; [congruence|]. inversion Hd; subst.
  cbn [app word_at_head]. now apply digit_is_word.
Qed.

Lemma nonempty_of_length {A : Type} (l : list A) (n : nat) :
  length l = S n -> l <> [].
Proof. intros H ->. discriminate. Qed.

(** One block of four digits and the optional separator after it, before the
    next block. *)
Lemma card_block_then (r : regex) (b s rest : str) (bh : list char)
    (cp : list (nat * str)) (st' : mstate) (t : list mstate) :
  length b = 4 -> Forall (fun c => isdecimal c = true) b ->
  is_card_sep s = true ->
  word_at_head rest = true ->
  match rest with c :: _ => isdecimal c = true | [] => False end ->
  run false r (MState (rev s ++ rev b ++ bh) rest cp) = st' :: t ->
  exists tail,
    run false (Rep [Digit] 4 (Some 4) +++ Rep card_seps 0 (Some 1) +++ r)
      (MState bh (b ++ s ++ rest) cp) = st' :: tail.
Proof.
  intros Hlen Hb Hs _ Hrest Hr.
  assert (E1 : run false (Rep [Digit] 4 (Some 4)) (MState bh (b ++ s ++ rest) cp)
               = [MState (rev b ++ bh) (s ++ rest) cp]).
  { cbn [run behind ahead caps]. rewrite <- Hlen. apply rep_exact.
    eapply Forall_impl; [|exact Hb]. intros c Hc. now rewrite in_set_digit. }
  rewrite (run_seq_single _ _ _ _ _ E1).
  destruct s as [|c [|c2 s]]; [| |discriminate].
  - cbn [app rev] in *.
    assert (E2 : run false (Rep card_seps 0 (Some 1))
                   (MState (rev b ++ bh) rest cp)
                 = [MState (rev b ++ bh) rest cp]).
    { cbn [run behind ahead caps]. apply rep_opt_skip.
      destruct rest as [|d rest']; [exact I|]. now apply digit_not_card_sep. }
    rewrite (run_seq_single _ _ _ _ _ E2). eexists. exact Hr.
  - cbn [is_card_sep] in Hs. rewrite <- in_set_card_seps in Hs.
    cbn [app rev] in *. cbn [run behind ahead caps].
    rewrite (rep_opt_take _ _ _ _ _ _ Hs). cbn [flat_map]. rewrite Hr.
    eexists. reflexivity.
Qed.

(** The same with no separator: the only way through. *)
Lemma card_block_exact (r : regex) (b rest : str) (bh : list char)
    (cp : list (nat * str)) :
  length b = 4 -> Forall (fun c => isdecimal c = true) b ->
  match rest with c :: _ => isdecimal c = true | [] => True end ->
  run false (Rep [Digit] 4 (Some 4) +++ Rep card_seps 0 (Some 1) +++ r)
    (MState bh (b ++ rest) cp)
  = run false r (MState (rev b ++ bh) rest cp).
Proof.
  intros Hlen Hb Hrest.
  assert (E1 : run false (Rep [Digit] 4 (Some 4)) (MState bh (b ++ rest) cp)
               = [MState (rev b ++ bh) rest cp]).
  { cbn [run behind ahead caps]. rewrite <- Hlen. apply rep_exact.
    eapply Forall_impl; [|exact Hb]. intros c Hc. now rewrite in_set_digit. }
  rewrite (run_seq_single _ _ _ _ _ E1).
  assert (E2 : run false (Rep card_seps 0 (Some 1))
                 (MState (rev b ++ bh) rest cp)
               = [MState (rev b ++ bh) rest cp]).
  { cbn [run behind ahead caps]. apply rep_opt_skip.
    destruct rest as [|d rest']; [exact I|]. now apply digit_not_card_sep. }
  now rewrite (run_seq_single _ _ _ _ _ E2).
Qed.

(** The last block, and the boundary after it. *)
Lemma card_last_block (b rest : str) (bh : list char) (cp : list (nat * str)) :
  length b = 4 -> Forall (fun c => isdecimal c = true) b ->
  run false (Rep [Digit] 4 (Some 4) +++ Bound) (MState bh (b ++ rest) cp)
  = if word_at_head rest then [] else [MState (rev b ++ bh) rest cp].
Proof.
  intros Hlen Hb.
  assert (E1 : run false (Rep [Digit] 4 (Some 4)) (MState bh (b ++ rest) cp)
               = [MState (rev b ++ bh) rest cp]).
  { cbn [run behind ahead caps]. rewrite <- Hlen. apply rep_exact.
    eapply Forall_impl; [|exact Hb]. intros c Hc. now rewrite in_set_digit. }
  rewrite (run_seq_single _ _ _ _ _ E1). cbn [run].
  rewrite at_boundary_heads. cbn [behind ahead].
  rewrite (word_after_digits b bh (nonempty_of_length b 3 Hlen) Hb).
  now destruct (word_at_head rest).
Qed.

Lemma digit_at_head (b rest : str) :
  b <> [] -> Forall (fun c => isdecimal c = true) b ->
  match b ++ rest with c :: _ => isdecimal c = true | [] => False end.
Proof.
  intros Hb Hd. destruct b as [|d b]; [congruence|]. now inversion Hd.
Qed.

(** With a card number at the cursor, the first match the engine finds is
    the whole number. *)
Lemma card_run_head (b1 s1 b2 s2 b3 s3 b4 post : str) (bh : list char) :
  length b1 = 4 -> Forall (fun c => isdecimal c = true) b1 ->
  length b2 = 4 -> Forall (fun c => isdecimal c = true) b2 ->
  length b3 = 4 -> Forall (fun c => isdecimal c = true) b3 ->
  length b4 = 4 -> Forall (fun c => isdecimal c = true) b4 ->
  is_card_sep s1 = true -> is_card_sep s2 = true -> is_card_sep s3 = true ->
  word_at_head bh = false -> word_at_head post = false ->
  exists tail,
    run false card_pattern
      (MState bh (b1 ++ s1 ++ b2 ++ s2 ++ b3 ++ s3 ++ b4 ++ post) [])
    = MState (rev b4 ++ rev s3 ++ rev b3 ++ rev s2 ++ rev b2 ++ rev s1
              ++ rev b1 ++ bh) post [] :: tail.
Proof.
  intros L1 D1 L2 D2 L3 D3 L4 D4 S1 S2 S3 Hbh Hpost.
  pose proof (nonempty_of_length b1 3 L1) as N1.
  pose proof (nonempty_of_length b2 3 L2) as N2.
  pose proof (nonempty_of_length b3 3 L3) as N3.
  pose proof (nonempty_of_length b4 3 L4) as N4.
  unfold card_pattern, times, opt. fold card_seps.
  assert (E0 : run false Bound
                 (MState bh (b1 ++ s1 ++ b2 ++ s2 ++ b3 ++ s3 ++ b4 ++ post) [])
               = [MState bh (b1 ++ s1 ++ b2 ++ s2 ++ b3 ++ s3 ++ b4 ++ post) []]).
  { cbn [run]. rewrite at_boundary_heads. cbn [behind ahead].
    now rewrite Hbh, (word_before_digits b1 _ N1 D1). }
  rewrite (run_seq_single _ _ _ _ _ E0).
  pose proof (card_last_block b4 post
                (rev s3 ++ rev b3 ++ rev s2 ++ rev b2 ++ rev s1 ++ rev b1 ++ bh)
                [] L4 D4) as E4.
  rewrite Hpost in E4.
  destruct (card_block_then _ b3 s3 (b4 ++ post)
              (rev s2 ++ rev b2 ++ rev s1 ++ rev b1 ++ bh) [] _ _ L3 D3 S3
              (word_before_digits b4 post N4 D4) (digit_at_head b4 post N4 D4)
              E4) as [t3 E3].
  destruct (card_block_then _ b2 s2 (b3 ++ s3 ++ b4 ++ post)
              (rev s1 ++ rev b1 ++ bh) [] _ _ L2 D2 S2
              (word_before_digits b3 _ N3 D3) (digit_at_head b3 _ N3 D3)
              E3) as [t2 E2].
  destruct (card_block_then _ b1 s1 (b2 ++ s2 ++ b3 ++ s3 ++ b4 ++ post)
              bh [] _ _ L1 D1 S1
              (word_before_digits b2 _ N2 D2) (digit_at_head b2 _ N2 D2)
              E2) as [t1 E1].
  eexists. exact E1.
Qed.

End DigitRules.

Section DigitMasks.
Context {UD : Unicode}.

(** Where no match starts anywhere, [re.sub] changes nothing. *)
Lemma sub_scan_no_start (icase : bool) (r : regex) (tpl : list piece) :
  forall (ah : str) (bh : list char),
    (forall u v, ah = u ++ v -> run icase r (MState (rev u ++ bh) v []) = []) ->
    sub_scan icase r tpl 0 bh ah = ah.
Proof.
  induction ah as [|c rest IH]; intros bh H; cbn [sub_scan].
  - pose proof (H [] [] eq_refl) as H0. cbn [rev app] in H0. now rewrite H0.
  - pose proof (H [] (c :: rest) eq_refl) as H0. cbn [rev app] in H0.
    rewrite H0. f_equal. apply IH.
    intros u v ->. specialize (H (c :: u) v eq_refl).
    cbn [rev] in H. now rewrite <- app_assoc in H.
Qed.

Lemma ndigits_latin1 (s : str) :
  is_latin1 s = true -> ndigits s = length (filter isdecimal1 s).
Proof.
  unfold ndigits. induction s as [|c s IH]; intros H; [reflexivity|].
  apply is_latin1_cons in H as [Hc Hs]. cbn [filter].
  rewrite (@isdecimal_latin1 _ c Hc). destruct (isdecimal1 c); cbn [length];
    now rewrite IH.
Qed.

Lemma head_not_digit (v rest : str) :
  Forall (fun c => isdecimal c = false) (v ++ rest) ->
  match v ++ rest with c :: _ => isdecimal c = false | [] => True end.
Proof. intros H. destruct (v ++ rest); [exact I | now inversion H]. Qed.

Lemma head_not_digit_before (v rest : str) :
  v <> [] -> Forall (fun c => isdecimal c = false) v ->
  match v ++ rest with c :: _ => isdecimal c = false | [] => True end.
Proof. intros Hv H. destruct v; [congruence|]. now inversion H. Qed.

(** In a text whose only digits are the block [D], a cursor that has a digit
    ahead and no word character behind stands where [D] starts. *)
Lemma cursor_at_digits (pre D post u v : str) (c : char) :
  Forall (fun c => isdecimal c = false) pre ->
  Forall (fun c => isdecimal c = true) D ->
  Forall (fun c => isdecimal c = false) post ->
  pre ++ D ++ post = u ++ c :: v -> isdecimal c = true ->
  word_at_head (rev u) = false ->
  u = pre.
Proof.
  intros Hpre HD Hpost H Hc Hu.
  destruct u as [|a u0] using rev_ind.
  - destruct pre as [|p pre]; [reflexivity|]. cbn in H. injection H as -> _.
    inversion Hpre. congruence.
  - clear IHu0. rewrite rev_app_distr in Hu. cbn [rev app word_at_head] in Hu.
    apply (align_digits pre D post (u0 ++ [a]) u0 [c] v a c []); auto.
    now apply nonword_not_digit.
Qed.

(** More than sixteen digits in a row are no card number. *)
Lemma card_fails_on_long_run (D post : str) (bh : list char) :
  Forall (fun c => isdecimal c = true) D -> 16 < length D ->
  run false card_pattern (MState bh (D ++ post) []) = [].
Proof.
  intros HD Hlen.
  assert (T : forall (n : nat) (X : str), n <= length X ->
            Forall (fun c => isdecimal c = true) X ->
            exists b r, X = b ++ r /\ length b = n /\
              Forall (fun c => isdecimal c = true) b /\
              Forall (fun c => isdecimal c = true) r).
  { intros n X Hn HX. exists (firstn n X), (skipn n X).
    rewrite firstn_skipn, length_firstn.
    rewrite <- (firstn_skipn n X) in HX. apply Forall_app in HX as [H1 H2].
    repeat split; auto. lia. }
  destruct (T 4 D ltac:(lia) HD) as [b1 [r1 [-> [L1 [D1 R1]]]]].
  rewrite length_app in Hlen.
  destruct (T 4 r1 ltac:(lia) R1) as [b2 [r2 [-> [L2 [D2 R2]]]]].
  rewrite length_app in Hlen.
  destruct (T 4 r2 ltac:(lia) R2) as [b3 [r3 [-> [L3 [D3 R3]]]]].
  rewrite length_app in Hlen.
  destruct (T 4 r3 ltac:(lia) R3) as [b4 [r4 [-> [L4 [D4 R4]]]]].
  rewrite length_app in Hlen.
  assert (N4 : r4 <> []) by (intros ->; cbn in Hlen; lia).
  pose proof (nonempty_of_length b2 3 L2) as N2.
  pose proof (nonempty_of_length b3 3 L3) as N3.
  pose proof (nonempty_of_length b4 3 L4) as N4'.
  rewrite <- !app_assoc.
  unfold card_pattern, times, opt. fold card_seps.
  rewrite run_seq_bound. destruct (at_boundary _); [|reflexivity].
  rewrite card_block_exact; auto;
    [|pose proof (digit_at_head b2 (b3 ++ b4 ++ r4 ++ post) N2 D2) as X;
      destruct (b2 ++ b3 ++ b4 ++ r4 ++ post); [contradiction | exact X]].
  rewrite card_block_exact; auto;
    [|pose proof (digit_at_head b3 (b4 ++ r4 ++ post) N3 D3) as X;
      destruct (b3 ++ b4 ++ r4 ++ post); [contradiction | exact X]].
  rewrite card_block_exact; auto;
    [|pose proof (digit_at_head b4 (r4 ++ post) N4' D4) as X;
      destruct (b4 ++ r4 ++ post); [contradiction | exact X]].
  rewrite card_last_block; auto.
  now rewrite (word_before_digits r4 post N4 R4).
Qed.

(** With a run of 10 to 20 digits between two boundaries at the cursor, the
    first match of the account rule is the whole run. *)
Lemma account_run_head (D post : str) (bh : list char) :
  Forall (fun c => isdecimal c = true) D ->
  10 <= length D <= 20 ->
  word_at_head bh = false -> word_at_head post = false ->
  exists tail,
    run false account_pattern (MState bh (D ++ post) [])
    = MState (rev D ++ bh) post [] :: tail.
Proof.
  intros HD Hlen Hbh Hpost.
  assert (N : D <> []) by (intros ->; cbn in Hlen; lia).
  unfold account_pattern, times.
  assert (E0 : run false Bound (MState bh (D ++ post) [])
               = [MState bh (D ++ post) []]).
  { cbn [run]. rewrite at_boundary_heads. cbn [behind ahead].
    now rewrite Hbh, (word_before_digits D post N HD). }
  rewrite (run_seq_single _ _ _ _ _ E0).
  destruct (rep_greedy_head false [Digit] D post 10 (Some 20) bh []) as [t Ht].
  - eapply Forall_impl; [|exact HD]. intros c Hc. now rewrite in_set_digit.
  - lia.
  - lia.
  - destruct post as [|q post']; [exact I|]. left. rewrite in_set_digit.
    now apply nonword_not_digit.
  - eapply run_seq_head.
    + cbn [run behind ahead caps]. exact Ht.
    + cbn [run]. rewrite at_boundary_heads. cbn [behind ahead].
      rewrite (word_after_digits D bh N HD), Hpost. reflexivity.
Qed.

Lemma card_token_no_digit : ndigits (U "[TARJETA-OCULTA]") = 0.
Proof.
  rewrite ndigits_latin1 by (vm_compute; reflexivity). vm_compute. reflexivity.
Qed.

Lemma account_token_no_digit : ndigits (U "[CUENTA-OCULTA]") = 0.
Proof.
  rewrite ndigits_latin1 by (vm_compute; reflexivity). vm_compute. reflexivity.
Qed.

Lemma card_mask :
  forall pre b1 s1 b2 s2 b3 s3 b4 post : str,
    length b1 = 4 -> Forall (fun c => isdecimal c = true) b1 ->
    length b2 = 4 -> Forall (fun c => isdecimal c = true) b2 ->
    length b3 = 4 -> Forall (fun c => isdecimal c = true) b3 ->
    length b4 = 4 -> Forall (fun c => isdecimal c = true) b4 ->
    is_card_sep s1 = true -> is_card_sep s2 = true -> is_card_sep s3 = true ->
    Forall (fun c => isdecimal c = false) pre ->
    Forall (fun c => isdecimal c = false) post ->
    word_at_head (rev pre) = false -> word_at_head post = false ->
    sanitize_financial_data
      (pre ++ b1 ++ s1 ++ b2 ++ s2 ++ b3 ++ s3 ++ b4 ++ post)
    = pre ++ U "[TARJETA-OCULTA]" ++ post.
Proof.
  intros pre b1 s1 b2 s2 b3 s3 b4 post L1 D1 L2 D2 L3 D3 L4 D4 S1 S2 S3
    Hpre Hpost Bpre Bpost.
  assert (Hout : ndigits (pre ++ U "[TARJETA-OCULTA]" ++ post) = 0).
  { now rewrite !ndigits_app, (ndigits_none pre Hpre),
      (ndigits_none post Hpost), card_token_no_digit. }
  assert (E1 : re_sub false card_pattern [Text (U "[TARJETA-OCULTA]")]
                 (pre ++ b1 ++ s1 ++ b2 ++ s2 ++ b3 ++ s3 ++ b4 ++ post)
               = pre ++ U "[TARJETA-OCULTA]" ++ post).
  { unfold re_sub. rewrite sub_scan_prefix; cycle 1.
    { intros u v -> Hv. unfold card_pattern, times.
      apply digit_rule_needs_digit.
      apply head_not_digit_before; [exact Hv|].
      now apply Forall_app in Hpre as [_ Hpre]. }
    f_equal. rewrite app_nil_r.
    destruct (card_run_head b1 s1 b2 s2 b3 s3 b4 post (rev pre)
                L1 D1 L2 D2 L3 D3 L4 D4 S1 S2 S3 Bpre Bpost) as [tail Hr].
    replace (b1 ++ s1 ++ b2 ++ s2 ++ b3 ++ s3 ++ b4 ++ post)
      with ((b1 ++ s1 ++ b2 ++ s2 ++ b3 ++ s3 ++ b4) ++ post) in *
      by (now rewrite <- !app_assoc).
    rewrite (sub_scan_match false card_pattern _
               (b1 ++ s1 ++ b2 ++ s2 ++ b3 ++ s3 ++ b4) post (rev pre) _ tail
               ltac:(destruct b1; [discriminate | discriminate]) Hr).
    - cbn [expand flat_map]. rewrite app_nil_r. f_equal.
      apply sub_scan_few_digits. rewrite (ndigits_none post Hpost).
      rewrite (proj2 card_pattern_measures). lia.
    - cbn [behind]. now rewrite !rev_app_distr, <- !app_assoc. }
  unfold sanitize_financial_data. rewrite E1.
  rewrite (re_sub_few_digits false account_pattern)
    by (rewrite (proj2 account_pattern_measures); lia).
  apply re_sub_few_digits. rewrite (proj2 cvv_pattern_measures). lia.
Qed.

(** X3. A run of 10 to 20 digits, other than 16, that stands between two word
    boundaries in a text with no other digit is replaced by the account
    token; the rest of the text is unchanged. *)
Theorem account_number_masked_in_text :
  forall pre D post : str,
    Forall (fun c => isdecimal c = true) D ->
    10 <= length D <= 20 -> length D <> 16 ->
    Forall (fun c => isdecimal c = false) pre ->
    Forall (fun c => isdecimal c = false) post ->
    word_at_head (rev pre) = false -> word_at_head post = false ->
    sanitize_financial_data (pre ++ D ++ post)
    = pre ++ U "[CUENTA-OCULTA]" ++ post.
Proof.
  intros pre D post HD Hlen H16 Hpre Hpost Bpre Bpost.
  assert (N : D <> []) by (intros ->; cbn in Hlen; lia).
  assert (Hout : ndigits (pre ++ U "[CUENTA-OCULTA]" ++ post) = 0).
  { now rewrite !ndigits_app, (ndigits_none pre Hpre),
      (ndigits_none post Hpost), account_token_no_digit. }
  assert (E1 : re_sub false card_pattern [Text (U "[TARJETA-OCULTA]")]
                 (pre ++ D ++ post) = pre ++ D ++ post).
  { destruct (Nat.lt_ge_cases (length D) 16) as [Hlt | Hge].
    - apply re_sub_few_digits.
      rewrite !ndigits_app, (ndigits_none pre Hpre),
        (ndigits_none post Hpost), (ndigits_all D HD),
        (proj2 card_pattern_measures). lia.
    - unfold re_sub. apply sub_scan_no_start. intros u v E.
      rewrite app_nil_r.
      destruct v as [|c v'].
      { unfold card_pattern, times. now apply digit_rule_needs_digit. }
      destruct (isdecimal c) eqn:Ec.
      2:{ unfold card_pattern, times. now apply digit_rule_needs_digit. }
      destruct (word_at_head (rev u)) eqn:Eu.
      { unfold card_pattern. apply digit_rule_needs_boundary; [exact Eu|].
        cbn [word_at_head]. now apply digit_is_word. }
      pose proof (cursor_at_digits pre D post u v' c Hpre HD Hpost E Ec Eu)
        as ->.
      apply app_inv_head in E. rewrite <- E.
      apply card_fails_on_long_run; [exact HD | lia]. }
  assert (E2 : re_sub false account_pattern [Text (U "[CUENTA-OCULTA]")]
                 (pre ++ D ++ post) = pre ++ U "[CUENTA-OCULTA]" ++ post).
  { unfold re_sub. rewrite sub_scan_prefix; cycle 1.
    { intros u v -> Hv. unfold account_pattern, times.
      apply digit_rule_needs_digit.
      apply head_not_digit_before; [exact Hv|].
      now apply Forall_app in Hpre as [_ Hpre]. }
    f_equal. rewrite app_nil_r.
    destruct (account_run_head D post (rev pre) HD Hlen Bpre Bpost)
      as [tail Hr].
    rewrite (sub_scan_match false account_pattern _ D post (rev pre) _ tail
               N Hr).
    - cbn [expand flat_map]. rewrite app_nil_r. f_equal.
      apply sub_scan_few_digits. rewrite (ndigits_none post Hpost).
      rewrite (proj2 account_pattern_measures). lia.
    - reflexivity. }
  unfold sanitize_financial_data. rewrite E1, E2.
  apply re_sub_few_digits. rewrite (proj2 cvv_pattern_measures). lia.
Qed.

(** X2. A card number (four blocks of four digits, each pair of blocks joined
    directly or by one whitespace character or hyphen) that stands between two
    word boundaries, in a text with no other digit, is replaced by the card
    token; the rest of the text is unchanged. *)
Theorem card_number_masked_in_text :
  forall pre b1 s1 b2 s2 b3 s3 b4 post : str,
    length b1 = 4 -> Forall (fun c => isdecimal c = true) b1 ->
    length b2 = 4 -> Forall (fun c => isdecimal c = true) b2 ->
    length b3 = 4 -> Forall (fun c => isdecimal c = true) b3 ->
    length b4 = 4 -> Forall (fun c => isdecimal c = true) b4 ->
    is_card_sep s1 = true -> is_card_sep s2 = true -> is_card_sep s3 = true ->
    Forall (fun c => isdecimal c = false) pre ->
    Forall (fun c => isdecimal c = false) post ->
    word_at_head (rev pre) = false -> word_at_head post = false ->
    sanitize_financial_data
      (pre ++ b1 ++ s1 ++ b2 ++ s2 ++ b3 ++ s3 ++ b4 ++ post)
    = pre ++ U "[TARJETA-OCULTA]" ++ post.
Proof. exact card_mask. Qed.

End DigitMasks.

Lemma card_number_masked_in_text_witness :
  sanitize_financial_data
    (U "pago con " ++ U "4111" ++ U "-" ++ U "1111" ++ U " " ++ U "1111" ++ []
     ++ U "1111" ++ U ", gracias")
  = U "pago con " ++ U "[TARJETA-OCULTA]" ++ U ", gracias".
Proof.
  apply (@card_number_masked_in_text Latin1 (U "pago con ") (U "4111") (U "-")
           (U "1111") (U " ") (U "1111") [] (U "1111") (U ", gracias"));
    try (vm_compute; reflexivity); vm_compute; repeat constructor.
Defined.

Lemma account_number_masked_in_text_witness :
  sanitize_financial_data (U "mi cuenta: " ++ U "19312345678012" ++ U ".")
  = U "mi cuenta: " ++ U "[CUENTA-OCULTA]" ++ U ".".
Proof.
  apply (@account_number_masked_in_text Latin1 (U "mi cuenta: ")
           (U "19312345678012") (U "."));
    try (vm_compute; reflexivity); try (vm_compute; lia);
    vm_compute; repeat constructor.
Defined.

(** ** The two screens and the topic check *)

Section Screens.
Context {UD : Unicode}.

Lemma palabras_out_lowercase :
  forall kw, In kw palabras_out -> is_latin1 kw = true /\ map lower1 kw = kw.
Proof.
  assert (H : forallb (fun kw => is_latin1 kw && str_eqb (map lower1 kw) kw)
                palabras_out = true) by (vm_compute; reflexivity).
  intros kw Hin. rewrite forallb_forall in H. specialize (H kw Hin).
  apply andb_true_iff in H as [H1 H2]. now apply str_eqb_eq in H2.
Qed.

(** X5. A response that contains a configured output keyword, in any casing,
    is blocked by [check_output] with kind ["palabra"]; the keyword reported
    is the first one of the list that occurs in the response. *)
Theorem check_output_blocks_keyword :
  forall (response pre k' post kw : str) (n : nat),
    nth_error palabras_out n = Some kw ->
    casing_of k' kw ->
    response = pre ++ k' ++ post ->
    exists i k,
      i <= n /\ nth_error palabras_out i = Some k /\
      check_output response = (true, U "palabra", k) /\
      str_in (lower k) (lower response) = true /\
      (forall j k2, j < i -> nth_error palabras_out j = Some k2 ->
                    str_in (lower k2) (lower response) = false).
Proof.
  intros msg pre k' post kw n Hn Hc ->.
  destruct (palabras_out_lowercase kw (nth_error_In _ _ Hn)) as [Hl Hkw].
  assert (Hocc : str_in (lower kw) (lower (pre ++ k' ++ post)) = true).
  { rewrite (lower_latin1 kw Hl), Hkw. now apply casing_found. }
  unfold check_output.
  destruct (first_palabra palabras_out (lower (pre ++ k' ++ post))) as [k|] eqn:E.
  - destruct (first_palabra_some _ _ _ E) as [i [H1 [H2 H3]]].
    assert (Hle : i <= n).
    { destruct (le_lt_dec i n) as [|Hlt]; [assumption|].
      rewrite (H3 n kw Hlt Hn) in Hocc. discriminate. }
    exists i, k. repeat split; auto.
  - rewrite (first_palabra_none _ _ E kw (nth_error_In _ _ Hn)) in Hocc.
    discriminate.
Qed.

Lemma first_palabra_in (l : list str) (m k : str) :
  first_palabra l m = Some k -> In k l.
Proof.
  induction l as [|p l IH]; cbn [first_palabra]; [discriminate|].
  destruct (str_in (lower p) m).
  - intros H. injection H as ->. now left.
  - intros H. right. now apply IH.
Qed.

Lemma first_pattern_in (l : list (str * regex)) (m p : str) :
  first_pattern l m = Some p -> In p (map fst l).
Proof.
  induction l as [|[q r] l IH]; cbn [first_pattern]; [discriminate|].
  destruct (re_search false r m).
  - intros H. injection H as ->. now left.
  - intros H. right. now apply IH.
Qed.

(** X6. What the two screens can return: not blocked, with empty kind and
    detail; or blocked on a keyword, the detail being one of the configured
    keywords; or blocked on a pattern, the detail being the source text of one
    of the configured patterns.  The detail is never text of the message. *)
Theorem screen_results_are_configured :
  forall text : str,
    (check_input text = (false, [], []) \/
     (exists k, In k palabras_in /\ check_input text = (true, U "palabra", k)) \/
     (exists p, In p (map fst patterns_in) /\
                check_input text = (true, U "patrón", p))) /\
    (check_output text = (false, [], []) \/
     (exists k, In k palabras_out /\ check_output text = (true, U "palabra", k)) \/
     (exists p, In p (map fst patterns_out) /\
                check_output text = (true, U "patrón", p))).
Proof.
  intros text. split.
  - unfold check_input.
    destruct (first_palabra palabras_in (lower text)) as [k|] eqn:E.
    + right. left. exists k. split; [|reflexivity].
      now apply (first_palabra_in _ (lower text)).
    + destruct (first_pattern patterns_in (lower text)) as [p|] eqn:E2.
      * right. right. exists p. split; [|reflexivity].
        now apply (first_pattern_in _ (lower text)).
      * now left.
  - unfold check_output.
    destruct (first_palabra palabras_out (lower text)) as [k|] eqn:E.
    + right. left. exists k. split; [|reflexivity].
      now apply (first_palabra_in _ (lower text)).
    + destruct (first_pattern patterns_out (lower text)) as [p|] eqn:E2.
      * right. right. exists p. split; [|reflexivity].
        now apply (first_pattern_in _ (lower text)).
      * now left.
Qed.

(** *** The first input pattern *)

Lemma search_from_complete (icase : bool) (r : regex) :
  forall (a b : str) (bh : list char),
    run icase r (MState (rev a ++ bh) b []) <> [] ->
    search_from icase r bh (a ++ b) <> None.
Proof.
  induction a as [|c a IH]; intros b bh H.
  - cbn [rev app] in *. destruct b as [|c b]; cbn [search_from];
      destruct (run icase r _); try congruence; discriminate.
  - cbn [app search_from].
    destruct (run icase r (MState bh (c :: a ++ b) [])); [|discriminate].
    apply IH. cbn [rev] in H. now rewrite <- app_assoc in H.
Qed.

Lemma re_search_at (icase : bool) (r : regex) (a b : str) :
  run icase r (MState (rev a) b []) <> [] ->
  re_search icase r (a ++ b) = true.
Proof.
  intros H. unfold re_search.
  pose proof (search_from_complete icase r a b []) as S.
  rewrite app_nil_r in S. specialize (S H).
  now destruct (search_from icase r [] (a ++ b)).
Qed.

Lemma lit_run_exact :
  forall (l rest : str) (bh : list char) (cp : list (nat * str)),
    run false (lit l) (MState bh (l ++ rest) cp) = [MState (rev l ++ bh) rest cp].
Proof.
  induction l as [|p l IH]; intros rest bh cp; [reflexivity|].
  rewrite lit_cons.
  rewrite (run_seq_single false _ _ _ (MState (p :: bh) (l ++ rest) cp)).
  - rewrite IH. cbn [rev]. now rewrite <- app_assoc.
  - cbn [run app ahead behind caps]. unfold in_set. cbn [existsb atom_match].
    now rewrite char_eqb_refl.
Qed.

Lemma run_seq_nonempty (icase : bool) (r1 r2 : regex) (st st1 : mstate)
    (t1 : list mstate) :
  run icase r1 st = st1 :: t1 ->
  run icase r2 st1 <> [] ->
  run icase (Seq r1 r2) st <> [].
Proof.
  intros H1 H2. cbn [run]. rewrite H1. cbn [flat_map].
  destruct (run icase r2 st1); [congruence | discriminate].
Qed.

Lemma rep_from_zero (icase : bool) (cs : list atom) (max : option nat)
    (bh : list char) (ah : str) (cp : list (nat * str)) :
  rep icase cs 0 max bh ah cp <> [].
Proof.
  destruct ah as [|c r]; cbn [rep]; intros H; apply app_eq_nil in H as [_ H];
    discriminate.
Qed.

Lemma latin1_table (P : N -> bool) :
  forallb (fun n => P (N.of_nat n)) (seq 0 256) = true ->
  forall c, (c < 256)%N -> P c = true.
Proof.
  intros H c Hc. rewrite forallb_forall in H.
  specialize (H (N.to_nat c)). rewrite N2Nat.id in H. apply H.
  apply in_seq. lia.
Qed.

Lemma space_lower1 (c : char) :
  (c < 256)%N -> isspace1 c = true -> lower1 c = c.
Proof.
  intros Hc Hs.
  pose proof (latin1_table
                (fun c => implb (isspace1 c) (char_eqb (lower1 c) c))
                ltac:(vm_compute; reflexivity) c Hc) as T.
  cbv beta in T. rewrite Hs in T. now apply char_eqb_eq in T.
Qed.

Lemma lower1_latin1 (c : char) : (c < 256)%N -> (lower1 c < 256)%N.
Proof.
  intros Hc.
  pose proof (latin1_table (fun c => (lower1 c <? 256)%N)
                ltac:(vm_compute; reflexivity) c Hc) as T.
  now apply N.ltb_lt in T.
Qed.

Lemma word_lower1 (c : char) :
  (c < 256)%N -> isword c = true ->
  isword (lower1 c) = true /\ isspace (lower1 c) = false.
Proof.
  intros Hc Hw. pose proof (lower1_latin1 c Hc) as Hl.
  unfold isword in *. rewrite (@isalnum_latin1 _ c Hc) in Hw.
  rewrite (@isalnum_latin1 _ _ Hl), (@isspace_latin1 _ _ Hl).
  pose proof (latin1_table
                (fun c => implb (isalnum1 c || char_eqb c 95%N)
                            ((isalnum1 (lower1 c) || char_eqb (lower1 c) 95%N)
                             && negb (isspace1 (lower1 c))))
                ltac:(vm_compute; reflexivity) c Hc) as T.
  cbv beta in T. rewrite Hw in T. cbn [implb] in T.
  apply andb_true_iff in T as [T1 T2]. apply negb_true_iff in T2. auto.
Qed.

(** The first input pattern, [cu[ae]nta\s+de\s+\w+], at a cursor where its
    words stand. *)
Lemma cuenta_de_run (k s1 s2 rest : str) (w : char) (bh : list char) :
  In k cuenta_spellings ->
  s1 <> [] -> Forall (fun c => isspace c = true) s1 ->
  s2 <> [] -> Forall (fun c => isspace c = true) s2 ->
  isword w = true -> isspace w = false ->
  run false
    (txt "cu" +++ Chars (set "ae") +++ txt "nta" +++ plus [Space] +++ txt "de"
     +++ plus [Space] +++ plus [Word])
    (MState bh (k ++ s1 ++ U "de" ++ s2 ++ w :: rest) []) <> [].
Proof.
  intros Hk N1 W1 N2 W2 Hw Hws.
  assert (Hsp : forall s, Forall (fun c => isspace c = true) s ->
            Forall (fun c => in_set false [Space] c = true) s).
  { intros s Hs. eapply Forall_impl; [|exact Hs]. intros c Hc.
    unfold in_set. cbn [existsb atom_match]. now rewrite Hc. }
  assert (Hd : isspace 100%N = false).
  { rewrite isspace_latin1 by lia. reflexivity. }
  assert (Ek : exists v, k = U "cu" ++ [v] ++ U "nta" /\
                         in_set false (set "ae") v = true).
  { unfold cuenta_spellings in Hk. cbn [map In] in Hk.
    destruct Hk as [<- | [<- | []]].
    - exists 101%N. split; [vm_compute; reflexivity|].
      unfold set. replace (U "ae") with [97%N; 101%N] by (vm_compute; reflexivity).
      unfold in_set. cbn [map existsb atom_match].
      now rewrite (char_eqb_refl 101%N), orb_true_r.
    - exists 97%N. split; [vm_compute; reflexivity|].
      unfold set. replace (U "ae") with [97%N; 101%N] by (vm_compute; reflexivity).
      unfold in_set. cbn [map existsb atom_match].
      now rewrite (char_eqb_refl 97%N). }
  destruct Ek as [v [-> Hv]]. rewrite <- !app_assoc. unfold txt, plus.
  eapply run_seq_nonempty; [apply lit_run_exact|].
  eapply run_seq_nonempty.
  { cbn [run app ahead behind caps]. rewrite Hv. reflexivity. }
  eapply run_seq_nonempty; [apply lit_run_exact|].
  destruct (rep_greedy_head false [Space] s1 (U "de" ++ s2 ++ w :: rest) 1 None
              (rev (U "nta") ++ v :: rev (U "cu") ++ bh) [] (Hsp s1 W1))
    as [t1 E1].
  { destruct s1; [congruence | cbn; lia]. }
  { exact I. }
  { replace (U "de") with [100%N; 101%N] by (vm_compute; reflexivity).
    cbn [app]. left. unfold in_set. cbn [existsb atom_match]. now rewrite Hd. }
  eapply run_seq_nonempty; [cbn [run behind ahead caps]; exact E1|].
  eapply run_seq_nonempty; [apply lit_run_exact|].
  destruct (rep_greedy_head false [Space] s2 (w :: rest) 1 None
              (rev (U "de") ++ rev s1 ++ rev (U "nta") ++ v :: rev (U "cu") ++ bh)
              [] (Hsp s2 W2)) as [t2 E2].
  { destruct s2; [congruence | cbn; lia]. }
  { exact I. }
  { left. unfold in_set. cbn [existsb atom_match]. now rewrite Hws. }
  eapply run_seq_nonempty; [cbn [run behind ahead caps]; exact E2|].
  cbn [run behind ahead caps rep].
  assert (Hin : in_set false [Word] w = true).
  { unfold in_set. cbn [existsb atom_match]. now rewrite Hw. }
  rewrite Hin. cbn [can_take andb pred option_map]. rewrite app_nil_r.
  apply rep_from_zero.
Qed.


Lemma map_lower1_spaces (s : str) :
  is_latin1 s = true -> Forall (fun c => isspace c = true) s ->
  map lower1 s = s.
Proof.
  induction s as [|c s IH]; intros Hl Hs; [reflexivity|].
  apply is_latin1_cons in Hl as [Hc Hl]. inversion Hs; subst.
  cbn [map]. rewrite IH by assumption. f_equal.
  apply space_lower1; [exact Hc|]. now rewrite <- (@isspace_latin1 _ c Hc).
Qed.

Lemma is_latin1_app_intro (a b : str) :
  is_latin1 a = true -> is_latin1 b = true -> is_latin1 (a ++ b) = true.
Proof.
  unfold is_latin1. intros Ha Hb. rewrite forallb_app.
  apply andb_true_iff. now split.
Qed.

(** X7. A message that holds "cuenta de" (or "cuanta de"), in any casing and
    with any whitespace between the words, followed by a word character, is
    blocked by [check_input]: by the first input pattern when no keyword
    occurs in it. *)
Theorem cuenta_de_is_blocked :
  forall (pre K S1 E S2 post k : str) (w : char),
    In k cuenta_spellings -> casing_of K k -> casing_of E (U "de") ->
    S1 <> [] -> is_latin1 S1 = true -> Forall (fun c => isspace c = true) S1 ->
    S2 <> [] -> is_latin1 S2 = true -> Forall (fun c => isspace c = true) S2 ->
    (w < 256)%N -> isword w = true ->
    fst (fst (check_input (pre ++ (K ++ S1 ++ E ++ S2 ++ [w]) ++ post))) = true /\
    (first_palabra palabras_in
       (lower (pre ++ (K ++ S1 ++ E ++ S2 ++ [w]) ++ post)) = None ->
     check_input (pre ++ (K ++ S1 ++ E ++ S2 ++ [w]) ++ post)
     = (true, U "patrón", U "cu[ae]nta\s+de\s+\w+")).
Proof.
  intros pre K S1 E S2 post k w Hk [HKl HK] [HEl HE] N1 L1 W1 N2 L2 W2 Hw Hword.
  assert (Hklow : map lower1 k = k).
  { unfold cuenta_spellings in Hk. cbn [map In] in Hk.
    destruct Hk as [<- | [<- | []]]; vm_compute; reflexivity. }
  assert (Hseg : is_latin1 (K ++ S1 ++ E ++ S2 ++ [w]) = true).
  { repeat apply is_latin1_app_intro; auto.
    apply is_latin1_cons. now split. }
  destruct (lower_local pre _ post Hseg) as [x [y El]].
  destruct (word_lower1 w Hw Hword) as [Hw1 Hw2].
  assert (Hs : re_search false
                 (txt "cu" +++ Chars (set "ae") +++ txt "nta" +++ plus [Space]
                  +++ txt "de" +++ plus [Space] +++ plus [Word])
                 (lower (pre ++ (K ++ S1 ++ E ++ S2 ++ [w]) ++ post)) = true).
  { rewrite El, !map_app, HK, Hklow, HE.
    rewrite (map_lower1_spaces S1 L1 W1), (map_lower1_spaces S2 L2 W2).
    replace (map lower1 (U "de")) with (U "de") by (vm_compute; reflexivity).
    cbn [map]. rewrite <- !app_assoc. apply re_search_at. cbn [app].
    now apply cuenta_de_run. }
  unfold check_input.
  destruct (first_palabra palabras_in
              (lower (pre ++ (K ++ S1 ++ E ++ S2 ++ [w]) ++ post))) as [p|].
  - split; [reflexivity | discriminate].
  - unfold patterns_in. cbn [first_pattern]. rewrite Hs.
    split; [reflexivity | intros _; reflexivity].
Qed.

(** *** The topic check *)

Lemma financial_keywords_lowercase :
  forall kw, In kw financial_keywords -> map lower1 kw = kw.
Proof.
  assert (H : forallb (fun kw => str_eqb (map lower1 kw) kw)
                financial_keywords = true) by (vm_compute; reflexivity).
  intros kw Hin. rewrite forallb_forall in H. specialize (H kw Hin).
  now apply str_eqb_eq in H.
Qed.

(** X8. A message that holds one of the financial keywords, in any casing, is
    valid with an empty reason, however many words it has. *)
Theorem financial_keyword_is_valid :
  forall msg pre k' post kw : str,
    In kw financial_keywords -> casing_of k' kw ->
    msg = pre ++ k' ++ post ->
    validate_financial_context msg = (true, []).
Proof.
  intros msg pre k' post kw Hin Hc ->. unfold validate_financial_context.
  destruct (length (split (pre ++ k' ++ post)) <? 3); [reflexivity|].
  assert (E : existsb (fun kw => str_in kw (lower (pre ++ k' ++ post)))
                financial_keywords = true).
  { apply existsb_exists. exists kw. split; [exact Hin|].
    apply casing_found; [exact Hc | now apply financial_keywords_lowercase]. }
  now rewrite E.
Qed.

(** X9. A message of three words or more whose lowered text holds none of the
    financial keywords is rejected, with the fixed reason. *)
Theorem off_topic_message_is_rejected :
  forall msg : str,
    3 <= length (split msg) ->
    (forall kw, In kw financial_keywords -> str_in kw (lower msg) = false) ->
    validate_financial_context msg
    = (false, U "La consulta no parece estar relacionada con finanzas.").
Proof.
  intros msg Hlen Hno. unfold validate_financial_context.
  apply Nat.ltb_ge in Hlen. rewrite Hlen.
  assert (E : existsb (fun kw => str_in kw (lower msg)) financial_keywords
              = false).
  { destruct (existsb _ financial_keywords) eqn:E; [|reflexivity].
    apply existsb_exists in E as [kw [Hin Hkw]].
    now rewrite (Hno kw Hin) in Hkw. }
  now rewrite E.
Qed.

End Screens.

Lemma cuenta_de_is_blocked_witness :
  check_input (U "Quiero abrir una " ++
      (U "cuenta" ++ U " " ++ U "de" ++ U " " ++ [97%N]) ++ U "horros")
  = (true, U "patrón", U "cu[ae]nta\s+de\s+\w+").
Proof.
  apply (@cuenta_de_is_blocked Latin1 (U "Quiero abrir una ") (U "cuenta")
           (U " ") (U "de") (U " ") (U "horros") (U "cuenta") 97%N).
  - vm_compute. left. reflexivity.
  - split; vm_compute; reflexivity.
  - split; vm_compute; reflexivity.
  - vm_compute. discriminate.
  - vm_compute. reflexivity.
  - vm_compute. repeat constructor.
  - vm_compute. discriminate.
  - vm_compute. reflexivity.
  - vm_compute. repeat constructor.
  - vm_compute. reflexivity.
  - vm_compute. reflexivity.
  - vm_compute. reflexivity.
Defined.

(** ** What a turn produces *)

Section TurnOutputs.
Context {UD : Unicode}.

Lemma get_random_response_in (l : list str) (draw : nat) :
  l <> [] -> In (get_random_response l draw) l.
Proof.
  intros H. unfold get_random_response. apply nth_In.
  apply Nat.mod_upper_bound. destruct l; [congruence | discriminate].
Qed.

(** X10. What a turn stopped at the input screen produces: one message on the
    chat surface, the warning sign followed by one of the six fixed
    responses, and one security event of type "input_blocked" that holds the
    detail [check_input] reported and the first 100 characters of the message
    as the user typed it, before masking.  None of it depends on the
    session. *)
Theorem blocked_input_turn_output :
  forall (session : Session) (message : str) (draw : nat),
    fst (fst (check_input (sanitize_financial_data message))) = true ->
    (exists r, In r responses_input_blocked /\
               ui (fst (on_message session message draw)) = [Send (U "⚠️ " ++ r)]) /\
    security_log (fst (on_message session message draw))
    = [ {| event_type := U "input_blocked";
           blocked_content := snd (check_input (sanitize_financial_data message));
           excerpt := firstn 100 message |} ] /\
    (forall session2 : Session,
       fst (on_message session2 message draw)
       = fst (on_message session message draw)).
Proof.
  intros session message draw. unfold on_message.
  destruct (check_input (sanitize_financial_data message)) as [[b t] d].
  cbn [fst snd]. intros ->. cbn [fst ui security_log]. repeat split.
  exists (get_random_response responses_input_blocked draw).
  split; [|reflexivity]. apply get_random_response_in.
  unfold responses_input_blocked. cbn [map]. discriminate.
Qed.

(** X11. What a turn produces when the response is blocked: every chunk of the
    response has been streamed to the chat surface before the check; the
    streamed message is then removed and a warning with one of the four fixed
    responses is sent; the security event is of type "output_blocked" and
    holds the detail [check_output] reported and the first 100 characters of
    the user's message as typed. *)
Theorem blocked_output_turn_output :
  forall (chain : Chain) (mem : ChatMessageHistory) (message : str) (draw : nat),
    fst (fst (check_input (sanitize_financial_data message))) = false ->
    fst (fst (check_output
                (concat (chain mem (sanitize_financial_data message))))) = true ->
    let session := {| memory := mem; agent := agent (on_chat_start chain) |} in
    let chunks := chain mem (sanitize_financial_data message) in
    (exists r, In r responses_output_blocked /\
               ui (fst (on_message session message draw))
               = map StreamToken chunks ++ [RemoveStreamed; Send (U "⚠️ " ++ r)]) /\
    security_log (fst (on_message session message draw))
    = [ {| event_type := U "output_blocked";
           blocked_content := snd (check_output (concat chunks));
           excerpt := firstn 100 message |} ].
Proof.
  intros chain mem message draw Hin Hout session chunks.
  unfold on_message. subst session chunks.
  destruct (check_input (sanitize_financial_data message)) as [[b t] d].
  cbn [fst] in Hin. subst b. cbn [agent on_chat_start memory].
  unfold RunnableWithMessageHistory.
  destruct (check_output
              (concat (chain mem (sanitize_financial_data message))))
    as [[b' t'] d'].
  cbn [fst snd] in *. subst b'. cbn [fst ui security_log]. split; [|reflexivity].
  exists (get_random_response responses_output_blocked draw).
  split; [|reflexivity]. apply get_random_response_in.
  unfold responses_output_blocked. cbn [map]. discriminate.
Qed.

(** X12. A message with a configured input keyword, in any casing, and no three
    digits in a row never reaches the generation pipeline: the session is as
    before and the chat surface gets one warning. *)
Theorem keyword_message_never_reaches_model :
  forall (session : Session) (pre k' post kw : str) (draw : nat),
    In kw palabras_in -> casing_of k' kw ->
    has_digit_run 3 (pre ++ k' ++ post) = false ->
    snd (on_message session (pre ++ k' ++ post) draw) = session /\
    exists k r,
      In k palabras_in /\ In r responses_input_blocked /\
      fst (on_message session (pre ++ k' ++ post) draw)
      = {| ui := [Send (U "⚠️ " ++ r)];
           security_log :=
             [ {| event_type := U "input_blocked";
                  blocked_content := k;
                  excerpt := firstn 100 (pre ++ k' ++ post) |} ] |}.
Proof.
  intros session pre k' post kw draw Hin Hc Hd.
  destruct (palabras_in_lowercase kw Hin) as [Hl Hkw].
  assert (Hocc : str_in (lower kw) (lower (pre ++ k' ++ post)) = true).
  { rewrite (lower_latin1 kw Hl), Hkw. now apply casing_found. }
  unfold on_message. rewrite (sanitize_without_digit_runs _ Hd).
  unfold check_input.
  destruct (first_palabra palabras_in (lower (pre ++ k' ++ post))) as [k|] eqn:E.
  - cbn [snd fst]. split; [reflexivity|].
    exists k, (get_random_response responses_input_blocked draw).
    repeat split.
    + now apply (first_palabra_in _ (lower (pre ++ k' ++ post))).
    + apply get_random_response_in.
      unfold responses_input_blocked. cbn [map]. discriminate.
  - rewrite (first_palabra_none _ _ E kw Hin) in Hocc. discriminate.
Qed.

(** X13. A card number in a message that passes the input screen does not reach
    the generation pipeline nor the history: the pipeline is run on the text
    with the card token in place of the number, and that text is what the
    history records, whether or not the response is blocked afterwards. *)
Theorem card_number_never_reaches_model :
  forall (chain : Chain) (mem : ChatMessageHistory)
         (pre b1 s1 b2 s2 b3 s3 b4 post : str) (draw : nat),
    length b1 = 4 -> Forall (fun c => isdecimal c = true) b1 ->
    length b2 = 4 -> Forall (fun c => isdecimal c = true) b2 ->
    length b3 = 4 -> Forall (fun c => isdecimal c = true) b3 ->
    length b4 = 4 -> Forall (fun c => isdecimal c = true) b4 ->
    is_card_sep s1 = true -> is_card_sep s2 = true -> is_card_sep s3 = true ->
    Forall (fun c => isdecimal c = false) pre ->
    Forall (fun c => isdecimal c = false) post ->
    word_at_head (rev pre) = false -> word_at_head post = false ->
    fst (fst (check_input (pre ++ U "[TARJETA-OCULTA]" ++ post))) = false ->
    let session := {| memory := mem; agent := agent (on_chat_start chain) |} in
    let masked := pre ++ U "[TARJETA-OCULTA]" ++ post in
    memory (snd (on_message session
                   (pre ++ b1 ++ s1 ++ b2 ++ s2 ++ b3 ++ s3 ++ b4 ++ post) draw))
    = mem ++ [ {| role := Human; content := masked |};
               {| role := AI; content := concat (chain mem masked) |} ] /\
    ndigits masked = 0.
Proof.
  intros chain mem pre b1 s1 b2 s2 b3 s3 b4 post draw L1 D1 L2 D2 L3 D3 L4 D4
    S1 S2 S3 Hpre Hpost Bpre Bpost Hin session masked.
  pose proof (card_mask pre b1 s1 b2 s2 b3 s3 b4 post L1 D1 L2 D2 L3 D3 L4 D4
                S1 S2 S3 Hpre Hpost Bpre Bpost) as E.
  split.
  - rewrite passed_input_memory_is_agents by (rewrite E; exact Hin).
    rewrite E. reflexivity.
  - subst masked.
    now rewrite !ndigits_app, (ndigits_none pre Hpre),
      (ndigits_none post Hpost), card_token_no_digit.
Qed.

End TurnOutputs.

Lemma blocked_input_turn_output_witness :
  (exists r, In r responses_input_blocked /\
     ui (fst (on_message (on_chat_start (fun _ _ => [U "Claro"]))
                (U "mi tarjeta es 4111 1111 1111 1111, quiero hackear") 0))
     = [Send (U "⚠️ " ++ r)]) /\
  security_log (fst (on_message (on_chat_start (fun _ _ => [U "Claro"]))
                (U "mi tarjeta es 4111 1111 1111 1111, quiero hackear") 0))
  = [ {| event_type := U "input_blocked";
         blocked_content :=
           snd (check_input
                  (sanitize_financial_data
                     (U "mi tarjeta es 4111 1111 1111 1111, quiero hackear")));
         excerpt :=
           firstn 100 (U "mi tarjeta es 4111 1111 1111 1111, quiero hackear") |} ] /\
  (forall session2 : Session,
     fst (on_message session2
            (U "mi tarjeta es 4111 1111 1111 1111, quiero hackear") 0)
     = fst (on_message (on_chat_start (fun _ _ => [U "Claro"]))
              (U "mi tarjeta es 4111 1111 1111 1111, quiero hackear") 0)).
Proof.
  apply (@blocked_input_turn_output Latin1
           (on_chat_start (fun _ _ => [U "Claro"]))
           (U "mi tarjeta es 4111 1111 1111 1111, quiero hackear") 0).
  vm_compute. reflexivity.
Defined.

Lemma blocked_output_turn_output_witness :
  (exists r, In r responses_output_blocked /\
     ui (fst (on_message
                {| memory := [];
                   agent := agent (on_chat_start (fun _ _ => [U "No "; U "sé"])) |}
                (U "hola") 1))
     = map StreamToken [U "No "; U "sé"]
       ++ [RemoveStreamed; Send (U "⚠️ " ++ r)]) /\
  security_log (fst (on_message
                {| memory := [];
                   agent := agent (on_chat_start (fun _ _ => [U "No "; U "sé"])) |}
                (U "hola") 1))
  = [ {| event_type := U "output_blocked";
         blocked_content := snd (check_output (concat [U "No "; U "sé"]));
         excerpt := firstn 100 (U "hola") |} ].
Proof.
  apply (@blocked_output_turn_output Latin1
           (fun _ _ => [U "No "; U "sé"]) [] (U "hola") 1).
  - vm_compute. reflexivity.
  - vm_compute. reflexivity.
Defined.

Lemma keyword_message_never_reaches_model_witness :
  snd (on_message (on_chat_start (fun _ _ => [U "Claro"]))
         (U "como " ++ U "Clonar Tarjeta" ++ U " en 2 pasos") 3)
  = on_chat_start (fun _ _ => [U "Claro"]) /\
  exists k r,
    In k palabras_in /\ In r responses_input_blocked /\
    fst (on_message (on_chat_start (fun _ _ => [U "Claro"]))
           (U "como " ++ U "Clonar Tarjeta" ++ U " en 2 pasos") 3)
    = {| ui := [Send (U "⚠️ " ++ r)];
         security_log :=
           [ {| event_type := U "input_blocked";
                blocked_content := k;
                excerpt :=
                  firstn 100 (U "como " ++ U "Clonar Tarjeta" ++ U " en 2 pasos") |} ] |}.
Proof.
  apply (@keyword_message_never_reaches_model Latin1
           (on_chat_start (fun _ _ => [U "Claro"]))
           (U "como ") (U "Clonar Tarjeta") (U " en 2 pasos")
           (U "clonar tarjeta") 3).
  - vm_compute. do 13 right. left. reflexivity.
  - split; vm_compute; reflexivity.
  - vm_compute. reflexivity.
Defined.

Lemma card_number_never_reaches_model_witness :
  memory (snd (on_message
                 {| memory := [];
                    agent := agent (on_chat_start (fun _ m => [U "Recibido: "; m])) |}
                 (U "pago con " ++ U "4111" ++ U "-" ++ U "1111" ++ U " "
                  ++ U "1111" ++ [] ++ U "1111" ++ U ", gracias") 0))
  = [] ++ [ {| role := Human;
               content := U "pago con " ++ U "[TARJETA-OCULTA]" ++ U ", gracias" |};
            {| role := AI;
               content :=
                 concat [U "Recibido: ";
                         U "pago con " ++ U "[TARJETA-OCULTA]" ++ U ", gracias"] |} ] /\
  ndigits (U "pago con " ++ U "[TARJETA-OCULTA]" ++ U ", gracias") = 0.
Proof.
  apply (@card_number_never_reaches_model Latin1
           (fun _ m => [U "Recibido: "; m]) []
           (U "pago con ") (U "4111") (U "-") (U "1111") (U " ") (U "1111") []
           (U "1111") (U ", gracias") 0);
    try (vm_compute; reflexivity); vm_compute; repeat constructor.
Defined.

(** ** What the client returns *)

Section ClientResults.
Variable http : nat -> str -> HttpOutcome.
Variable json_error_is_request_exception : bool.
Variable py_str : value -> str.

Lemma triplet_of_shape (k0 k1 k2 : str) (data v : value) :
  triplet_of k0 k1 k2 data = Ok v ->
  v = VNone \/ exists f a b c, v = triplet_dict k0 k1 k2 f a b c.
Proof.
  unfold triplet_of. step_res.
  - intros H. injection H as <-. right. unfold triplet_dict. eauto.
  - intros H. injection H as <-. now left.
Qed.

Lemma latest_value_of_shape (code : str) (data v : value) :
  latest_value_of code data = Ok v ->
  v = VNone \/ exists s p x d, v = latest_dict s code p x d.
Proof.
  unfold latest_value_of. step_res.
  - intros H. injection H as <-. right. unfold latest_dict. eauto.
  - intros H. injection H as <-. now left.
Qed.

Lemma settled_shape {A : Type} (r : res A) (f : A -> res value)
    (P : value -> Prop) :
  P VNone -> (forall a v, f a = Ok v -> P v) ->
  P match res_bind r f with
    | Ok v => v
    | Raise _ => VNone
    end.
Proof.
  intros H0 H. destruct r as [a|e]; cbn [res_bind]; [|exact H0].
  destruct (f a) as [v|e] eqn:E; [|exact H0]. now apply (H a).
Qed.

Lemma get_tipo_cambio_shape (log : list str) :
  exists v, get_tipo_cambio http json_error_is_request_exception log
            = (Ok v, log ++ [series_url tipo_cambio_codes]) /\
    (v = VNone \/ exists f a b c, v = tipo_cambio_dict f a b c).
Proof.
  rewrite get_tipo_cambio_eq. eexists. split; [reflexivity|].
  apply settled_shape; [now left|]. intros a v. apply triplet_of_shape.
Qed.

Lemma get_tasas_interes_shape (log : list str) :
  exists v, get_tasas_interes http json_error_is_request_exception log
            = (Ok v, log ++ [series_url tasas_codes]) /\
    (v = VNone \/ exists f a b c, v = tasas_dict f a b c).
Proof.
  rewrite get_tasas_interes_eq. eexists. split; [reflexivity|].
  apply settled_shape; [now left|]. intros a v. apply triplet_of_shape.
Qed.

Lemma get_latest_value_shape (code : str) (log : list str) :
  exists v, get_latest_value http json_error_is_request_exception code log
            = (Ok v, log ++ [series_url [code]]) /\
    (v = VNone \/ exists s p x d, v = latest_dict s code p x d).
Proof.
  rewrite get_latest_value_eq. eexists. split; [reflexivity|].
  apply settled_shape; [now left|]. intros a v. apply latest_value_of_shape.
Qed.

(** X18. The three client methods never raise and make exactly one request,
    whatever the service does; each returns [None] or a dictionary with
    exactly the keys of its own format. *)
Theorem client_methods_settle :
  forall (code : str) (log : list str),
    (exists v, get_tipo_cambio http json_error_is_request_exception log
               = (Ok v, log ++ [series_url tipo_cambio_codes]) /\
       (v = VNone \/ exists f a b c, v = tipo_cambio_dict f a b c)) /\
    (exists v, get_tasas_interes http json_error_is_request_exception log
               = (Ok v, log ++ [series_url tasas_codes]) /\
       (v = VNone \/ exists f a b c, v = tasas_dict f a b c)) /\
    (exists v, get_latest_value http json_error_is_request_exception code log
               = (Ok v, log ++ [series_url [code]]) /\
       (v = VNone \/ exists s p x d, v = latest_dict s code p x d)).
Proof.
  intros code log. split; [apply get_tipo_cambio_shape|].
  split; [apply get_tasas_interes_shape | apply get_latest_value_shape].
Qed.

(** *** Formatting what the client returns *)

Lemma format_tipo_cambio (f a b c : value) :
  format_for_prompt py_str (tipo_cambio_dict f a b c)
  = Ok (join NL [U "💱 Tipo de Cambio (" ++ py_str f ++ U ")";
                 U "   Promedio: S/ " ++ py_str a;
                 U "   Compra: S/ " ++ py_str b;
                 U "   Venta: S/ " ++ py_str c]).
Proof. vm_compute. reflexivity. Qed.

Lemma format_tasas (f a b c : value) :
  format_for_prompt py_str (tasas_dict f a b c)
  = Ok (join NL [U "📈 Tasas de Interés (" ++ py_str f ++ U ")";
                 U "   Tasa de Referencia BCRP: " ++ py_str a ++ U "%";
                 U "   TAMN Depósitos: " ++ py_str b ++ U "%";
                 U "   TAMEX Depósitos: " ++ py_str c ++ U "%"]).
Proof. vm_compute. reflexivity. Qed.

Lemma format_latest (s : value) (code : str) (p x d : value) :
  format_for_prompt py_str (latest_dict s code p x d)
  = Ok (join NL ([U "📊 " ++ py_str s;
                  U "   Periodo: " ++ py_str p;
                  U "   Valor: " ++ py_str x]
                 ++ if truthy d then [U "   " ++ py_str d] else [])).
Proof.
  unfold format_for_prompt, latest_dict.
  cbn [truthy length Nat.eqb negb py_contains py_getitem py_get dict_lookup].
  eval_str_eqb. cbv iota. cbn [res_bind].
  destruct (truthy d); reflexivity.
Qed.

End ClientResults.

Section ContextFrame.
Context {UD : Unicode}.
Variable http : nat -> str -> HttpOutcome.
Variable json_error_is_request_exception : bool.
Variable py_str : value -> str.

Lemma append_none (prefix : str) (parts log : list str) :
  append_formatted py_str prefix VNone parts log = (Ok parts, log).
Proof. reflexivity. Qed.

Lemma append_tipo_cambio (prefix : str) (f a b c : value)
    (parts log : list str) :
  append_formatted py_str prefix (tipo_cambio_dict f a b c) parts log
  = (Ok (parts ++ [prefix ++ join NL [U "💱 Tipo de Cambio (" ++ py_str f ++ U ")";
                                     U "   Promedio: S/ " ++ py_str a;
                                     U "   Compra: S/ " ++ py_str b;
                                     U "   Venta: S/ " ++ py_str c]]), log).
Proof.
  unfold append_formatted. rewrite format_tipo_cambio. reflexivity.
Qed.

Lemma append_tasas (prefix : str) (f a b c : value) (parts log : list str) :
  append_formatted py_str prefix (tasas_dict f a b c) parts log
  = (Ok (parts ++ [prefix ++ join NL
                     [U "📈 Tasas de Interés (" ++ py_str f ++ U ")";
                      U "   Tasa de Referencia BCRP: " ++ py_str a ++ U "%";
                      U "   TAMN Depósitos: " ++ py_str b ++ U "%";
                      U "   TAMEX Depósitos: " ++ py_str c ++ U "%"]]), log).
Proof.
  unfold append_formatted. rewrite format_tasas. reflexivity.
Qed.

Lemma append_latest (prefix : str) (s : value) (code : str) (p x d : value)
    (parts log : list str) :
  exists text,
    append_formatted py_str prefix (latest_dict s code p x d) parts log
    = (Ok (parts ++ [prefix ++ text]), log).
Proof.
  unfold append_formatted. rewrite format_latest. eexists. reflexivity.
Qed.

Lemma context_for_tipo_cambio (log : list str) :
  exists blocks,
    economic_context_for http json_error_is_request_exception py_str
      (U "tipo_cambio") log
    = (Ok (join NL ([context_header] ++ blocks ++ [context_footer])),
       log ++ [series_url tipo_cambio_codes]) /\ length blocks <= 1.
Proof.
  unfold economic_context_for. cbv zeta. eval_str_eqb. cbv iota.
  unfold try_except, bind.
  destruct (get_tipo_cambio_shape http json_error_is_request_exception log)
    as [v [E [-> | [f [a [b [c ->]]]]]]]; rewrite E.
  - rewrite append_none. exists []. split; [reflexivity | cbn; lia].
  - rewrite append_tipo_cambio. unfold ret. eexists [_].
    split; [reflexivity | cbn; lia].
Qed.

Lemma context_for_tasas (log : list str) :
  exists blocks,
    economic_context_for http json_error_is_request_exception py_str
      (U "tasas") log
    = (Ok (join NL ([context_header] ++ blocks ++ [context_footer])),
       log ++ [series_url tasas_codes]) /\ length blocks <= 1.
Proof.
  unfold economic_context_for. cbv zeta. eval_str_eqb. cbv iota.
  unfold try_except, bind.
  destruct (get_tasas_interes_shape http json_error_is_request_exception log)
    as [v [E [-> | [f [a [b [c ->]]]]]]]; rewrite E.
  - rewrite append_none. exists []. split; [reflexivity | cbn; lia].
  - rewrite append_tasas. unfold ret. eexists [_].
    split; [reflexivity | cbn; lia].
Qed.

Lemma context_for_inflacion (log : list str) :
  exists blocks,
    economic_context_for http json_error_is_request_exception py_str
      (U "inflacion") log
    = (Ok (join NL ([context_header] ++ blocks ++ [context_footer])),
       log ++ [series_url [SeriesCodes.INFLACION_ANUAL]]) /\ length blocks <= 1.
Proof.
  unfold economic_context_for. cbv zeta. eval_str_eqb. cbv iota.
  unfold try_except, bind, get_inflacion.
  destruct (get_latest_value_shape http json_error_is_request_exception
              SeriesCodes.INFLACION_ANUAL log)
    as [v [E [-> | [s [p [x [d ->]]]]]]]; rewrite E.
  - rewrite append_none. exists []. split; [reflexivity | cbn; lia].
  - destruct (append_latest [] s SeriesCodes.INFLACION_ANUAL p x d
                [context_header] (log ++ [series_url [SeriesCodes.INFLACION_ANUAL]]))
      as [text Et].
    rewrite Et. unfold ret. eexists [_]. split; [reflexivity | cbn; lia].
Qed.

Lemma context_for_general (log : list str) :
  exists blocks,
    economic_context_for http json_error_is_request_exception py_str
      (U "general") log
    = (Ok (join NL ([context_header] ++ blocks ++ [context_footer])),
       log ++ [series_url tipo_cambio_codes; series_url tasas_codes])
    /\ length blocks <= 2.
Proof.
  unfold economic_context_for. cbv zeta. eval_str_eqb. cbv iota.
  unfold try_except, bind.
  destruct (get_tipo_cambio_shape http json_error_is_request_exception log)
    as [v [E S]]; rewrite E.
  destruct (get_tasas_interes_shape http json_error_is_request_exception
              (log ++ [series_url tipo_cambio_codes])) as [v2 [E2 S2]].
  rewrite E2. rewrite <- app_assoc. cbn [app].
  destruct S as [-> | [f [a [b [c ->]]]]];
    destruct S2 as [-> | [f2 [a2 [b2 [c2 ->]]]]];
    rewrite ?append_none, ?append_tipo_cambio; cbv iota beta;
    rewrite ?append_none, ?append_tasas; unfold ret.
  - exists []. split; [reflexivity | cbn; lia].
  - eexists [_]. split; [reflexivity | cbn; lia].
  - eexists [_]. split; [reflexivity | cbn; lia].
  - eexists [_; _]. split; [rewrite <- !app_assoc; reflexivity | cbn; lia].
Qed.

Lemma economic_context_frame :
  forall (message q : str) (log : list str),
    detect_economic_query message = Some q ->
    exists blocks,
      get_economic_context http json_error_is_request_exception py_str
        message log
      = (Ok (join NL ([context_header] ++ blocks ++ [context_footer])),
         log ++ intent_requests q) /\
      length blocks <= length (intent_requests q) /\
      join NL ([context_header] ++ blocks ++ [context_footer]) <> [].
Proof.
  intros message q log H.
  assert (Hne : forall blocks,
            join NL ([context_header] ++ blocks ++ [context_footer]) <> []).
  { intros blocks. cbn [app join].
    destruct (blocks ++ [context_footer]) eqn:E.
    - destruct blocks; discriminate.
    - unfold context_header.
      replace (U "--- DATOS ECONÓMICOS ACTUALIZADOS (BCRP) ---")
        with (45%N :: U "-- DATOS ECONÓMICOS ACTUALIZADOS (BCRP) ---")
        by (vm_compute; reflexivity).
      discriminate. }
  unfold get_economic_context. rewrite H.
  assert (Hq : q <> []).
  { destruct (first_query_type_nonempty _ _ H) as [-> | [-> | [-> | ->]]];
      vm_compute; discriminate. }
  destruct q as [|c0 q']; [congruence|]. set (q := c0 :: q') in *.
  destruct (first_query_type_nonempty _ _ H) as [E | [E | [E | E]]];
    rewrite E; unfold intent_requests; eval_str_eqb; cbv iota.
  - destruct (context_for_tipo_cambio log) as [blocks [Eb Hb]].
    exists blocks. rewrite Eb. repeat split; auto.
  - destruct (context_for_tasas log) as [blocks [Eb Hb]].
    exists blocks. rewrite Eb. repeat split; auto.
  - destruct (context_for_inflacion log) as [blocks [Eb Hb]].
    exists blocks. rewrite Eb. repeat split; auto.
  - destruct (context_for_general log) as [blocks [Eb Hb]].
    exists blocks. rewrite Eb. repeat split; auto.
Qed.

(** X23. When a message has an economic intent, [get_economic_context] never
    raises and never returns the empty string, whatever the service does: the
    result is the header, at most one formatted block per request, and the
    source line; and the requests made are exactly those of the intent (one,
    or two for the general intent, exchange rates first).  The [except] branch
    that returns the empty string is never the one taken. *)
Theorem economic_context_is_framed :
  forall (message q : str) (log : list str),
    detect_economic_query message = Some q ->
    exists blocks,
      get_economic_context http json_error_is_request_exception py_str
        message log
      = (Ok (join NL ([context_header] ++ blocks ++ [context_footer])),
         log ++ intent_requests q) /\
      length blocks <= length (intent_requests q) /\
      join NL ([context_header] ++ blocks ++ [context_footer]) <> [].
Proof. exact economic_context_frame. Qed.

End ContextFrame.

Section Requests.
Variable http : nat -> str -> HttpOutcome.
Variable json_error_is_request_exception : bool.

(** X19. With ten codes or fewer, [get_series] makes exactly one request, to
    the URL made of the base URL, the codes joined by "-", the format, the
    periods and the language.  A request that fails, or whose status is an
    error, gives the error dictionary with the message of the failure.
    Otherwise a format other than json gives the text of the response under
    "raw", the body not being parsed, and the json format gives the parsed
    body; a json body that does not parse gives the error dictionary where
    the parse error is a [RequestException], and is raised where it is not.
    So nothing is raised for a format other than json, or where the parse
    error is a [RequestException]. *)
Theorem get_series_settles :
  forall (codes : list str) (fmt : str) (sp ep : option str) (lang : str)
         (log : list str),
    length codes <= 10 ->
    let url := join (U "/") ([BCRPConfig.BASE_URL; join (U "-") codes; fmt]
                             ++ url_tail sp ep lang) in
    let result := get_series http json_error_is_request_exception codes fmt
                    sp ep lang log in
    snd result = log ++ [url] /\
    (forall e, http (length log) url = RequestFailed e \/
               http (length log) url = HttpErrorStatus e ->
               fst result = Ok (error_dict e)) /\
    (forall text body, http (length log) url = Good text body ->
       fst result = Ok (if str_eqb fmt (U "json") then body
                        else VDict [(U "raw", VStr text)])) /\
    (forall text e, http (length log) url = BadJson text e ->
       fst result = if str_eqb fmt (U "json")
                    then if json_error_is_request_exception
                         then Ok (error_dict e)
                         else Raise JSONDecodeError
                    else Ok (VDict [(U "raw", VStr text)])) /\
    (json_error_is_request_exception = true \/ str_eqb fmt (U "json") = false ->
     exists v, fst result = Ok v).
Proof.
  intros codes fmt sp ep lang log H url result.
  assert (Eurl : forall parts,
            (if negb (str_eqb lang (U "esp")) then parts ++ [lang] else parts)
            = parts ++ (if str_eqb lang (U "esp") then [] else [lang])).
  { intros parts. destruct (str_eqb lang (U "esp")); cbn [negb];
      [now rewrite app_nil_r | reflexivity]. }
  assert (Er : result
               = match http (length log) url with
                 | RequestFailed e | HttpErrorStatus e =>
                     (Ok (error_dict e), log ++ [url])
                 | BadJson text e =>
                     if str_eqb fmt (U "json")
                     then if json_error_is_request_exception
                          then (Ok (error_dict e), log ++ [url])
                          else (Raise JSONDecodeError, log ++ [url])
                     else (Ok (VDict [(U "raw", VStr text)]), log ++ [url])
                 | Good text body =>
                     if str_eqb fmt (U "json") then (Ok body, log ++ [url])
                     else (Ok (VDict [(U "raw", VStr text)]), log ++ [url])
                 end).
  { unfold result, get_series. apply Nat.ltb_ge in H. rewrite H. cbv zeta.
    rewrite Eurl.
    assert (Eu : join (U "/")
                   (match sp with
                    | Some (c :: sp0) =>
                        match ep with
                        | Some (c' :: ep0) =>
                            [BCRPConfig.BASE_URL; join (U "-") codes; fmt]
                            ++ [c :: sp0] ++ [c' :: ep0]
                        | _ => [BCRPConfig.BASE_URL; join (U "-") codes; fmt]
                               ++ [c :: sp0]
                        end
                    | _ => [BCRPConfig.BASE_URL; join (U "-") codes; fmt]
                    end ++ (if str_eqb lang (U "esp") then [] else [lang]))
                 = url).
    { unfold url, url_tail. f_equal.
      destruct sp as [[|c sp0]|]; [reflexivity| |reflexivity].
      destruct ep as [[|c' ep0]|]; now rewrite <- !app_assoc. }
    rewrite Eu. reflexivity. }
  rewrite Er. clear Er.
  refine (conj _ (conj _ (conj _ (conj _ _)))).
  - destruct (http (length log) url); [reflexivity | reflexivity | |];
      destruct (str_eqb fmt (U "json")); try reflexivity.
    now destruct json_error_is_request_exception.
  - intros e [E | E]; now rewrite E.
  - intros text body E. rewrite E. now destruct (str_eqb fmt (U "json")).
  - intros text e E. rewrite E. destruct (str_eqb fmt (U "json"));
      [|reflexivity]. now destruct json_error_is_request_exception.
  - intros Hor. destruct (http (length log) url); try (eexists; reflexivity);
      destruct (str_eqb fmt (U "json")); try (eexists; reflexivity).
    destruct Hor as [-> | Hf]; [eexists; reflexivity | discriminate].
Qed.

Lemma py_index_head (x : value) (l : list value) :
  py_index (VList (x :: l)) 0 = Ok x.
Proof.
  unfold py_index. cbv zeta beta. cbn [length].
  replace (0 <? 0)%Z with false by reflexivity.
  replace (0 <=? 0)%Z with true by reflexivity.
  destruct (Z.ltb_spec 0 (Z.of_nat (S (length l)))); [|lia].
  reflexivity.
Qed.

Lemma py_index_empty : py_index (VList []) 0 = Raise IndexError.
Proof. reflexivity. Qed.

Lemma has_periods_last (d p : list (str * value)) (earlier : list value) :
  dict_lookup (U "periods") d = Some (VList (earlier ++ [VDict p])) ->
  has_periods (VDict d) = Ok true.
Proof.
  intros Hp. unfold has_periods. cbn [py_contains py_getitem res_bind].
  rewrite Hp. cbn [res_bind truthy]. rewrite length_app. cbn [length].
  now rewrite Nat.add_1_r.
Qed.

Lemma latest_value_of_periods (code : str) (d p c s0 : list (str * value))
    (earlier more vs : list value) (v0 : value) :
  dict_lookup (U "periods") d = Some (VList (earlier ++ [VDict p])) ->
  dict_lookup (U "config") d = Some (VDict c) ->
  dict_lookup (U "series") c = Some (VList (VDict s0 :: more)) ->
  dict_lookup (U "values") p = Some (VList (v0 :: vs)) ->
  latest_value_of code (VDict d)
  = Ok (latest_dict
          match dict_lookup (U "name") s0 with Some x => x | None => VStr code end
          code
          match dict_lookup (U "name") p with Some x => x | None => VNone end
          v0
          match dict_lookup code SERIES_DESCRIPTIONS with
          | Some x => x
          | None => VStr []
          end).
Proof.
  intros Hp Hc Hs Hv. unfold latest_value_of.
  rewrite (has_periods_last d p earlier Hp).
  cbn [res_bind py_getitem]. rewrite Hp. cbn [res_bind].
  rewrite py_index_last. cbn [res_bind py_get]. rewrite Hc.
  cbn [res_bind py_get]. rewrite Hs. cbn [res_bind].
  rewrite py_index_head. cbn [res_bind py_get]. rewrite Hv.
  cbn [res_bind]. rewrite py_index_head. cbn [res_bind]. reflexivity.
Qed.

Lemma latest_value_of_no_values (code : str) (d p : list (str * value))
    (earlier : list value) :
  dict_lookup (U "periods") d = Some (VList (earlier ++ [VDict p])) ->
  dict_lookup (U "values") p = Some (VList []) ->
  exists e, latest_value_of code (VDict d) = Raise e.
Proof.
  intros Hp Hv. unfold latest_value_of.
  rewrite (has_periods_last d p earlier Hp).
  cbn [res_bind py_getitem]. rewrite Hp. cbn [res_bind].
  rewrite py_index_last. cbn [res_bind py_get].
  destruct (py_get _ (U "series") _) as [series|]; cbn [res_bind];
    [|eexists; reflexivity].
  destruct (py_index series 0) as [series0|]; cbn [res_bind];
    [|eexists; reflexivity].
  destruct (py_get series0 (U "name") _) as [nm|]; cbn [res_bind];
    [|eexists; reflexivity].
  rewrite Hv. cbn [res_bind]. rewrite py_index_empty. eexists. reflexivity.
Qed.

(** X20. [get_tasas_interes] makes one request, for the reference rate and the
    two deposit rates, and on a response with periods reads the last period
    only: "tasa_referencia", "tamn_depositos" and "tamex_depositos" are the
    values at positions 0, 1 and 2, and [None] where the list is shorter. *)
Theorem interest_rates_by_position :
  forall (log : list str) (text : str) (d p : list (str * value))
         (earlier vs : list value),
    http (length log) (series_url tasas_codes) = Good text (VDict d) ->
    dict_lookup (U "periods") d = Some (VList (earlier ++ [VDict p])) ->
    dict_lookup (U "values") p = Some (VList vs) ->
    get_tasas_interes http json_error_is_request_exception log
    = (Ok (tasas_dict
             match dict_lookup (U "name") p with Some x => x | None => VNone end
             (nth 0 vs VNone) (nth 1 vs VNone) (nth 2 vs VNone)),
       log ++ [U "https://estadisticas.bcrp.gob.pe/estadisticas/series/api/PD04711PD-PD04718PD-PD04719PD/json"]).
Proof.
  intros log text d p earlier vs Hh Hp Hv.
  rewrite get_tasas_interes_eq, Hh. cbn [series_result res_bind].
  rewrite (triplet_of_periods _ _ _ d p earlier vs Hp Hv).
  replace (series_url tasas_codes)
    with (U "https://estadisticas.bcrp.gob.pe/estadisticas/series/api/PD04711PD-PD04718PD-PD04719PD/json")
    by (vm_compute; reflexivity).
  reflexivity.
Qed.

(** X21. [get_latest_value] on a response with periods and a series
    description: the name is that of the first series (the code when it has
    none), the period and the value are the last period's name and first
    value, and the description is the one of [SERIES_DESCRIPTIONS] for the
    code (empty for a code it does not list). *)
Theorem latest_value_of_last_period :
  forall (code : str) (log : list str) (text : str)
         (d p c s0 : list (str * value)) (earlier more vs : list value)
         (v0 : value),
    http (length log) (series_url [code]) = Good text (VDict d) ->
    dict_lookup (U "periods") d = Some (VList (earlier ++ [VDict p])) ->
    dict_lookup (U "config") d = Some (VDict c) ->
    dict_lookup (U "series") c = Some (VList (VDict s0 :: more)) ->
    dict_lookup (U "values") p = Some (VList (v0 :: vs)) ->
    get_latest_value http json_error_is_request_exception code log
    = (Ok (latest_dict
             match dict_lookup (U "name") s0 with
             | Some x => x
             | None => VStr code
             end
             code
             match dict_lookup (U "name") p with Some x => x | None => VNone end
             v0
             match dict_lookup code SERIES_DESCRIPTIONS with
             | Some x => x
             | None => VStr []
             end),
       log ++ [series_url [code]]).
Proof.
  intros code log text d p c s0 earlier more vs v0 Hh Hp Hc Hs Hv.
  rewrite get_latest_value_eq, Hh. cbn [series_result res_bind].
  now rewrite (latest_value_of_periods code d p c s0 earlier more vs v0
                 Hp Hc Hs Hv).
Qed.

(** X22. A last period with an empty list of values: [get_latest_value] returns
    [None] (taking the first value fails, and the failure is swallowed),
    while [get_tipo_cambio] on such a body returns its dictionary with the
    three rates set to [None]. *)
Theorem empty_values_latest_and_triplet :
  forall (code : str) (log : list str) (text : str) (d p : list (str * value))
         (earlier : list value),
    (forall url, http (length log) url = Good text (VDict d)) ->
    dict_lookup (U "periods") d = Some (VList (earlier ++ [VDict p])) ->
    dict_lookup (U "values") p = Some (VList []) ->
    get_latest_value http json_error_is_request_exception code log
    = (Ok VNone, log ++ [series_url [code]]) /\
    get_tipo_cambio http json_error_is_request_exception log
    = (Ok (tipo_cambio_dict
             match dict_lookup (U "name") p with Some x => x | None => VNone end
             VNone VNone VNone),
       log ++ [series_url tipo_cambio_codes]).
Proof.
  intros code log text d p earlier Hh Hp Hv. split.
  - rewrite get_latest_value_eq, Hh. cbn [series_result res_bind].
    destruct (latest_value_of_no_values code d p earlier Hp Hv) as [e E].
    now rewrite E.
  - rewrite get_tipo_cambio_eq, Hh. cbn [series_result res_bind].
    now rewrite (triplet_of_periods _ _ _ d p earlier [] Hp Hv).
Qed.

End Requests.

Section Intents.
Context {UD : Unicode}.
Variable http : nat -> str -> HttpOutcome.
Variable json_error_is_request_exception : bool.
Variable py_str : value -> str.

Lemma query_keywords_lowercase :
  forall q kws kw, In (q, kws) query_patterns -> In kw kws ->
                   map lower1 kw = kw.
Proof.
  assert (H : forallb (fun p => forallb (fun kw => str_eqb (map lower1 kw) kw)
                                  (snd p)) query_patterns = true)
    by (vm_compute; reflexivity).
  intros q kws kw Hin Hkw. rewrite forallb_forall in H.
  specialize (H _ Hin). cbn [snd] in H. rewrite forallb_forall in H.
  specialize (H _ Hkw). now apply str_eqb_eq in H.
Qed.

Lemma first_query_type_at (l : list (str * list str)) (m : str) :
  forall (i : nat) (q : str) (kws : list str),
    nth_error l i = Some (q, kws) ->
    existsb (fun keyword => str_in keyword m) kws = true ->
    (forall j q2 kws2 kw2, j < i -> nth_error l j = Some (q2, kws2) ->
                           In kw2 kws2 -> str_in kw2 m = false) ->
    first_query_type l m = Some q.
Proof.
  induction l as [|[q0 kws0] l IH]; intros i q kws Hn He Hbefore.
  - destruct i; discriminate.
  - cbn [first_query_type]. destruct i as [|i]; cbn [nth_error] in Hn.
    + injection Hn as -> ->. now rewrite He.
    + destruct (existsb (fun keyword => str_in keyword m) kws0) eqn:E0.
      * apply existsb_exists in E0 as [kw0 [Hin0 Hkw0]].
        rewrite (Hbefore 0 q0 kws0 kw0) in Hkw0;
          [discriminate | lia | reflexivity | exact Hin0].
      * apply (IH i q kws Hn He). intros j q2 kws2 kw2 Hj Hnj.
        apply (Hbefore (S j) q2 kws2 kw2); [lia | exact Hnj].
Qed.

(** X25. The intent of a message is the first entry of the keyword table, in
    the order tipo_cambio, tasas, inflacion, general, one of whose keywords
    the message holds: a message that holds a keyword of an entry, in any
    casing, and no keyword of the entries before it, has that entry's
    intent. *)
Theorem intent_is_first_listed :
  forall (msg pre k' post kw q : str) (kws : list str) (i : nat),
    nth_error query_patterns i = Some (q, kws) -> In kw kws ->
    casing_of k' kw ->
    msg = pre ++ k' ++ post ->
    (forall j q2 kws2 kw2, j < i -> nth_error query_patterns j = Some (q2, kws2) ->
                           In kw2 kws2 -> str_in kw2 (lower msg) = false) ->
    detect_economic_query msg = Some q.
Proof.
  intros msg pre k' post kw q kws i Hn Hkw Hc -> Hbefore.
  unfold detect_economic_query.
  apply (first_query_type_at _ _ i q kws Hn); [|exact Hbefore].
  apply existsb_exists. exists kw. split; [exact Hkw|].
  apply casing_found; [exact Hc|].
  apply (query_keywords_lowercase q kws kw); [|exact Hkw].
  now apply (nth_error_In _ i).
Qed.

(** X26. An exchange-rate query answered with a response that has periods: the
    context is the header, the four lines of the exchange-rate block with the
    date and the values at positions 0, 1 and 2 of the last period, and the
    source line, joined by newlines. *)
Theorem exchange_rate_context_text :
  forall (message : str) (log : list str) (text : str)
         (d p : list (str * value)) (earlier vs : list value),
    detect_economic_query message = Some (U "tipo_cambio") ->
    http (length log) (series_url tipo_cambio_codes) = Good text (VDict d) ->
    dict_lookup (U "periods") d = Some (VList (earlier ++ [VDict p])) ->
    dict_lookup (U "values") p = Some (VList vs) ->
    get_economic_context http json_error_is_request_exception py_str message log
    = (Ok (join NL
             [context_header;
              join NL
                [U "💱 Tipo de Cambio ("
                 ++ py_str match dict_lookup (U "name") p with
                           | Some x => x
                           | None => VNone
                           end ++ U ")";
                 U "   Promedio: S/ " ++ py_str (nth 0 vs VNone);
                 U "   Compra: S/ " ++ py_str (nth 1 vs VNone);
                 U "   Venta: S/ " ++ py_str (nth 2 vs VNone)];
              context_footer]),
       log ++ [series_url tipo_cambio_codes]).
Proof.
  intros message log text d p earlier vs Hq Hh Hp Hv.
  unfold get_economic_context. rewrite Hq.
  replace (U "tipo_cambio") with (116%N :: U "ipo_cambio")
    by (vm_compute; reflexivity).
  cbv iota.
  replace (116%N :: U "ipo_cambio") with (U "tipo_cambio")
    by (vm_compute; reflexivity).
  unfold economic_context_for. cbv zeta. rewrite str_eqb_refl.
  unfold try_except, bind.
  rewrite get_tipo_cambio_eq, Hh. cbn [series_result res_bind].
  rewrite (triplet_of_periods _ _ _ d p earlier vs Hp Hv).
  pose proof (append_tipo_cambio py_str []
                match dict_lookup (U "name") p with Some x => x | None => VNone end
                (nth 0 vs VNone) (nth 1 vs VNone) (nth 2 vs VNone)
                [context_header] (log ++ [series_url tipo_cambio_codes])) as A.
  unfold tipo_cambio_dict, triplet_dict in A. rewrite A.
  unfold ret. cbn [app]. reflexivity.
Qed.

(** X27. A general-indicators query answered with two responses that have
    periods: exchange rates are requested first and interest rates second,
    and the context holds the exchange-rate block, an empty line, and the
    interest-rate block between the header and the source line. *)
Theorem general_context_text :
  forall (message : str) (log : list str) (text1 text2 : str)
         (d1 p1 d2 p2 : list (str * value)) (earlier1 vs1 earlier2 vs2 : list value),
    detect_economic_query message = Some (U "general") ->
    http (length log) (series_url tipo_cambio_codes) = Good text1 (VDict d1) ->
    dict_lookup (U "periods") d1 = Some (VList (earlier1 ++ [VDict p1])) ->
    dict_lookup (U "values") p1 = Some (VList vs1) ->
    http (S (length log)) (series_url tasas_codes) = Good text2 (VDict d2) ->
    dict_lookup (U "periods") d2 = Some (VList (earlier2 ++ [VDict p2])) ->
    dict_lookup (U "values") p2 = Some (VList vs2) ->
    get_economic_context http json_error_is_request_exception py_str message log
    = (Ok (join NL
             [context_header;
              join NL
                [U "💱 Tipo de Cambio ("
                 ++ py_str match dict_lookup (U "name") p1 with
                           | Some x => x
                           | None => VNone
                           end ++ U ")";
                 U "   Promedio: S/ " ++ py_str (nth 0 vs1 VNone);
                 U "   Compra: S/ " ++ py_str (nth 1 vs1 VNone);
                 U "   Venta: S/ " ++ py_str (nth 2 vs1 VNone)];
              NL ++ join NL
                [U "📈 Tasas de Interés ("
                 ++ py_str match dict_lookup (U "name") p2 with
                           | Some x => x
                           | None => VNone
                           end ++ U ")";
                 U "   Tasa de Referencia BCRP: " ++ py_str (nth 0 vs2 VNone) ++ U "%";
                 U "   TAMN Depósitos: " ++ py_str (nth 1 vs2 VNone) ++ U "%";
                 U "   TAMEX Depósitos: " ++ py_str (nth 2 vs2 VNone) ++ U "%"];
              context_footer]),
       log ++ [series_url tipo_cambio_codes; series_url tasas_codes]).
Proof.
  intros message log text1 text2 d1 p1 d2 p2 earlier1 vs1 earlier2 vs2
    Hq Hh1 Hp1 Hv1 Hh2 Hp2 Hv2.
  unfold get_economic_context. rewrite Hq.
  replace (U "general") with (103%N :: U "eneral") by (vm_compute; reflexivity).
  cbv iota.
  replace (103%N :: U "eneral") with (U "general") by (vm_compute; reflexivity).
  unfold economic_context_for. cbv zeta. eval_str_eqb. cbv iota.
  unfold try_except, bind.
  rewrite get_tipo_cambio_eq, Hh1. cbn [series_result res_bind].
  rewrite (triplet_of_periods _ _ _ d1 p1 earlier1 vs1 Hp1 Hv1).
  rewrite get_tasas_interes_eq.
  replace (length (log ++ [series_url tipo_cambio_codes])) with (S (length log))
    by (rewrite length_app; cbn [length]; lia).
  rewrite Hh2. cbn [series_result res_bind].
  rewrite (triplet_of_periods _ _ _ d2 p2 earlier2 vs2 Hp2 Hv2).
  pose proof (append_tipo_cambio py_str []
                match dict_lookup (U "name") p1 with Some x => x | None => VNone end
                (nth 0 vs1 VNone) (nth 1 vs1 VNone) (nth 2 vs1 VNone)) as A.
  unfold tipo_cambio_dict, triplet_dict in A. rewrite A.
  pose proof (append_tasas py_str NL
                match dict_lookup (U "name") p2 with Some x => x | None => VNone end
                (nth 0 vs2 VNone) (nth 1 vs2 VNone) (nth 2 vs2 VNone)) as B.
  unfold tasas_dict, triplet_dict in B. rewrite B.
  unfold ret. cbv beta iota. rewrite <- (app_assoc log). cbn [app].
  reflexivity.
Qed.

End Intents.

Lemma economic_context_is_framed_witness :
  exists blocks,
    get_economic_context (fun _ _ => HttpErrorStatus (U "503 Server Error")) false
      sample_py_str (U "a cuanto esta el dolar") []
    = (Ok (join NL ([context_header] ++ blocks ++ [context_footer])),
       [] ++ intent_requests (U "tipo_cambio")) /\
    length blocks <= length (intent_requests (U "tipo_cambio")) /\
    join NL ([context_header] ++ blocks ++ [context_footer]) <> [].
Proof.
  apply (@economic_context_is_framed Latin1
           (fun _ _ => HttpErrorStatus (U "503 Server Error")) false
           sample_py_str (U "a cuanto esta el dolar") (U "tipo_cambio") []).
  vm_compute. reflexivity.
Defined.

Lemma get_series_settles_witness :
  get_series (fun _ _ => BadJson (U "a;b") (U "Expecting value")) false
    [SeriesCodes.PBI_REAL] (U "csv") (Some (U "2020-1")) None (U "ing") []
  = (Ok (VDict [(U "raw", VStr (U "a;b"))]),
     [U "https://estadisticas.bcrp.gob.pe/estadisticas/series/api/PN01755AQ/csv/2020-1/ing"]).
Proof.
  pose proof (get_series_settles
                (fun _ _ => BadJson (U "a;b") (U "Expecting value")) false
                [SeriesCodes.PBI_REAL] (U "csv") (Some (U "2020-1")) None
                (U "ing") []) as H.
  cbv zeta in H. cbn [length] in H.
  destruct (H ltac:(lia)) as (H1 & _ & _ & H4 & _).
  specialize (H4 (U "a;b") (U "Expecting value") eq_refl).
  apply injective_projections.
  - cbn [fst]. rewrite H4. vm_compute. reflexivity.
  - cbn [snd]. rewrite H1. vm_compute. reflexivity.
Defined.

Lemma interest_rates_by_position_witness :
  get_tasas_interes (fun _ _ => Good [] short_response) true []
  = (Ok (tasas_dict
           match dict_lookup (U "name")
                   [(U "name", VStr (U "Sep.2025"));
                    (U "values", VList [VStr (U "4.50"); VStr (U "14.2")])] with
           | Some x => x
           | None => VNone
           end
           (nth 0 [VStr (U "4.50"); VStr (U "14.2")] VNone)
           (nth 1 [VStr (U "4.50"); VStr (U "14.2")] VNone)
           (nth 2 [VStr (U "4.50"); VStr (U "14.2")] VNone)),
     [] ++ [U "https://estadisticas.bcrp.gob.pe/estadisticas/series/api/PD04711PD-PD04718PD-PD04719PD/json"]).
Proof.
  apply (interest_rates_by_position (fun _ _ => Good [] short_response) true
           [] []
           [(U "periods",
             VList [VDict [(U "name", VStr (U "Sep.2025"));
                           (U "values", VList [VStr (U "4.50"); VStr (U "14.2")])]])]
           [(U "name", VStr (U "Sep.2025"));
            (U "values", VList [VStr (U "4.50"); VStr (U "14.2")])]
           [] [VStr (U "4.50"); VStr (U "14.2")]).
  - reflexivity.
  - vm_compute. reflexivity.
  - vm_compute. reflexivity.
Defined.

Lemma latest_value_of_last_period_witness :
  get_latest_value (fun _ _ => Good [] inflation_response) true
    SeriesCodes.INFLACION_ANUAL []
  = (Ok (latest_dict
           match dict_lookup (U "name") [(U "name", VStr (U "IPC var. 12 meses"))] with
           | Some x => x
           | None => VStr SeriesCodes.INFLACION_ANUAL
           end
           SeriesCodes.INFLACION_ANUAL
           match dict_lookup (U "name")
                   [(U "name", VStr (U "Sep.2025"));
                    (U "values", VList [VStr (U "1.4")])] with
           | Some x => x
           | None => VNone
           end
           (VStr (U "1.4"))
           match dict_lookup SeriesCodes.INFLACION_ANUAL SERIES_DESCRIPTIONS with
           | Some x => x
           | None => VStr []
           end),
     [] ++ [series_url [SeriesCodes.INFLACION_ANUAL]]).
Proof.
  apply (latest_value_of_last_period (fun _ _ => Good [] inflation_response) true
           SeriesCodes.INFLACION_ANUAL [] []
           [(U "config",
             VDict [(U "series",
                     VList [VDict [(U "name", VStr (U "IPC var. 12 meses"))]])]);
            (U "periods",
             VList [VDict [(U "name", VStr (U "Ago.2025"));
                           (U "values", VList [VStr (U "1.1")])];
                    VDict [(U "name", VStr (U "Sep.2025"));
                           (U "values", VList [VStr (U "1.4")])]])]
           [(U "name", VStr (U "Sep.2025")); (U "values", VList [VStr (U "1.4")])]
           [(U "series", VList [VDict [(U "name", VStr (U "IPC var. 12 meses"))]])]
           [(U "name", VStr (U "IPC var. 12 meses"))]
           [VDict [(U "name", VStr (U "Ago.2025"));
                   (U "values", VList [VStr (U "1.1")])]]
           [] [] (VStr (U "1.4"))).
  - reflexivity.
  - vm_compute. reflexivity.
  - vm_compute. reflexivity.
  - vm_compute. reflexivity.
  - vm_compute. reflexivity.
Defined.

Lemma empty_values_latest_and_triplet_witness :
  get_latest_value (fun _ _ => Good [] empty_values_response) true
    SeriesCodes.INFLACION_ANUAL []
  = (Ok VNone, [] ++ [series_url [SeriesCodes.INFLACION_ANUAL]]) /\
  get_tipo_cambio (fun _ _ => Good [] empty_values_response) true []
  = (Ok (tipo_cambio_dict
           match dict_lookup (U "name")
                   [(U "name", VStr (U "Sep.2025")); (U "values", VList [])] with
           | Some x => x
           | None => VNone
           end VNone VNone VNone),
     [] ++ [series_url tipo_cambio_codes]).
Proof.
  apply (empty_values_latest_and_triplet
           (fun _ _ => Good [] empty_values_response) true
           SeriesCodes.INFLACION_ANUAL [] []
           [(U "periods",
             VList [VDict [(U "name", VStr (U "Sep.2025"));
                           (U "values", VList [])]])]
           [(U "name", VStr (U "Sep.2025")); (U "values", VList [])] []).
  - intros url. reflexivity.
  - vm_compute. reflexivity.
  - vm_compute. reflexivity.
Defined.

Lemma intent_is_first_listed_witness :
  detect_economic_query (U "¿Subió la " ++ U "INFLACIÓN" ++ U " este mes?")
  = Some (U "inflacion").
Proof.
  apply (@intent_is_first_listed Latin1
           (U "¿Subió la " ++ U "INFLACIÓN" ++ U " este mes?")
           (U "¿Subió la ") (U "INFLACIÓN") (U " este mes?") (U "inflación")
           (U "inflacion") (map U ["inflacion"; "inflación"; "ipc"]%string) 2).
  - reflexivity.
  - cbn [map In]. right. left. reflexivity.
  - split; vm_compute; reflexivity.
  - reflexivity.
  - intros j q2 kws2 kw2 Hj Hn Hkw.
    assert (A : forallb (fun p => forallb (fun k =>
                  negb (str_in k (lower (U "¿Subió la " ++ U "INFLACIÓN"
                                         ++ U " este mes?")))) (snd p))
                (firstn 2 query_patterns) = true) by (vm_compute; reflexivity).
    rewrite forallb_forall in A.
    assert (Hin : In (q2, kws2) (firstn 2 query_patterns)).
    { destruct j as [|[|j]]; [| |lia]; cbn [nth_error query_patterns] in Hn;
        injection Hn as <- <-; cbn [firstn query_patterns In]; tauto. }
    specialize (A _ Hin). cbn [snd] in A. rewrite forallb_forall in A.
    specialize (A _ Hkw). now apply negb_true_iff in A.
Defined.

Lemma exchange_rate_context_text_witness :
  get_economic_context (fun _ _ => Good [] sample_response) true sample_py_str
    (U "cual es el tipo de cambio hoy") []
  = (Ok (join NL
           [context_header;
            join NL
              [U "💱 Tipo de Cambio ("
               ++ sample_py_str
                    match dict_lookup (U "name")
                            [(U "name", VStr (U "02.Oct.25"));
                             (U "values", VList [VStr (U "3.75"); VStr (U "3.74");
                                                 VStr (U "3.76")])] with
                    | Some x => x
                    | None => VNone
                    end ++ U ")";
               U "   Promedio: S/ "
               ++ sample_py_str (nth 0 [VStr (U "3.75"); VStr (U "3.74");
                                        VStr (U "3.76")] VNone);
               U "   Compra: S/ "
               ++ sample_py_str (nth 1 [VStr (U "3.75"); VStr (U "3.74");
                                        VStr (U "3.76")] VNone);
               U "   Venta: S/ "
               ++ sample_py_str (nth 2 [VStr (U "3.75"); VStr (U "3.74");
                                        VStr (U "3.76")] VNone)];
            context_footer]),
     [] ++ [series_url tipo_cambio_codes]).
Proof.
  apply (@exchange_rate_context_text Latin1
           (fun _ _ => Good [] sample_response) true sample_py_str
           (U "cual es el tipo de cambio hoy") [] []
           [(U "config",
             VDict [(U "series", VList [VDict [(U "name", VStr (U "venta"))];
                                        VDict [(U "name", VStr (U "compra"))];
                                        VDict [(U "name", VStr (U "promedio"))]])]);
            (U "periods",
             VList [VDict [(U "name", VStr (U "01.Oct.25"));
                           (U "values", VList [VStr (U "3.70"); VStr (U "3.69");
                                               VStr (U "3.71")])];
                    VDict [(U "name", VStr (U "02.Oct.25"));
                           (U "values", VList [VStr (U "3.75"); VStr (U "3.74");
                                               VStr (U "3.76")])]])]
           [(U "name", VStr (U "02.Oct.25"));
            (U "values", VList [VStr (U "3.75"); VStr (U "3.74"); VStr (U "3.76")])]
           [VDict [(U "name", VStr (U "01.Oct.25"));
                   (U "values", VList [VStr (U "3.70"); VStr (U "3.69");
                                       VStr (U "3.71")])]]
           [VStr (U "3.75"); VStr (U "3.74"); VStr (U "3.76")]).
  - vm_compute. reflexivity.
  - reflexivity.
  - vm_compute. reflexivity.
  - vm_compute. reflexivity.
Defined.

(** ** The context step *)

Section FormatDocs.

Lemma enumerate_snoc {A : Type} (l : list A) (x : A) :
  forall start : nat,
    enumerate start (l ++ [x]) = enumerate start l ++ [(start + length l, x)].
Proof.
  induction l as [|y l IH]; intros start; cbn [app enumerate length].
  - now rewrite Nat.add_0_r.
  - rewrite IH. cbn [app]. now rewrite Nat.add_succ_r.
Qed.

Lemma join_snoc (sep : str) (l : list str) (x : str) :
  l <> [] -> join sep (l ++ [x]) = join sep l ++ sep ++ x.
Proof.
  induction l as [|y l IH]; intros H; [congruence|].
  destruct l as [|z l]; [reflexivity|].
  change ((y :: z :: l) ++ [x]) with (y :: (z :: l) ++ [x]).
  change (join sep (y :: z :: l)) with (y ++ sep ++ join sep (z :: l)).
  assert (E : join sep (y :: (z :: l) ++ [x])
              = y ++ sep ++ join sep ((z :: l) ++ [x])) by reflexivity.
  rewrite E, IH by discriminate. now rewrite <- !app_assoc.
Qed.

Lemma join_nonempty (sep x : str) (l : list str) :
  x <> [] -> join sep (x :: l) <> [].
Proof.
  intros H. destruct l; cbn [join]; [exact H|].
  destruct x; [congruence | discriminate].
Qed.

(** X15. [format_docs] numbers the documents from 1 in the order given: one
    document gives "Documento 1:" and its text, and each further document
    adds an empty line, the next number, and its text. *)
Theorem format_docs_numbers_documents :
  forall (docs : list Document) (d : Document),
    format_docs [d] = U "Documento 1:" ++ NL ++ page_content d /\
    (docs <> [] ->
     format_docs (docs ++ [d])
     = format_docs docs ++ (NL ++ NL) ++ U "Documento "
       ++ str_of_nat (length docs + 1) ++ U ":" ++ NL ++ page_content d).
Proof.
  intros docs d. split.
  - unfold format_docs. cbn [enumerate map join].
    replace (str_of_nat (0 + 1)) with (U "1") by (vm_compute; reflexivity).
    replace (U "Documento 1:") with (U "Documento " ++ U "1" ++ U ":")
      by (vm_compute; reflexivity).
    now rewrite <- !app_assoc.
  - intros H. unfold format_docs.
    destruct docs as [|d0 docs]; [congruence|].
    change ((d0 :: docs) ++ [d]) with (d0 :: docs ++ [d]).
    change (d0 :: docs ++ [d]) with ((d0 :: docs) ++ [d]) at 2.
    rewrite enumerate_snoc, map_app. cbn [map].
    rewrite join_snoc by discriminate. cbn [length Nat.add].
    reflexivity.
Qed.

Lemma format_docs_nonempty (docs : list Document) : format_docs docs <> [].
Proof.
  unfold format_docs. destruct docs as [|d docs].
  - vm_compute. discriminate.
  - cbn [enumerate map]. apply join_nonempty.
    replace (U "Documento ") with (68%N :: U "ocumento ")
      by (vm_compute; reflexivity).
    discriminate.
Qed.

End FormatDocs.

Section ContextAssembly.
Context {UD : Unicode}.
Variable http : nat -> str -> HttpOutcome.
Variable json_error_is_request_exception : bool.
Variable py_str : value -> str.
Variable retriever : str -> res (list Document).

Lemma append_bcrp_empty (parts : list str) : append_bcrp [] parts = parts.
Proof. reflexivity. Qed.

Lemma append_bcrp_nonempty (s : str) (parts : list str) :
  s <> [] -> append_bcrp s parts = parts ++ [s].
Proof. intros H. destruct s; [congruence | reflexivity]. Qed.

Lemma no_intent_context (query : str) (log : list str) :
  detect_economic_query query = None ->
  get_economic_context http json_error_is_request_exception py_str query log
  = (Ok [], log).
Proof. intros E. unfold get_economic_context. now rewrite E. Qed.

(** X16. The context step of the chain without documents never raises and
    passes the query and the history through.  The context it builds starts
    with the sentence that no PDF documents are available; that sentence is
    the whole context, and no request is made, when the query has no economic
    intent; with an intent, an empty line and the framed economic context
    follow, data or no data. *)
Theorem bcrp_only_context_assembly :
  forall (inputs : Inputs) (log : list str),
    let query := match inputs_input inputs with Some q => q | None => [] end in
    let hist := match inputs_history inputs with Some h => h | None => [] end in
    (detect_economic_query query = None ->
     add_bcrp_only_context http json_error_is_request_exception py_str inputs log
     = (Ok {| context := U "No hay documentos PDF disponibles.";
              input := query;
              history := hist |}, log)) /\
    (forall q, detect_economic_query query = Some q ->
     exists blocks,
       add_bcrp_only_context http json_error_is_request_exception py_str
         inputs log
       = (Ok {| context :=
                  U "No hay documentos PDF disponibles." ++ (NL ++ NL)
                  ++ join NL ([context_header] ++ blocks ++ [context_footer]);
                input := query;
                history := hist |},
          log ++ intent_requests q)).
Proof.
  intros inputs log query hist. split.
  - intros E. unfold add_bcrp_only_context, bind. fold query hist.
    rewrite (no_intent_context query log E). reflexivity.
  - intros q E. unfold add_bcrp_only_context, bind. fold query hist.
    destruct (economic_context_frame http json_error_is_request_exception
                py_str query q log E) as [blocks [Eb [_ Hne]]].
    exists blocks. rewrite Eb. rewrite (append_bcrp_nonempty _ _ Hne).
    reflexivity.
Qed.

(** X17. The context step of the chain with documents asks the retriever
    first: when it raises, the exception goes through and no request for
    economic data is made.  Otherwise the context starts with the formatted
    documents, which is the whole context when the query has no economic
    intent; with an intent, an empty line and the framed economic context
    follow. *)
Theorem rag_context_assembly :
  forall (inputs : Inputs) (log : list str),
    let query := match inputs_input inputs with Some q => q | None => [] end in
    let hist := match inputs_history inputs with Some h => h | None => [] end in
    (forall e, retriever query = Raise e ->
     add_rag_and_bcrp_context http json_error_is_request_exception py_str
       retriever inputs log = (Raise e, log)) /\
    (forall docs, retriever query = Ok docs ->
     (detect_economic_query query = None ->
      add_rag_and_bcrp_context http json_error_is_request_exception py_str
        retriever inputs log
      = (Ok {| context := format_docs docs; input := query; history := hist |},
         log)) /\
     (forall q, detect_economic_query query = Some q ->
      exists blocks,
        add_rag_and_bcrp_context http json_error_is_request_exception py_str
          retriever inputs log
        = (Ok {| context :=
                   format_docs docs ++ (NL ++ NL)
                   ++ join NL ([context_header] ++ blocks ++ [context_footer]);
                 input := query;
                 history := hist |},
           log ++ intent_requests q))).
Proof.
  intros inputs log query hist. split.
  - intros e E. unfold add_rag_and_bcrp_context, bind, lift. fold query hist.
    now rewrite E.
  - intros docs Ed. split.
    + intros E. unfold add_rag_and_bcrp_context, bind, lift. fold query hist.
      rewrite Ed, (no_intent_context query log E). reflexivity.
    + intros q E. unfold add_rag_and_bcrp_context, bind, lift. fold query hist.
      rewrite Ed.
      destruct (economic_context_frame http json_error_is_request_exception
                  py_str query q log E) as [blocks [Eb [_ Hne]]].
      exists blocks. rewrite Eb. rewrite (append_bcrp_nonempty _ _ Hne).
      reflexivity.
Qed.

End ContextAssembly.

Section RetrievedContext.
Variable py_str : value -> str.

Lemma enumerate_combine {A : Type} (l : list A) :
  forall start : nat, enumerate start l = combine (seq start (length l)) l.
Proof.
  induction l as [|x l IH]; intros start; [reflexivity|].
  cbn [enumerate length seq combine]. now rewrite IH.
Qed.

(** X28. Building the context [RAGManager] hands to the chain never raises,
    and the context is never empty.  Without a retriever it is the sentence
    that no documents are available, as [add_empty_context] gives it.  With
    one, the retriever is asked with the query: when it raises, the context
    is the error sentence; when it finds nothing, the no-result sentence;
    otherwise the blocks of the documents found, numbered from 1 in the order
    given and joined by newlines, each with its source and page (or
    "Desconocido" and "N/A") and its text.  The query and the history are
    passed through. *)
Theorem retrieved_context_is_never_empty :
  forall (retriever : option (str -> res (list Document))) (inputs : Inputs),
    let query := match inputs_input inputs with Some q => q | None => [] end in
    let ctx := context (add_rag_context py_str retriever inputs) in
    ctx <> [] /\
    (retriever = None ->
     ctx = U "No hay documentos disponibles." /\
     add_rag_context py_str retriever inputs = add_empty_context inputs) /\
    (forall r e, retriever = Some r -> r query = Raise e ->
     ctx = U "Error al recuperar documentos.") /\
    (forall r, retriever = Some r -> r query = Ok [] ->
     ctx = U "No se encontró información relevante en los documentos.") /\
    (forall r docs, retriever = Some r -> r query = Ok docs -> docs <> [] ->
     ctx = join NL (map (fun p => document_block py_str (fst p) (snd p))
                        (combine (seq 1 (length docs)) docs))) /\
    input (add_rag_context py_str retriever inputs) = query /\
    history (add_rag_context py_str retriever inputs)
    = match inputs_history inputs with Some h => h | None => [] end.
Proof.
  intros retriever inputs query ctx.
  assert (Hdocs : forall docs, docs <> [] ->
            _format_docs py_str docs
            = join NL (map (fun p => document_block py_str (fst p) (snd p))
                           (combine (seq 1 (length docs)) docs))).
  { intros docs Hd. unfold _format_docs. destruct docs as [|d docs]; [congruence|].
    rewrite enumerate_combine. f_equal. apply map_ext. now intros [i doc]. }
  unfold ctx, add_rag_context, add_empty_context. fold query.
  cbn [context input history].
  refine (conj _ (conj _ (conj _ (conj _ (conj _ (conj eq_refl eq_refl)))))).
  - unfold retrieve_context. destruct retriever as [r|].
    + destruct (r query) as [docs|e].
      * unfold _format_docs. destruct docs as [|d docs].
        -- vm_compute. discriminate.
        -- cbn [enumerate map]. apply join_nonempty.
           replace (U "--- Documento ") with (45%N :: U "-- Documento ")
             by (vm_compute; reflexivity).
           discriminate.
      * vm_compute. discriminate.
    + vm_compute. discriminate.
  - intros ->. split; reflexivity.
  - intros r e -> E. unfold retrieve_context. now rewrite E.
  - intros r -> E. unfold retrieve_context. now rewrite E.
  - intros r docs -> E Hd. unfold retrieve_context. rewrite E.
    now apply Hdocs.
Qed.

End RetrievedContext.

Section Unchanged.
Context {UD : Unicode}.

(** X4. A text with no three decimal digits in a row is returned as it is:
    every rule of the sanitizer needs at least three consecutive digits. *)
Theorem text_without_digit_runs_is_unchanged :
  forall s : str,
    has_digit_run 3 s = false -> sanitize_financial_data s = s.
Proof. exact sanitize_without_digit_runs. Qed.

End Unchanged.

Lemma text_without_digit_runs_is_unchanged_witness :
  sanitize_financial_data (U "tengo 2 tarjetas y 15 soles, cvv 12")
  = U "tengo 2 tarjetas y 15 soles, cvv 12".
Proof.
  apply (@text_without_digit_runs_is_unchanged Latin1).
  vm_compute. reflexivity.
Defined.

Lemma check_output_blocks_keyword_witness :
  exists i k,
    i <= 6 /\ nth_error palabras_out i = Some k /\
    check_output (U "Es una " ++ U "Inversión SIN Riesgo" ++ U ", te lo aseguro")
    = (true, U "palabra", k) /\
    str_in (lower k)
      (lower (U "Es una " ++ U "Inversión SIN Riesgo" ++ U ", te lo aseguro"))
    = true /\
    (forall j k2, j < i -> nth_error palabras_out j = Some k2 ->
       str_in (lower k2)
         (lower (U "Es una " ++ U "Inversión SIN Riesgo" ++ U ", te lo aseguro"))
       = false).
Proof.
  apply (@check_output_blocks_keyword Latin1
           (U "Es una " ++ U "Inversión SIN Riesgo" ++ U ", te lo aseguro")
           (U "Es una ") (U "Inversión SIN Riesgo") (U ", te lo aseguro")
           (U "inversión sin riesgo") 6).
  - vm_compute. reflexivity.
  - split; vm_compute; reflexivity.
  - reflexivity.
Defined.

Lemma financial_keyword_is_valid_witness :
  validate_financial_context
    (U "quiero saber mi " ++ U "TCEA" ++ U " por favor")
  = (true, []).
Proof.
  apply (@financial_keyword_is_valid Latin1
           (U "quiero saber mi " ++ U "TCEA" ++ U " por favor")
           (U "quiero saber mi ") (U "TCEA") (U " por favor") (U "tcea")).
  - vm_compute. do 13 right. left. reflexivity.
  - split; vm_compute; reflexivity.
  - reflexivity.
Defined.

Lemma off_topic_message_is_rejected_witness :
  validate_financial_context (U "como estas hoy amigo")
  = (false, U "La consulta no parece estar relacionada con finanzas.").
Proof.
  apply (@off_topic_message_is_rejected Latin1 (U "como estas hoy amigo")).
  - vm_compute. lia.
  - intros kw Hin.
    assert (A : forallb (fun k => negb (str_in k (lower (U "como estas hoy amigo"))))
                  financial_keywords = true) by (vm_compute; reflexivity).
    rewrite forallb_forall in A. specialize (A kw Hin).
    now apply negb_true_iff in A.
Defined.

Lemma general_context_text_witness :
  get_economic_context sample_http true sample_py_str
    (U "dame los indicadores económicos") []
  = (Ok (join NL
           [context_header;
            join NL
              [U "💱 Tipo de Cambio ("
               ++ sample_py_str
                    match dict_lookup (U "name")
                            [(U "name", VStr (U "02.Oct.25"));
                             (U "values", VList [VStr (U "3.75"); VStr (U "3.74");
                                                 VStr (U "3.76")])] with
                    | Some x => x
                    | None => VNone
                    end ++ U ")";
               U "   Promedio: S/ "
               ++ sample_py_str (nth 0 [VStr (U "3.75"); VStr (U "3.74");
                                        VStr (U "3.76")] VNone);
               U "   Compra: S/ "
               ++ sample_py_str (nth 1 [VStr (U "3.75"); VStr (U "3.74");
                                        VStr (U "3.76")] VNone);
               U "   Venta: S/ "
               ++ sample_py_str (nth 2 [VStr (U "3.75"); VStr (U "3.74");
                                        VStr (U "3.76")] VNone)];
            NL ++ join NL
              [U "📈 Tasas de Interés ("
               ++ sample_py_str
                    match dict_lookup (U "name")
                            [(U "name", VStr (U "Sep.2025"));
                             (U "values", VList [VStr (U "4.50"); VStr (U "14.2")])] with
                    | Some x => x
                    | None => VNone
                    end ++ U ")";
               U "   Tasa de Referencia BCRP: "
               ++ sample_py_str (nth 0 [VStr (U "4.50"); VStr (U "14.2")] VNone)
               ++ U "%";
               U "   TAMN Depósitos: "
               ++ sample_py_str (nth 1 [VStr (U "4.50"); VStr (U "14.2")] VNone)
               ++ U "%";
               U "   TAMEX Depósitos: "
               ++ sample_py_str (nth 2 [VStr (U "4.50"); VStr (U "14.2")] VNone)
               ++ U "%"];
            context_footer]),
     [] ++ [series_url tipo_cambio_codes; series_url tasas_codes]).
Proof.
  apply (@general_context_text Latin1 sample_http true sample_py_str
           (U "dame los indicadores económicos") [] [] []
           [(U "config",
             VDict [(U "series", VList [VDict [(U "name", VStr (U "venta"))];
                                        VDict [(U "name", VStr (U "compra"))];
                                        VDict [(U "name", VStr (U "promedio"))]])]);
            (U "periods",
             VList [VDict [(U "name", VStr (U "01.Oct.25"));
                           (U "values", VList [VStr (U "3.70"); VStr (U "3.69");
                                               VStr (U "3.71")])];
                    VDict [(U "name", VStr (U "02.Oct.25"));
                           (U "values", VList [VStr (U "3.75"); VStr (U "3.74");
                                               VStr (U "3.76")])]])]
           [(U "name", VStr (U "02.Oct.25"));
            (U "values", VList [VStr (U "3.75"); VStr (U "3.74"); VStr (U "3.76")])]
           [(U "periods",
             VList [VDict [(U "name", VStr (U "Sep.2025"));
                           (U "values", VList [VStr (U "4.50"); VStr (U "14.2")])]])]
           [(U "name", VStr (U "Sep.2025"));
            (U "values", VList [VStr (U "4.50"); VStr (U "14.2")])]
           [VDict [(U "name", VStr (U "01.Oct.25"));
                   (U "values", VList [VStr (U "3.70"); VStr (U "3.69");
                                       VStr (U "3.71")])]]
           [VStr (U "3.75"); VStr (U "3.74"); VStr (U "3.76")]
           [] [VStr (U "4.50"); VStr (U "14.2")]).
  - vm_compute. reflexivity.
  - reflexivity.
  - vm_compute. reflexivity.
  - vm_compute. reflexivity.
  - reflexivity.
  - vm_compute. reflexivity.
  - vm_compute. reflexivity.
Defined.

Lemma format_docs_numbers_documents_witness :
  format_docs ([ {| page_content := U "Cuenta de ahorro: TREA 4.5%";
                    metadata := [] |} ]
               ++ [ {| page_content := U "Plazo fijo: TREA 6.1%";
                       metadata := [] |} ])
  = format_docs [ {| page_content := U "Cuenta de ahorro: TREA 4.5%";
                     metadata := [] |} ]
    ++ (NL ++ NL) ++ U "Documento "
    ++ str_of_nat (length [ {| page_content := U "Cuenta de ahorro: TREA 4.5%";
                               metadata := [] |} ] + 1)
    ++ U ":" ++ NL
    ++ page_content {| page_content := U "Plazo fijo: TREA 6.1%"; metadata := [] |}.
Proof.
  apply (proj2 (format_docs_numbers_documents
                  [ {| page_content := U "Cuenta de ahorro: TREA 4.5%";
                       metadata := [] |} ]
                  {| page_content := U "Plazo fijo: TREA 6.1%"; metadata := [] |})).
  discriminate.
Defined.

Lemma bcrp_only_context_assembly_witness :
  add_bcrp_only_context (fun _ _ => RequestFailed (U "Connection timed out"))
    true sample_py_str
    {| inputs_input := Some (U "hola, buenos días"); inputs_history := None |} []
  = (Ok {| context := U "No hay documentos PDF disponibles.";
           input := U "hola, buenos días";
           history := [] |}, []) /\
  exists blocks,
    add_bcrp_only_context (fun _ _ => RequestFailed (U "Connection timed out"))
      true sample_py_str
      {| inputs_input := Some (U "precio del dolar hoy");
         inputs_history := Some [ {| role := Human; content := U "hola" |} ] |} []
    = (Ok {| context :=
               U "No hay documentos PDF disponibles." ++ (NL ++ NL)
               ++ join NL ([context_header] ++ blocks ++ [context_footer]);
             input := U "precio del dolar hoy";
             history := [ {| role := Human; content := U "hola" |} ] |},
       [] ++ intent_requests (U "tipo_cambio")).
Proof.
  pose proof (@bcrp_only_context_assembly Latin1
                (fun _ _ => RequestFailed (U "Connection timed out")) true
                sample_py_str
                {| inputs_input := Some (U "hola, buenos días");
                   inputs_history := None |} []) as H1.
  cbv zeta in H1. cbn [inputs_input inputs_history] in H1.
  destruct H1 as [H1 _].
  pose proof (@bcrp_only_context_assembly Latin1
                (fun _ _ => RequestFailed (U "Connection timed out")) true
                sample_py_str
                {| inputs_input := Some (U "precio del dolar hoy");
                   inputs_history :=
                     Some [ {| role := Human; content := U "hola" |} ] |} [])
    as H2.
  cbv zeta in H2. cbn [inputs_input inputs_history] in H2.
  destruct H2 as [_ H2].
  split.
  - apply H1. vm_compute. reflexivity.
  - apply (H2 (U "tipo_cambio")). vm_compute. reflexivity.
Defined.

Lemma rag_context_assembly_witness :
  add_rag_and_bcrp_context (fun _ _ => RequestFailed (U "Connection timed out"))
    true sample_py_str sample_retriever
    {| inputs_input := Some (U "que cuenta me conviene"); inputs_history := None |} []
  = (Ok {| context := format_docs sample_docs;
           input := U "que cuenta me conviene";
           history := [] |}, []) /\
  add_rag_and_bcrp_context (fun _ _ => RequestFailed (U "Connection timed out"))
    true sample_py_str (fun _ => Raise TypeError)
    {| inputs_input := Some (U "precio del dolar hoy"); inputs_history := None |} []
  = (Raise TypeError, []).
Proof.
  pose proof (@rag_context_assembly Latin1
                (fun _ _ => RequestFailed (U "Connection timed out")) true
                sample_py_str sample_retriever
                {| inputs_input := Some (U "que cuenta me conviene");
                   inputs_history := None |} []) as H1.
  cbv zeta in H1. cbn [inputs_input inputs_history] in H1.
  destruct H1 as [_ H1]. destruct (H1 sample_docs eq_refl) as [H1' _].
  pose proof (@rag_context_assembly Latin1
                (fun _ _ => RequestFailed (U "Connection timed out")) true
                sample_py_str (fun _ => Raise TypeError)
                {| inputs_input := Some (U "precio del dolar hoy");
                   inputs_history := None |} []) as H2.
  cbv zeta in H2. cbn [inputs_input inputs_history] in H2.
  destruct H2 as [H2 _].
  split.
  - apply H1'. vm_compute. reflexivity.
  - apply (H2 TypeError). reflexivity.
Defined.

Lemma retrieved_context_is_never_empty_witness :
  context (add_rag_context sample_py_str (Some sample_retriever)
             {| inputs_input := Some (U "que cuenta me conviene");
                inputs_history := None |})
  = U "--- Documento 1 ---" ++ NL
    ++ U "Fuente: tarifario.pdf (Página 3)" ++ NL
    ++ U "Contenido:" ++ NL ++ U "Cuenta de ahorro: TREA 4.5%" ++ NL ++ NL
    ++ U "--- Documento 2 ---" ++ NL
    ++ U "Fuente: Desconocido (Página N/A)" ++ NL
    ++ U "Contenido:" ++ NL ++ U "Plazo fijo: TREA 6.1%" ++ NL.
Proof.
  pose proof (retrieved_context_is_never_empty sample_py_str
                (Some sample_retriever)
                {| inputs_input := Some (U "que cuenta me conviene");
                   inputs_history := None |}) as H.
  cbv zeta in H. cbn [inputs_input] in H.
  destruct H as (_ & _ & _ & _ & H & _).
  rewrite (H sample_retriever sample_docs eq_refl eq_refl)
    by (unfold sample_docs; discriminate).
  vm_compute. reflexivity.
Defined.

(** ** A whole conversation *)

Section Conversation.
Context {UD : Unicode}.

Lemma exchanges_app (a b : list (str * str)) :
  exchanges (a ++ b) = exchanges a ++ exchanges b.
Proof. unfold exchanges. apply flat_map_app. Qed.

Lemma on_message_step (chain : Chain) (s : Session) (m : str) (d : nat) :
  agent s = RunnableWithMessageHistory chain ->
  agent (snd (on_message s m d)) = RunnableWithMessageHistory chain /\
  (memory (snd (on_message s m d)) = memory s \/
   fst (fst (check_input (sanitize_financial_data m))) = false /\
   exists answer,
     memory (snd (on_message s m d))
     = memory s ++ exchanges [(sanitize_financial_data m, answer)]).
Proof.
  intros Ha. unfold on_message.
  destruct (check_input (sanitize_financial_data m)) as [[b t] x].
  destruct b; cbn [fst snd]; [split; [exact Ha | now left]|].
  rewrite Ha. unfold RunnableWithMessageHistory.
  destruct (check_output _) as [[b' t'] x']. 
  destruct b'; cbn [snd agent memory]; (split; [reflexivity|]);
    right; (split; [reflexivity|]); eexists; reflexivity.
Qed.

Lemma turns_invariant (chain : Chain) :
  forall (messages seen : list (str * nat)) (s : Session)
         (pairs0 : list (str * str)),
    agent s = RunnableWithMessageHistory chain ->
    memory s = exchanges pairs0 ->
    Forall (fun p => fst (fst (check_input (fst p))) = false /\
                     exists m, In m seen /\
                               fst p = sanitize_financial_data (fst m)) pairs0 ->
    exists pairs,
      memory (turns s messages) = exchanges (pairs0 ++ pairs) /\
      agent (turns s messages) = RunnableWithMessageHistory chain /\
      length pairs <= length messages /\
      Forall (fun p => fst (fst (check_input (fst p))) = false /\
                       exists m, In m (seen ++ messages) /\
                                 fst p = sanitize_financial_data (fst m))
        (pairs0 ++ pairs).
Proof.
  induction messages as [|[m d] messages IH]; intros seen s pairs0 Ha Hm Hf.
  - exists []. rewrite !app_nil_r. cbn [turns fold_left length].
    repeat split; auto.
  - cbn [turns fold_left fst snd].
    destruct (on_message_step chain s m d Ha) as [Ha' [Hsame | [Hok [ans Hadd]]]].
    + destruct (IH (seen ++ [(m, d)]) (snd (on_message s m d)) pairs0 Ha')
        as [pairs [H1 [H2 [H3 H4]]]].
      * now rewrite Hsame.
      * eapply Forall_impl; [|exact Hf]. intros p [Hp [x [Hx Hpx]]].
        split; [exact Hp|]. exists x. split; [|exact Hpx].
        apply in_or_app. now left.
      * exists pairs. unfold turns in *. rewrite H1, H2.
        rewrite <- app_assoc in H4. cbn [app] in H4.
        repeat split; auto. cbn [length]. lia.
    + destruct (IH (seen ++ [(m, d)]) (snd (on_message s m d))
                  (pairs0 ++ [(sanitize_financial_data m, ans)]) Ha')
        as [pairs [H1 [H2 [H3 H4]]]].
      * now rewrite Hadd, Hm, exchanges_app.
      * apply Forall_app. split.
        -- eapply Forall_impl; [|exact Hf]. intros p [Hp [x [Hx Hpx]]].
           split; [exact Hp|]. exists x. split; [|exact Hpx].
           apply in_or_app. now left.
        -- constructor; [|constructor]. cbn [fst]. split; [exact Hok|].
           exists (m, d). split; [|reflexivity].
           apply in_or_app. right. now left.
      * exists ((sanitize_financial_data m, ans) :: pairs).
        unfold turns in *. rewrite H1, H2.
        rewrite <- !app_assoc in *. cbn [app] in *.
        repeat split; auto. cbn [length]. lia.
Qed.

(** X14. Over a whole conversation, started by [on_chat_start], the history is
    a sequence of exchanges, a human message followed by the answer to it;
    messages are only ever added at the end, at most one exchange per turn;
    every human message in it is the masked text of a message the user sent
    and one that [check_input] lets through; and the agent of the session is
    the one installed at the start. *)
Theorem history_is_paired_and_screened :
  forall (chain : Chain) (messages : list (str * nat)),
    exists pairs,
      memory (turns (on_chat_start chain) messages) = exchanges pairs /\
      agent (turns (on_chat_start chain) messages)
      = RunnableWithMessageHistory chain /\
      length pairs <= length messages /\
      Forall (fun p => fst (fst (check_input (fst p))) = false /\
                       exists m, In m messages /\
                                 fst p = sanitize_financial_data (fst m)) pairs.
Proof.
  intros chain messages.
  destruct (turns_invariant chain messages [] (on_chat_start chain) [])
    as [pairs H]; [reflexivity | reflexivity | constructor|].
  exists pairs. exact H.
Qed.

End Conversation.

Section RequestBudget.
Context {UD : Unicode}.
Variable http : nat -> str -> HttpOutcome.
Variable json_error_is_request_exception : bool.
Variable py_str : value -> str.

(** X24. Whatever the message and whatever the service does,
    [get_economic_context] returns a string (it never raises), keeps the
    requests made before it, and adds at most two. *)
Theorem economic_context_never_raises :
  forall (message : str) (log : list str),
    exists (text : str) (more : list str),
      get_economic_context http json_error_is_request_exception py_str
        message log = (Ok text, log ++ more) /\
      length more <= 2.
Proof.
  intros message log.
  destruct (detect_economic_query message) as [q|] eqn:E.
  - destruct (economic_context_frame http json_error_is_request_exception
                py_str message q log E) as [blocks [Eb [Hb _]]].
    eexists. exists (intent_requests q). split; [exact Eb|].
    destruct (first_query_type_nonempty _ _ E) as [-> | [-> | [-> | ->]]];
      vm_compute; lia.
  - exists [], []. rewrite app_nil_r. split; [|cbn; lia].
    unfold get_economic_context. now rewrite E.
Qed.

End RequestBudget.

(* ================================================================== *)
(** ** The sanitizer applied twice *)
(* ================================================================== *)

(** *** Matches in context and the matcher *)

Section Semantics.
Context {UD : Unicode}.

Lemma cmatches_matches (icase : bool) :
  forall (r : regex) (bh : list char) (w rest : str),
    cmatches icase r bh w rest -> matches icase r w.
Proof.
  induction r as [|cs|cs min max| |r1 IH1 r2 IH2|r1 IH1 r2 IH2|n r1 IH1];
    intros bh w rest H; cbn [cmatches matches] in *; auto.
  - tauto.
  - destruct H as [w1 [w2 [-> [H1 H2]]]]. exists w1, w2. eauto.
  - destruct H as [H | H]; eauto.
  - eauto.
Qed.

Lemma matches_cmatches (icase : bool) :
  forall (r : regex) (w : str),
    bound_free r = true -> matches icase r w ->
    forall (bh : list char) (rest : str), cmatches icase r bh w rest.
Proof.
  induction r as [|cs|cs min max| |r1 IH1 r2 IH2|r1 IH1 r2 IH2|n r1 IH1];
    intros w Hb H bh rest; cbn [cmatches matches bound_free] in *; auto;
    try discriminate.
  - apply andb_true_iff in Hb as [B1 B2].
    destruct H as [w1 [w2 [-> [H1 H2]]]]. exists w1, w2. auto.
  - apply andb_true_iff in Hb as [B1 B2]. destruct H as [H | H]; auto.
Qed.

Lemma at_boundary_caps (bh : list char) (ah : str) (cp : list (nat * str)) :
  at_boundary (MState bh ah cp) = at_boundary (MState bh ah []).
Proof. reflexivity. Qed.

(** Every success of the matcher is a match in context. *)
Lemma run_csound (icase : bool) :
  forall (r : regex) (st st' : mstate),
    In st' (run icase r st) ->
    exists w, ahead st = w ++ ahead st' /\ behind st' = rev w ++ behind st /\
      cmatches icase r (behind st) w (ahead st').
Proof.
  induction r as [|cs|cs min max| |r1 IH1 r2 IH2|r1 IH1 r2 IH2|n r1 IH1];
    intros st st' H; cbn [run] in H.
  - destruct H as [<- | []]. now exists [].
  - destruct (ahead st) as [|c rest] eqn:Ea; [contradiction|].
    destruct (in_set icase cs c) eqn:Ec; [|contradiction].
    destruct H as [<- | []]. exists [c]. cbn. repeat split; auto.
    now exists c.
  - destruct (rep_sound _ _ _ _ _ _ _ _ H) as [w [H1 [H2 [H3 [H4 [H5 H6]]]]]].
    exists w. cbn. repeat split; auto.
  - destruct (at_boundary st) eqn:Eb; [|contradiction].
    destruct H as [<- | []]. exists []. cbn [app rev cmatches].
    repeat split. destruct st. exact Eb.
  - apply in_flat_map in H as [mid [Hm H]].
    destruct (IH1 _ _ Hm) as [w1 [A1 [B1 M1]]].
    destruct (IH2 _ _ H) as [w2 [A2 [B2 M2]]].
    exists (w1 ++ w2). rewrite A1, A2, B2, B1, rev_app_distr, <- !app_assoc.
    repeat split. cbn [cmatches]. exists w1, w2. repeat split.
    + now rewrite <- A2.
    + now rewrite <- B1.
  - apply in_app_or in H as [H | H].
    + destruct (IH1 _ _ H) as [w [A [B M]]]. exists w. cbn. auto.
    + destruct (IH2 _ _ H) as [w [A [B M]]]. exists w. cbn. auto.
  - apply in_map_iff in H as [mid [<- Hm]].
    destruct (IH1 _ _ Hm) as [w [A [B M]]]. exists w. cbn. auto.
Qed.

Lemma rep_complete (icase : bool) (cs : list atom) :
  forall (w rest : str) (min : nat) (max : option nat) (bh : list char)
         (cp : list (nat * str)),
    Forall (fun c => in_set icase cs c = true) w ->
    min <= length w ->
    match max with Some m => length w <= m | None => True end ->
    In (MState (rev w ++ bh) rest cp) (rep icase cs min max bh (w ++ rest) cp).
Proof.
  induction w as [|c w IH]; intros rest min max bh cp Hw Hmin Hmax.
  - cbn in Hmin. replace min with 0 by lia. cbn [app rev].
    destruct rest as [|c r]; cbn [rep]; apply in_or_app; right; now left.
  - inversion Hw as [|c' w' Hc Hw']; subst. cbn [app rep]. rewrite Hc.
    assert (Ht : can_take max = true).
    { destruct max as [[|m]|]; cbn in *; try reflexivity. lia. }
    rewrite Ht. cbn [andb]. apply in_or_app. left.
    cbn [rev]. rewrite <- app_assoc. cbn [app]. apply IH; auto.
    + cbn in Hmin. lia.
    + destruct max as [m|]; cbn in *; [lia | exact I].
Qed.

(** Every match in context is among the successes of the matcher. *)
Lemma run_complete (icase : bool) :
  forall (r : regex) (bh : list char) (w rest : str),
    cmatches icase r bh w rest ->
    forall cp, exists cp',
      In (MState (rev w ++ bh) rest cp') (run icase r (MState bh (w ++ rest) cp)).
Proof.
  induction r as [|cs|cs min max| |r1 IH1 r2 IH2|r1 IH1 r2 IH2|n r1 IH1];
    intros bh w rest H cp; cbn [cmatches] in H; cbn [run].
  - subst. exists cp. now left.
  - destruct H as [c [-> Hc]]. cbn [app ahead behind caps rev]. rewrite Hc.
    exists cp. now left.
  - destruct H as [Hw [Hmin Hmax]]. exists cp. cbn [behind ahead caps].
    now apply rep_complete.
  - destruct H as [-> Hb]. cbn [app rev]. rewrite at_boundary_caps, Hb.
    exists cp. now left.
  - destruct H as [w1 [w2 [-> [H1 H2]]]].
    destruct (IH1 _ _ _ H1 cp) as [cp1 I1].
    destruct (IH2 _ _ _ H2 cp1) as [cp2 I2].
    exists cp2. apply in_flat_map. eexists. split.
    + rewrite <- app_assoc. exact I1.
    + now rewrite rev_app_distr, <- app_assoc.
  - destruct H as [H | H].
    + destruct (IH1 _ _ _ H cp) as [cp1 I1]. exists cp1.
      apply in_or_app. now left.
    + destruct (IH2 _ _ _ H cp) as [cp2 I2]. exists cp2.
      apply in_or_app. now right.
  - destruct (IH1 _ _ _ H cp) as [cp1 I1]. eexists.
    apply in_map_iff. eexists. split; [|exact I1]. reflexivity.
Qed.

Lemma word_at_head_app (w a b : list char) :
  word_at_head a = word_at_head b ->
  word_at_head (w ++ a) = word_at_head (w ++ b).
Proof. intros H. destruct w; [exact H | reflexivity]. Qed.

(** A match depends on its context only through the word character, or not,
    on each side. *)
Lemma cmatches_ctx (icase : bool) :
  forall (r : regex) (bh bh' : list char) (w rest rest' : str),
    cmatches icase r bh w rest ->
    word_at_head bh' = word_at_head bh ->
    word_at_head rest' = word_at_head rest ->
    cmatches icase r bh' w rest'.
Proof.
  induction r as [|cs|cs min max| |r1 IH1 r2 IH2|r1 IH1 r2 IH2|n r1 IH1];
    intros bh bh' w rest rest' H Hl Hr; cbn [cmatches] in *; auto.
  - destruct H as [-> Hb]. split; [reflexivity|].
    rewrite at_boundary_heads in *. cbn [behind ahead] in *. now rewrite Hl, Hr.
  - destruct H as [w1 [w2 [-> [H1 H2]]]]. exists w1, w2. repeat split.
    + apply (IH1 bh bh' w1 (w2 ++ rest)); auto. now apply word_at_head_app.
    + apply (IH2 (rev w1 ++ bh) _ w2 rest); auto. now apply word_at_head_app.
  - destruct H as [H | H]; [left | right]; eauto.
  - eauto.
Qed.

Lemma run_caps (icase : bool) :
  forall (r : regex) (st st' : mstate),
    group_free r = true -> In st' (run icase r st) -> caps st' = caps st.
Proof.
  induction r as [|cs|cs min max| |r1 IH1 r2 IH2|r1 IH1 r2 IH2|n r1 IH1];
    intros st st' Hg H; cbn [run group_free] in *; try discriminate.
  - destruct H as [<- | []]. reflexivity.
  - destruct (ahead st) as [|c rest]; [contradiction|].
    destruct (in_set icase cs c); [|contradiction].
    destruct H as [<- | []]. reflexivity.
  - destruct (rep_sound _ _ _ _ _ _ _ _ H) as [w [_ [_ [H3 _]]]]. exact H3.
  - destruct (at_boundary st); [|contradiction].
    destruct H as [<- | []]. reflexivity.
  - apply andb_true_iff in Hg as [G1 G2].
    apply in_flat_map in H as [mid [Hm H]].
    rewrite (IH2 _ _ G2 H). now apply IH1.
  - apply andb_true_iff in Hg as [G1 G2].
    apply in_app_or in H as [H | H]; auto.
Qed.

End Semantics.

(** *** One pass of [re.sub] and the matches of a second pattern *)

(** A text that ends with [']'] and holds no digit shares no prefix with a
    word that holds no [']'] and ends with a digit. *)
Lemma mask_word_conflict {UD : Unicode} (e x w y : str) :
  e <> [] -> (exists e0, e = e0 ++ [93%N]) ->
  Forall (fun c => isdecimal c = false) e ->
  Forall (fun c => c <> 93%N) w ->
  (exists w0 d, w = w0 ++ [d] /\ isdecimal d = true) ->
  e ++ x = w ++ y -> False.
Proof.
  intros _ [e0 ->] He Hw [w0 [d [-> Hd]]] E.
  apply app_eq_app in E as [l [[E1 E2] | [E1 E2]]].
  - destruct l as [|c l].
    + rewrite app_nil_r in E1. apply app_inj_tail in E1 as [_ E1].
      subst d. apply Forall_app in He as [_ He]. inversion He as [|? ? Hc _].
      congruence.
    + assert (E3 : e0 ++ [93%N] = (w0 ++ [d]) ++ c :: l) by exact E1.
      rewrite E3 in He. apply Forall_app in He as [He _].
      apply Forall_app in He as [_ He]. inversion He as [|? ? Hc _].
      congruence.
  - rewrite E1 in Hw. apply Forall_app in Hw as [Hw _].
    apply Forall_app in Hw as [_ Hw]. inversion Hw as [|? ? Hc _].
    now apply Hc.
Qed.

Section Pass.
Context {UD : Unicode}.
Variables (ir : bool) (r : regex) (tpl : list piece).

(** The matches of the pass are not empty, and what replaces them ends with
    [']'] and holds no digit. *)
Hypothesis Hr_ne : forall bh w rest, cmatches ir r bh w rest -> w <> [].
Hypothesis Hr_exp : forall bh ah st', In st' (run ir r (MState bh ah [])) ->
  (exists e0, expand tpl st' = e0 ++ [93%N]) /\
  Forall (fun c => isdecimal c = false) (expand tpl st').

(** One step of the scan: a character is copied, or a match replaced. *)
Lemma scan_step (bh : list char) (ah : str) :
  (run ir r (MState bh ah []) = [] /\
   sub_scan ir r tpl 0 bh ah
   = match ah with
     | [] => []
     | c :: rest => c :: sub_scan ir r tpl 0 (c :: bh) rest
     end) \/
  (exists st' tail m,
     run ir r (MState bh ah []) = st' :: tail /\ m <> [] /\
     ah = m ++ ahead st' /\ behind st' = rev m ++ bh /\
     sub_scan ir r tpl 0 bh ah
     = expand tpl st' ++ sub_scan ir r tpl 0 (behind st') (ahead st')).
Proof.
  destruct (run ir r (MState bh ah [])) as [|st' tail] eqn:E.
  - left. split; [reflexivity|]. destruct ah as [|c rest]; cbn [sub_scan];
      now rewrite E.
  - right. assert (I : In st' (run ir r (MState bh ah []))) by (rewrite E; now left).
    destruct (run_csound _ _ _ _ I) as [m [A [B M]]]. cbn [ahead behind] in A, B, M.
    exists st', tail, m. apply Hr_ne in M. repeat split; auto.
    rewrite A in E |- *. rewrite B.
    now apply (sub_scan_match ir r tpl m (ahead st') bh st' tail).
Qed.

Lemma expansion_nonempty (bh : list char) (ah : str) (st' : mstate) :
  In st' (run ir r (MState bh ah [])) -> expand tpl st' <> [].
Proof.
  intros I. destruct (Hr_exp _ _ _ I) as [[e0 E] _]. rewrite E.
  destruct e0; discriminate.
Qed.

Section Second.
Variables (iq : bool) (q : regex) (t : str).

(** The words of the second pattern hold no [']'] and end with a digit. *)
Hypothesis Hq_word : forall bh w rest, cmatches iq q bh w rest ->
  Forall (fun c => c <> 93%N) w /\
  exists w0 d, w = w0 ++ [d] /\ isdecimal d = true.
(** Where the pass finds no match in the input, the second pattern has
    none. *)
Hypothesis Hcopy : forall bh ah, rev bh ++ ah = t ->
  run ir r (MState bh ah []) = [] -> run iq q (MState bh ah []) = [].
(** After a digit, a replacement starts as the match it replaces. *)
Hypothesis Hright : forall d bh ah st', isdecimal d = true ->
  In st' (run ir r (MState (d :: bh) ah [])) ->
  word_at_head (expand tpl st') = word_at_head ah.
(** A word of the second pattern right after a replacement was one in the
    input, right after the match replaced. *)
Hypothesis Hhit : forall bh ah st' w b bo0 v',
  In st' (run ir r (MState bh ah [])) -> ahead st' = w ++ b ->
  cmatches iq q (rev (expand tpl st') ++ bo0) w v' ->
  word_at_head b = word_at_head v' ->
  re_sub ir r tpl t = rev bo0 ++ expand tpl st' ++ w ++ v' ->
  cmatches iq q (behind st') w b.

Lemma scan_head (d : char) (bh : list char) (ah : str) :
  isdecimal d = true ->
  word_at_head (sub_scan ir r tpl 0 (d :: bh) ah) = word_at_head ah.
Proof.
  intros Hd. destruct (scan_step (d :: bh) ah) as [[E S] | [st' [tail [m [E [Hm [A [B S]]]]]]]].
  - rewrite S. now destruct ah.
  - rewrite S. assert (I : In st' (run ir r (MState (d :: bh) ah []))) by (rewrite E; now left).
    rewrite <- (Hright d bh ah st' Hd I).
    pose proof (expansion_nonempty _ _ _ I) as Ne.
    destruct (expand tpl st'); [congruence | reflexivity].
Qed.

(** A word of the second pattern at the head of the output of a scan that
    starts by copying was copied as a whole. *)
Lemma copy_prefix :
  forall w : str,
    Forall (fun c => c <> 93%N) w ->
    (exists w0 d, w = w0 ++ [d] /\ isdecimal d = true) ->
    forall (bh : list char) (ah v' : str),
      sub_scan ir r tpl 0 bh ah = w ++ v' ->
      run ir r (MState bh ah []) = [] ->
      exists b, ah = w ++ b /\ word_at_head b = word_at_head v'.
Proof.
  induction w as [|c w IH]; intros Hw Hl bh ah v' S E.
  - destruct Hl as [w0 [d [Hl _]]]. destruct w0; discriminate.
  - destruct (scan_step bh ah) as [[_ S1] | [st' [tail [m [E1 _]]]]];
      [|congruence].
    rewrite S1 in S. destruct ah as [|c0 rest]; [discriminate|].
    cbn [app] in S. injection S as -> S.
    inversion Hw as [|? ? Hc Hw']; subst.
    destruct w as [|c' w].
    + exists rest. split; [reflexivity|]. cbn [app] in S. rewrite <- S.
      destruct Hl as [w0 [d [Hl Hd]]].
      destruct w0 as [|x [|y w0]]; try discriminate.
      injection Hl as ->. symmetry. now apply scan_head.
    + assert (Hl' : exists w0 d, c' :: w = w0 ++ [d] /\ isdecimal d = true).
      { destruct Hl as [w0 [d [Hl Hd]]].
        destruct (last_of_app [c] (c' :: w) w0 d) as [l0 El];
          [discriminate | exact Hl | eauto]. }
      destruct (scan_step (c :: bh) rest) as [[E2 S2] | [st' [tail [m [E2 [Hm [A [B S2]]]]]]]].
      * destruct (IH Hw' Hl' (c :: bh) rest v' S E2) as [b [-> Hb]].
        exists b. now split.
      * exfalso. rewrite S2 in S.
        assert (I : In st' (run ir r (MState (c :: bh) rest []))) by (rewrite E2; now left).
        destruct (Hr_exp _ _ _ I) as [He1 He2].
        exact (mask_word_conflict _ _ _ _ (expansion_nonempty _ _ _ I) He1 He2 Hw' Hl' S).
Qed.

(** The invariant of the scan: the cursor in the input, the output so far, and
    what stands before each of them. *)
Lemma scan_no_hit :
  forall (n : nat) (bh : list char) (ah : str) (bo : list char),
    length ah <= n ->
    rev bh ++ ah = t ->
    rev bo ++ sub_scan ir r tpl 0 bh ah = re_sub ir r tpl t ->
    (word_at_head bo = word_at_head bh \/
     exists bh0 ah0 st' bo0,
       In st' (run ir r (MState bh0 ah0 [])) /\ bh = behind st' /\
       ah = ahead st' /\ bo = rev (expand tpl st') ++ bo0) ->
    forall u v, sub_scan ir r tpl 0 bh ah = u ++ v ->
                run iq q (MState (rev u ++ bo) v []) = [].
Proof.
  induction n as [|n IH]; intros bh ah bo Hn T1 T2 T3 u v S.
  - destruct ah; [|cbn in Hn; lia].
    destruct (scan_step bh []) as [[E S1] | [st' [tail [m [E [Hm [A _]]]]]]].
    + rewrite S1 in S. destruct u; [|discriminate]. destruct v; [|discriminate].
      destruct (run iq q (MState (rev [] ++ bo) [] [])) as [|st2 l] eqn:E2;
        [reflexivity|].
      assert (I : In st2 (run iq q (MState (rev [] ++ bo) [] []))) by (rewrite E2; now left).
      destruct (run_csound _ _ _ _ I) as [w [A [_ M]]]. cbn [ahead] in A.
      destruct (Hq_word _ _ _ M) as [_ [w0 [d [-> _]]]].
      destruct w0; discriminate.
    + destruct m; [congruence | discriminate].
  - destruct (scan_step bh ah) as [[E S1] | [st' [tail [m [E [Hm [A [B S1]]]]]]]].
    + destruct ah as [|c rest].
      * rewrite S1 in S. destruct u; [|discriminate]. destruct v; [|discriminate].
        destruct (run iq q (MState (rev [] ++ bo) [] [])) as [|st2 l] eqn:E2;
          [reflexivity|].
        assert (I : In st2 (run iq q (MState (rev [] ++ bo) [] []))) by (rewrite E2; now left).
        destruct (run_csound _ _ _ _ I) as [w [A [_ M]]]. cbn [ahead] in A.
        destruct (Hq_word _ _ _ M) as [_ [w0 [d [-> _]]]].
        destruct w0; discriminate.
      * destruct u as [|c1 u].
        -- cbn [rev app] in *. subst v.
           destruct (run iq q (MState bo (sub_scan ir r tpl 0 bh (c :: rest)) []))
             as [|st2 l] eqn:E2; [reflexivity|]. exfalso.
           assert (I : In st2 (run iq q (MState bo (sub_scan ir r tpl 0 bh (c :: rest)) [])))
             by (rewrite E2; now left).
           destruct (run_csound _ _ _ _ I) as [w [A [_ M]]]. cbn [ahead behind] in A, M.
           destruct (Hq_word _ _ _ M) as [Hw Hl].
           destruct (copy_prefix w Hw Hl bh (c :: rest) (ahead st2) A E) as [b [Eb Hb]].
           assert (M' : cmatches iq q bh w b).
           { destruct T3 as [T3 | [bh0 [ah0 [st' [bo0 [I' [-> [T4 ->]]]]]]]].
             - now apply (cmatches_ctx iq q bo bh w (ahead st2) b).
             - apply (Hhit bh0 ah0 st' w b bo0 (ahead st2)); auto.
               + now rewrite <- T4.
               + rewrite <- T2, A, rev_app_distr, rev_involutive.
                 now rewrite <- !app_assoc. }
           destruct (run_complete iq q bh w b M' []) as [cp' I2].
           rewrite <- Eb, (Hcopy bh (c :: rest) T1 E) in I2. exact I2.
        -- rewrite S1 in S. injection S as Hc S. subst c1.
           cbn [rev]. rewrite <- app_assoc. cbn [app].
           apply (IH (c :: bh) rest (c :: bo)); auto.
           ++ cbn [length] in Hn. lia.
           ++ cbn [rev]. now rewrite <- app_assoc.
           ++ cbn [rev]. rewrite <- app_assoc. cbn [app]. now rewrite <- S1.
    + assert (I : In st' (run ir r (MState bh ah []))) by (rewrite E; now left).
      assert (Hlater : forall l, sub_scan ir r tpl 0 (behind st') (ahead st') = l ++ v ->
                run iq q (MState (rev (expand tpl st' ++ l) ++ bo) v []) = []).
      { intros l El. rewrite rev_app_distr, <- app_assoc.
        apply (IH (behind st') (ahead st') (rev (expand tpl st') ++ bo)); auto.
        - rewrite A, length_app in Hn. destruct m; [congruence|]. cbn [length] in Hn. lia.
        - rewrite B, rev_app_distr, rev_involutive, <- app_assoc. now rewrite <- A.
        - rewrite rev_app_distr, rev_involutive, <- app_assoc. now rewrite <- S1.
        - right. exists bh, ah, st', bo. auto. }
      rewrite S1 in S. apply app_eq_app in S as [l [[E1 E2] | [E1 E2]]].
      * destruct l as [|x l].
        -- rewrite app_nil_r in E1. cbn [app] in E2. subst v.
           rewrite <- E1. rewrite <- (app_nil_r (expand tpl st')) at 1.
           now apply Hlater.
        -- destruct (run iq q (MState (rev u ++ bo) v [])) as [|st2 l2] eqn:E3;
             [reflexivity|]. exfalso.
           assert (I2 : In st2 (run iq q (MState (rev u ++ bo) v []))) by (rewrite E3; now left).
           destruct (run_csound _ _ _ _ I2) as [w [A2 [_ M]]]. cbn [ahead behind] in A2, M.
           destruct (Hq_word _ _ _ M) as [Hw Hl].
           destruct (Hr_exp _ _ _ I) as [[e0 He1] He2].
           assert (Hx : exists l0, x :: l = l0 ++ [93%N]).
           { apply (last_of_app u (x :: l) e0 93%N); [discriminate|]. now rewrite <- E1. }
           rewrite E1 in He2. apply Forall_app in He2 as [_ He2].
           rewrite A2 in E2.
           apply (mask_word_conflict (x :: l) (sub_scan ir r tpl 0 (behind st') (ahead st'))
                    w (ahead st2)); auto. discriminate.
      * rewrite E1. now apply Hlater.
Qed.

(** After the pass, the second pattern matches nowhere. *)
Lemma pass_no_hit :
  forall u v, re_sub ir r tpl t = u ++ v ->
              run iq q (MState (rev u) v []) = [].
Proof.
  intros u v S. rewrite <- (app_nil_r (rev u)).
  apply (scan_no_hit (length t) [] t []); auto.
Qed.

End Second.

(** A pass that replaces a match takes digits away; one that replaces none
    changes nothing. *)
Hypothesis Hr_digit : forall bh w rest, cmatches ir r bh w rest -> 0 < ndigits w.

Lemma scan_digits :
  forall (n : nat) (ah : str) (bh : list char),
    length ah <= n ->
    ndigits (sub_scan ir r tpl 0 bh ah) < ndigits ah \/
    (sub_scan ir r tpl 0 bh ah = ah /\
     forall u v, ah = u ++ v -> run ir r (MState (rev u ++ bh) v []) = []).
Proof.
  induction n as [|n IH]; intros ah bh Hn.
  - destruct ah; [|cbn in Hn; lia]. right.
    destruct (scan_step bh []) as [[E S1] | [st' [tail [m [E [Hm [A _]]]]]]].
    + split; [exact S1|]. intros u v Huv. destruct u; [|discriminate].
      destruct v; [|discriminate]. exact E.
    + destruct m; [congruence | discriminate].
  - destruct (scan_step bh ah) as [[E S1] | [st' [tail [m [E [Hm [A [B S1]]]]]]]].
    + destruct ah as [|c rest].
      * right. split; [exact S1|]. intros u v Huv. destruct u; [|discriminate].
        destruct v; [|discriminate]. exact E.
      * rewrite S1. cbn [length] in Hn.
        destruct (IH rest (c :: bh) ltac:(lia)) as [Hlt | [Heq Hno]].
        -- left. change (c :: sub_scan ir r tpl 0 (c :: bh) rest)
             with ([c] ++ sub_scan ir r tpl 0 (c :: bh) rest).
           change (c :: rest) with ([c] ++ rest). rewrite !ndigits_app. lia.
        -- right. rewrite Heq. split; [reflexivity|].
           intros u v Huv. destruct u as [|c1 u].
           ++ cbn [app] in Huv. subst v. exact E.
           ++ injection Huv as <- Huv. cbn [rev]. rewrite <- app_assoc.
              now apply Hno.
    + left. assert (I : In st' (run ir r (MState bh ah []))) by (rewrite E; now left).
      destruct (run_csound _ _ _ _ I) as [m' [A' [B' M]]]. cbn [ahead behind] in A', B', M.
      apply Hr_digit in M.
      assert (m' = m).
      { rewrite A in A'. apply app_inv_tail in A'. now symmetry. }
      subst m'. rewrite S1.
      assert (Hah : ndigits ah = ndigits m + ndigits (ahead st')).
      { rewrite A at 1. apply ndigits_app. }
      rewrite Hah, ndigits_app.
      destruct (Hr_exp _ _ _ I) as [_ He]. rewrite (ndigits_none _ He).
      assert (Hlen : length (ahead st') <= n).
      { rewrite A, length_app in Hn. destruct m; [congruence|]. cbn [length] in Hn. lia. }
      destruct (IH (ahead st') (behind st') Hlen) as [Hlt | [Heq _]].
      * lia.
      * rewrite Heq. lia.
Qed.

Lemma re_sub_digits (s : str) :
  ndigits (re_sub ir r tpl s) < ndigits s \/
  (re_sub ir r tpl s = s /\
   forall u v, s = u ++ v -> run ir r (MState (rev u) v []) = []).
Proof.
  destruct (scan_digits (length s) s [] (le_n _)) as [H | [H1 H2]];
    [now left | right].
  split; [exact H1|]. intros u v E. specialize (H2 u v E).
  now rewrite app_nil_r in H2.
Qed.

Lemma re_sub_digits_le (s : str) : ndigits (re_sub ir r tpl s) <= ndigits s.
Proof. destruct (re_sub_digits s) as [H | [-> _]]; lia. Qed.

End Pass.

(** *** The three rules of the sanitizer *)

Section Rules.
Context {UD : Unicode}.

Lemma bracket_not_decimal : isdecimal 93%N = false.
Proof. rewrite isdecimal_latin1 by lia. reflexivity. Qed.

Lemma bracket_not_space : isspace 93%N = false.
Proof. rewrite isspace_latin1 by lia. reflexivity. Qed.

Lemma digit_set_all (icase : bool) (b : str) :
  Forall (fun c => in_set icase [Digit] c = true) b ->
  Forall (fun c => isdecimal c = true) b.
Proof.
  apply Forall_impl. intros c H. now rewrite in_set_digit in H.
Qed.

Lemma digits_no_bracket (b : str) :
  Forall (fun c => isdecimal c = true) b -> Forall (fun c => c <> 93%N) b.
Proof.
  apply Forall_impl. intros c H ->. rewrite bracket_not_decimal in H.
  discriminate.
Qed.

Lemma card_seps_no_bracket (s : str) :
  Forall (fun c => in_set false card_seps c = true) s ->
  Forall (fun c => c <> 93%N) s.
Proof.
  apply Forall_impl. intros c H ->. rewrite in_set_card_seps in H.
  rewrite bracket_not_space in H. discriminate.
Qed.

Lemma seps_no_bracket (s : str) :
  Forall (fun c => in_set true seps c = true) s ->
  Forall (fun c => c <> 93%N) s.
Proof.
  apply Forall_impl. intros c H ->. rewrite in_set_seps in H.
  rewrite bracket_not_space in H. discriminate.
Qed.

Lemma ends_with_digit (b : str) :
  b <> [] -> Forall (fun c => isdecimal c = true) b ->
  exists w0 d, b = w0 ++ [d] /\ isdecimal d = true.
Proof.
  intros Hb Hd. destruct (exists_last Hb) as [b0 [d ->]].
  apply Forall_app in Hd as [_ Hd]. inversion Hd; subst. eauto.
Qed.

Lemma ends_app (a b : str) :
  (exists w0 d, b = w0 ++ [d] /\ isdecimal d = true) ->
  exists w0 d, a ++ b = w0 ++ [d] /\ isdecimal d = true.
Proof.
  intros [w0 [d [-> Hd]]]. exists (a ++ w0), d. now rewrite app_assoc.
Qed.

Lemma starts_with_digit (b rest : str) :
  b <> [] -> Forall (fun c => isdecimal c = true) b ->
  exists d w1, b ++ rest = d :: w1 /\ isdecimal d = true.
Proof.
  intros Hb Hd. destruct b as [|d b]; [congruence|]. inversion Hd; subst.
  exists d, (b ++ rest). now split.
Qed.

Lemma nonempty_of_min {A : Type} (l : list A) (n : nat) :
  S n <= length l -> l <> [].
Proof. intros H ->. cbn in H. lia. Qed.

(** The card rule and the account rule are digit rules. *)
Lemma card_is_digit_rule : digit_rule false card_pattern.
Proof.
  intros bh w rest H. unfold card_pattern, times, opt in H.
  change (Space :: set "-") with card_seps in H. cbn [cmatches] in H.
  destruct H as (w0 & x1 & -> & [-> B0] & b1 & x2 & -> & (F1 & L1 & _)
                 & s1 & x3 & -> & (G1 & _) & b2 & x4 & -> & (F2 & L2 & _)
                 & s2 & x5 & -> & (G2 & _) & b3 & x6 & -> & (F3 & L3 & _)
                 & s3 & x7 & -> & (G3 & _) & b4 & x8 & -> & (F4 & L4 & _)
                 & -> & B1).
  apply digit_set_all in F1, F2, F3, F4.
  pose proof (nonempty_of_min _ _ L1) as N1.
  pose proof (nonempty_of_min _ _ L4) as N4.
  rewrite at_boundary_heads in B0, B1. cbn [behind ahead rev app] in B0, B1.
  rewrite <- !app_assoc in B0. rewrite (word_before_digits b1 _ N1 F1) in B0.
  rewrite (word_after_digits b4 _ N4 F4) in B1.
  cbn [app]. repeat split.
  - now destruct (word_at_head bh).
  - now destruct (word_at_head rest).
  - now apply starts_with_digit.
  - repeat (apply Forall_app; split);
      auto using digits_no_bracket, card_seps_no_bracket.
  - do 6 apply ends_app. rewrite app_nil_r. now apply ends_with_digit.
Qed.

Lemma account_is_digit_rule : digit_rule false account_pattern.
Proof.
  intros bh w rest H. unfold account_pattern, times in H. cbn [cmatches] in H.
  destruct H as (w0 & x1 & -> & [-> B0] & b1 & x2 & -> & (F1 & L1 & _)
                 & -> & B1).
  apply digit_set_all in F1.
  pose proof (nonempty_of_min _ _ L1) as N1.
  rewrite at_boundary_heads in B0, B1. cbn [behind ahead rev app] in B0, B1.
  rewrite <- !app_assoc in B0. rewrite (word_before_digits b1 _ N1 F1) in B0.
  rewrite (word_after_digits b1 _ N1 F1) in B1.
  cbn [app]. repeat split.
  - now destruct (word_at_head bh).
  - now destruct (word_at_head rest).
  - now apply starts_with_digit.
  - rewrite app_nil_r. now apply digits_no_bracket.
  - rewrite app_nil_r. now apply ends_with_digit.
Qed.

Lemma latin1_no_digit (s : str) :
  forallb (fun c => (c <? 256)%N && negb (isdecimal1 c)) s = true ->
  Forall (fun c => isdecimal c = false) s.
Proof.
  intros H. apply Forall_forall. intros c Hc. rewrite forallb_forall in H.
  specialize (H c Hc). apply andb_true_iff in H as [H1 H2].
  apply N.ltb_lt in H1. apply negb_true_iff in H2.
  now rewrite isdecimal_latin1.
Qed.

Lemma expand_text (token : str) (st : mstate) : expand [Text token] st = token.
Proof. unfold expand. cbn [flat_map]. apply app_nil_r. Qed.

(** ** A pass of a digit rule *)

Lemma digit_rule_nonempty (icase : bool) (r : regex) :
  digit_rule icase r ->
  forall bh w rest, cmatches icase r bh w rest -> w <> [].
Proof.
  intros Hr bh w rest M. destruct (Hr _ _ _ M) as (_ & _ & (d & w1 & -> & _) & _).
  discriminate.
Qed.

Lemma digit_rule_word (icase : bool) (r : regex) :
  digit_rule icase r ->
  forall bh w rest, cmatches icase r bh w rest ->
    Forall (fun c => c <> 93%N) w /\
    exists w0 d, w = w0 ++ [d] /\ isdecimal d = true.
Proof. intros Hr bh w rest M. now destruct (Hr _ _ _ M) as (_ & _ & _ & A & B). Qed.

Lemma digit_rule_digit (icase : bool) (r : regex) :
  digit_rule icase r ->
  forall bh w rest, cmatches icase r bh w rest -> 0 < ndigits w.
Proof.
  intros Hr bh w rest M. destruct (Hr _ _ _ M) as (_ & _ & (d & w1 & -> & Hd) & _).
  unfold ndigits. cbn [filter]. rewrite Hd. cbn [length]. lia.
Qed.

Lemma token_expansion (icase : bool) (r : regex) (token : str) :
  (exists e0, token = e0 ++ [93%N]) ->
  Forall (fun c => isdecimal c = false) token ->
  forall bh ah st', In st' (run icase r (MState bh ah [])) ->
    (exists e0, expand [Text token] st' = e0 ++ [93%N]) /\
    Forall (fun c => isdecimal c = false) (expand [Text token] st').
Proof. intros H1 H2 bh ah st' _. now rewrite expand_text. Qed.

(** After a pass of a digit rule, a digit rule that matched nowhere the pass
    left the input alone matches nowhere. *)
Lemma digit_pass_no_hit (ir iq : bool) (r q : regex) (token t : str) :
  digit_rule ir r -> digit_rule iq q ->
  (exists e0, token = e0 ++ [93%N]) ->
  Forall (fun c => isdecimal c = false) token ->
  (forall bh ah, rev bh ++ ah = t ->
     run ir r (MState bh ah []) = [] -> run iq q (MState bh ah []) = []) ->
  forall u v, re_sub ir r [Text token] t = u ++ v ->
              run iq q (MState (rev u) v []) = [].
Proof.
  intros Hr Hq T1 T2 Hcopy.
  apply (pass_no_hit ir r [Text token] (digit_rule_nonempty ir r Hr)
           (token_expansion ir r token T1 T2) iq q t (digit_rule_word iq q Hq) Hcopy).
  - intros d bh ah st' Hd I. exfalso.
    destruct (run_csound _ _ _ _ I) as [m [_ [_ M]]]. cbn [behind] in M.
    destruct (Hr _ _ _ M) as (B & _). cbn [word_at_head] in B.
    now rewrite (digit_is_word d Hd) in B.
  - intros bh ah st' w b bo0 v' I A Mq _ _. exfalso.
    destruct (run_csound _ _ _ _ I) as [m [_ [_ M]]].
    destruct (Hr _ _ _ M) as (_ & B & _). rewrite A in B.
    destruct (Hq _ _ _ Mq) as (_ & _ & (d & w1 & -> & Hd) & _).
    cbn [app word_at_head] in B. now rewrite (digit_is_word d Hd) in B.
Qed.

(** ** The pass of the CVV rule *)

Lemma label_no_bracket (label : str) :
  In label cvv_labels ->
  Forall (fun p => (p < 256)%N /\ char_eqb (lower1 p) 93%N = false) label.
Proof.
  intros Hin.
  assert (A : forallb (fun l =>
                forallb (fun p => (p <? 256)%N && negb (char_eqb (lower1 p) 93%N)) l)
                cvv_labels = true) by (vm_compute; reflexivity).
  rewrite forallb_forall in A. specialize (A label Hin).
  apply Forall_forall. intros p Hp. rewrite forallb_forall in A.
  specialize (A p Hp). apply andb_true_iff in A as [A1 A2].
  apply N.ltb_lt in A1. apply negb_true_iff in A2. now split.
Qed.

Lemma spells_no_bracket (label w : str) :
  In label cvv_labels -> spells label w -> Forall (fun c => c <> 93%N) w.
Proof.
  intros Hin Hs. pose proof (label_no_bracket label Hin) as F. clear Hin.
  induction Hs as [|p y l w Hpy Hs IH]; [constructor|].
  inversion F as [|p' l' [Hp Hb] F']; subst.
  constructor; [|now apply IH]. intros ->.
  rewrite in_set_lit in Hpy by (try exact Hp; lia).
  change (lower1 93%N) with 93%N in Hpy. congruence.
Qed.

Lemma cvv_label_spelled (L : str) :
  matches true (txt "cvv" <|> txt "código" <|> txt "code" <|> txt "cvc")%re L ->
  exists label, In label cvv_labels /\ spells label L.
Proof.
  cbn [matches]. unfold txt, cvv_labels. cbn [map].
  intros [H | [H | [H | H]]]; apply matches_lit_spells in H;
    eexists; (split; [|exact H]); cbn [In]; auto.
Qed.

(** A match of the CVV rule: a label, separators, three or four digits. *)
Lemma cvv_word (bh : list char) (w rest : str) :
  cmatches true cvv_pattern bh w rest ->
  Forall (fun c => c <> 93%N) w /\
  (exists w0 d, w = w0 ++ [d] /\ isdecimal d = true).
Proof.
  intros H. unfold cvv_pattern in H.
  cbn [cmatches] in H.
  destruct H as (L & x & -> & HL & H).
  assert (ML : matches true (txt "cvv" <|> txt "código" <|> txt "code" <|> txt "cvc")%re L).
  { cbn [matches]. destruct HL as [HL | [HL | [HL | HL]]];
      apply cmatches_matches in HL; auto. }
  destruct (cvv_label_spelled L ML) as [label [Hin Hs]].
  unfold plus, times in H. change (Space :: set ":") with seps in H.
  cbn [cmatches] in H.
  destruct H as (S & D & -> & (FS & _) & (FD & LD & _)).
  apply digit_set_all in FD. split.
  - repeat (apply Forall_app; split);
      eauto using digits_no_bracket, seps_no_bracket, spells_no_bracket.
  - do 2 apply ends_app. apply ends_with_digit; [|exact FD].
    now apply (nonempty_of_min D 2).
Qed.

Lemma cvv_nonempty (bh : list char) (w rest : str) :
  cmatches true cvv_pattern bh w rest -> w <> [].
Proof.
  intros M. destruct (cvv_word _ _ _ M) as [_ [w0 [d [-> _]]]].
  destruct w0; discriminate.
Qed.

Lemma cvv_digit (bh : list char) (w rest : str) :
  cmatches true cvv_pattern bh w rest -> 0 < ndigits w.
Proof.
  intros M. destruct (cvv_word _ _ _ M) as [_ [w0 [d [-> Hd]]]].
  rewrite ndigits_app. unfold ndigits at 2. cbn [filter]. rewrite Hd.
  cbn [length]. lia.
Qed.

(** What the CVV rule writes for a match: the label as it was spelled, and
    the mask. *)
Lemma cvv_run_shape (bh : list char) (ah : str) (st' : mstate) :
  In st' (run true cvv_pattern (MState bh ah [])) ->
  exists label L x,
    In label cvv_labels /\ spells label L /\ ah = L ++ x /\
    expand [Ref 1; Text (U ": [OCULTO]")] st' = L ++ U ": [OCULTO]".
Proof.
  intros I. unfold cvv_pattern in I.
  remember (txt "cvv" <|> txt "código" <|> txt "code" <|> txt "cvc")%re as alt eqn:Ealt.
  remember (plus (Space :: set ":") +++ times [Digit] 3 4)%re as tail eqn:Etail.
  cbn [run] in I. apply in_flat_map in I as [mid [Hm I]].
  apply in_map_iff in Hm as [st1 [Emid I1]].
  destruct (run_csound _ _ _ _ I1) as [L [A [B M]]]. cbn [ahead behind] in A, B, M.
  assert (G1 : group_free alt = true) by (subst alt; vm_compute; reflexivity).
  assert (G2 : group_free tail = true) by (subst tail; vm_compute; reflexivity).
  pose proof (run_caps _ _ _ _ G1 I1) as C1. cbn [caps] in C1.
  pose proof (run_caps _ _ _ _ G2 I) as C2.
  destruct st1 as [b1 a1 c1]. cbn [ahead behind caps] in *. subst b1 c1.
  rewrite consumed_eq in Emid. subst mid. cbn [caps] in C2.
  apply cmatches_matches in M. subst alt.
  destruct (cvv_label_spelled L M) as [label [Hin Hs]].
  exists label, L, a1. repeat split; auto.
  unfold expand. cbn [flat_map]. rewrite C2. cbn [lookup_cap Nat.eqb].
  now rewrite app_nil_r.
Qed.

Lemma cvv_expansion (bh : list char) (ah : str) (st' : mstate) :
  In st' (run true cvv_pattern (MState bh ah [])) ->
  (exists e0, expand [Ref 1; Text (U ": [OCULTO]")] st' = e0 ++ [93%N]) /\
  Forall (fun c => isdecimal c = false) (expand [Ref 1; Text (U ": [OCULTO]")] st').
Proof.
  intros I. destruct (cvv_run_shape _ _ _ I) as (label & L & x & Hin & Hs & _ & ->).
  split.
  - exists (L ++ U ": [OCULTO"). rewrite <- app_assoc. apply f_equal.
    vm_compute. reflexivity.
  - apply Forall_app. split.
    + now destruct (spells_facts label L Hin Hs) as (_ & _ & F).
    + apply latin1_no_digit. vm_compute. reflexivity.
Qed.

Lemma cvv_right (d : char) (bh : list char) (ah : str) (st' : mstate) :
  isdecimal d = true ->
  In st' (run true cvv_pattern (MState (d :: bh) ah [])) ->
  word_at_head (expand [Ref 1; Text (U ": [OCULTO]")] st') = word_at_head ah.
Proof.
  intros _ I. destruct (cvv_run_shape _ _ _ I) as (label & L & x & Hin & Hs & -> & ->).
  destruct (spells_facts label L Hin Hs) as (Hne & _).
  destruct L; [congruence | reflexivity].
Qed.

(** After the pass of the CVV rule, the rule matches nowhere. *)
Lemma cvv_pass_no_cvv (t : str) :
  forall u v, re_sub true cvv_pattern [Ref 1; Text (U ": [OCULTO]")] t = u ++ v ->
              run true cvv_pattern (MState (rev u) v []) = [].
Proof.
  apply (pass_no_hit true cvv_pattern [Ref 1; Text (U ": [OCULTO]")]
           cvv_nonempty cvv_expansion true cvv_pattern t cvv_word).
  - auto.
  - exact cvv_right.
  - intros bh ah st' w b bo0 v' _ _ M _ _.
    apply matches_cmatches; [vm_compute; reflexivity|].
    now apply cmatches_matches in M.
Qed.

(** After the pass of the CVV rule, a digit rule that matched nowhere in the
    input matches at most right after a mask. *)
Lemma cvv_pass_no_hit (iq : bool) (q : regex) (t : str) :
  digit_rule iq q ->
  (forall bh ah, rev bh ++ ah = t -> run iq q (MState bh ah []) = []) ->
  (forall u v,
     re_sub true cvv_pattern [Ref 1; Text (U ": [OCULTO]")] t = u ++ cvv_mask ++ v ->
     run iq q (MState (rev cvv_mask ++ rev u) v []) = []) ->
  forall u v, re_sub true cvv_pattern [Ref 1; Text (U ": [OCULTO]")] t = u ++ v ->
              run iq q (MState (rev u) v []) = [].
Proof.
  intros Hq Hin Hmask.
  apply (pass_no_hit true cvv_pattern [Ref 1; Text (U ": [OCULTO]")]
           cvv_nonempty cvv_expansion iq q t (digit_rule_word iq q Hq)).
  - intros bh ah T _. now apply Hin.
  - exact cvv_right.
  - intros bh ah st' w b bo0 v' I _ M _ Y. exfalso.
    destruct (cvv_run_shape _ _ _ I) as (label & L & x & _ & _ & _ & E).
    rewrite E in M, Y.
    destruct (run_complete iq q _ w v' M []) as [cp' I2].
    replace (U ": [OCULTO]") with (U ": " ++ cvv_mask) in Y, I2
      by (vm_compute; reflexivity).
    specialize (Hmask (rev bo0 ++ L ++ U ": ") (w ++ v')).
    rewrite <- !app_assoc in Hmask. rewrite <- !app_assoc in Y.
    specialize (Hmask Y).
    rewrite !rev_app_distr, rev_involutive, <- !app_assoc in Hmask.
    rewrite !rev_app_distr, <- !app_assoc in I2.
    rewrite Hmask in I2. exact I2.
Qed.

End Rules.

(** *** Applying the sanitizer twice *)

Section Twice.
Context {UD : Unicode}.

Lemma no_hit_fixed (icase : bool) (r : regex) (tpl : list piece) (s : str) :
  (forall u v, s = u ++ v -> run icase r (MState (rev u) v []) = []) ->
  re_sub icase r tpl s = s.
Proof.
  intros H. apply sub_scan_no_start. intros u v E.
  rewrite app_nil_r. now apply H.
Qed.

Lemma no_hit_cursor (icase : bool) (r : regex) (s : str) :
  (forall u v, s = u ++ v -> run icase r (MState (rev u) v []) = []) ->
  forall bh ah, rev bh ++ ah = s -> run icase r (MState bh ah []) = [].
Proof.
  intros H bh ah E. rewrite <- (rev_involutive bh). apply H. now symmetry.
Qed.

Lemma startswith_app (p s : str) : startswith p (p ++ s) = true.
Proof.
  induction p as [|c p IH]; [reflexivity|]. cbn [app startswith].
  now rewrite char_eqb_refl, IH.
Qed.

Lemma firstn_prefix (p s : str) : firstn (length p) (p ++ s) = p.
Proof. induction p as [|c p IH]; [reflexivity|]. cbn. now rewrite IH. Qed.

Lemma skipn_prefix (p s : str) : skipn (length p) (p ++ s) = s.
Proof. induction p as [|c p IH]; [reflexivity|]. exact IH. Qed.

Lemma hits_false (icase : bool) (r : regex) (bh : list char) (ah : str) :
  hits icase r bh ah = false <-> run icase r (MState bh ah []) = [].
Proof.
  unfold hits. destruct (run icase r (MState bh ah [])); split; congruence.
Qed.

Lemma mask_then_match_eq (bh : list char) (s : str) :
  mask_then_match bh s
  = (startswith cvv_mask s &&
     (hits false card_pattern (rev (firstn (length cvv_mask) s) ++ bh)
           (skipn (length cvv_mask) s)
      || hits false account_pattern (rev (firstn (length cvv_mask) s) ++ bh)
              (skipn (length cvv_mask) s)))
    || match s with
       | [] => false
       | c :: s' => mask_then_match (c :: bh) s'
       end.
Proof. destruct s; reflexivity. Qed.

(** No mask is followed by a match where neither rule matches anywhere. *)
Lemma mask_then_match_intro :
  forall (s : str) (bh : list char),
    (forall u v, s = u ++ v ->
       run false card_pattern (MState (rev u ++ bh) v []) = [] /\
       run false account_pattern (MState (rev u ++ bh) v []) = []) ->
    mask_then_match bh s = false.
Proof.
  induction s as [|c s IH]; intros bh H; rewrite mask_then_match_eq;
    destruct (H _ _ (eq_sym (firstn_skipn (length cvv_mask) _))) as [H1 H2];
    apply hits_false in H1, H2; rewrite H1, H2, andb_false_r; cbn [orb];
    [reflexivity|].
  apply IH. intros u v E. specialize (H (c :: u) v).
  cbn [rev] in H. rewrite <- app_assoc in H. apply H. now rewrite E.
Qed.

(** Where no mask is followed by a match, neither rule matches after a
    mask. *)
Lemma mask_then_match_elim :
  forall (u s v : str) (bh : list char),
    mask_then_match bh s = false -> s = u ++ cvv_mask ++ v ->
    run false card_pattern (MState (rev cvv_mask ++ rev u ++ bh) v []) = [] /\
    run false account_pattern (MState (rev cvv_mask ++ rev u ++ bh) v []) = [].
Proof.
  induction u as [|c u IH]; intros s v bh H E; rewrite mask_then_match_eq in H;
    apply orb_false_iff in H as [H1 H2]; subst s.
  - cbn [app] in H1. cbn [rev app].
    rewrite startswith_app, firstn_prefix, skipn_prefix in H1.
    cbn [andb] in H1. apply orb_false_iff in H1 as [A B].
    apply hits_false in A, B. now split.
  - cbn [app] in H2. cbn [rev]. rewrite <- app_assoc. cbn [app].
    now apply (IH (u ++ cvv_mask ++ v)).
Qed.

Lemma card_token_shape :
  (exists e0, U "[TARJETA-OCULTA]" = e0 ++ [93%N]) /\
  Forall (fun c => isdecimal c = false) (U "[TARJETA-OCULTA]").
Proof.
  split.
  - exists (U "[TARJETA-OCULTA"). vm_compute. reflexivity.
  - apply latin1_no_digit. vm_compute. reflexivity.
Qed.

Lemma account_token_shape :
  (exists e0, U "[CUENTA-OCULTA]" = e0 ++ [93%N]) /\
  Forall (fun c => isdecimal c = false) (U "[CUENTA-OCULTA]").
Proof.
  split.
  - exists (U "[CUENTA-OCULTA"). vm_compute. reflexivity.
  - apply latin1_no_digit. vm_compute. reflexivity.
Qed.

(** After a first application, no rule matches anywhere but the digit rules
    right after a CVV mask. *)
Lemma sanitized_no_hit (x : str) :
  mask_then_match [] (sanitize_financial_data x) = false ->
  forall u v, sanitize_financial_data x = u ++ v ->
    run false card_pattern (MState (rev u) v []) = [] /\
    run false account_pattern (MState (rev u) v []) = [] /\
    run true cvv_pattern (MState (rev u) v []) = [].
Proof.
  unfold sanitize_financial_data.
  set (t1 := re_sub false card_pattern [Text (U "[TARJETA-OCULTA]")] x).
  set (t2 := re_sub false account_pattern [Text (U "[CUENTA-OCULTA]")] t1).
  intros H.
  destruct card_token_shape as [C1 C2]. destruct account_token_shape as [A1 A2].
  assert (N1 : forall u v, t1 = u ++ v ->
                 run false card_pattern (MState (rev u) v []) = []).
  { apply (digit_pass_no_hit false false card_pattern card_pattern _ x
             card_is_digit_rule card_is_digit_rule C1 C2). auto. }
  assert (N2 : forall u v, t2 = u ++ v ->
                 run false card_pattern (MState (rev u) v []) = []).
  { apply (digit_pass_no_hit false false account_pattern card_pattern _ t1
             account_is_digit_rule card_is_digit_rule A1 A2).
    intros bh ah E _. now apply (no_hit_cursor false card_pattern t1 N1). }
  assert (N4 : forall u v, t2 = u ++ v ->
                 run false account_pattern (MState (rev u) v []) = []).
  { apply (digit_pass_no_hit false false account_pattern account_pattern _ t1
             account_is_digit_rule account_is_digit_rule A1 A2). auto. }
  intros u v E. repeat split.
  - apply (cvv_pass_no_hit false card_pattern t2 card_is_digit_rule
             (no_hit_cursor false card_pattern t2 N2)); [|exact E].
    intros u0 v0 E0.
    destruct (mask_then_match_elim u0 _ v0 [] H E0) as [R _].
    now rewrite app_nil_r in R.
  - apply (cvv_pass_no_hit false account_pattern t2 account_is_digit_rule
             (no_hit_cursor false account_pattern t2 N4)); [|exact E].
    intros u0 v0 E0.
    destruct (mask_then_match_elim u0 _ v0 [] H E0) as [_ R].
    now rewrite app_nil_r in R.
  - now apply (cvv_pass_no_cvv t2).
Qed.

Lemma card_pass_digits (s : str) :
  ndigits (re_sub false card_pattern [Text (U "[TARJETA-OCULTA]")] s) < ndigits s \/
  (re_sub false card_pattern [Text (U "[TARJETA-OCULTA]")] s = s /\
   forall u v, s = u ++ v -> run false card_pattern (MState (rev u) v []) = []).
Proof.
  destruct card_token_shape as [C1 C2].
  apply (re_sub_digits false card_pattern _
           (digit_rule_nonempty _ _ card_is_digit_rule)
           (token_expansion false card_pattern _ C1 C2)
           (digit_rule_digit _ _ card_is_digit_rule)).
Qed.

Lemma account_pass_digits (s : str) :
  ndigits (re_sub false account_pattern [Text (U "[CUENTA-OCULTA]")] s) < ndigits s \/
  (re_sub false account_pattern [Text (U "[CUENTA-OCULTA]")] s = s /\
   forall u v, s = u ++ v -> run false account_pattern (MState (rev u) v []) = []).
Proof.
  destruct account_token_shape as [A1 A2].
  apply (re_sub_digits false account_pattern _
           (digit_rule_nonempty _ _ account_is_digit_rule)
           (token_expansion false account_pattern _ A1 A2)
           (digit_rule_digit _ _ account_is_digit_rule)).
Qed.

Lemma cvv_pass_digits_le (s : str) :
  ndigits (re_sub true cvv_pattern [Ref 1; Text (U ": [OCULTO]")] s) <= ndigits s.
Proof.
  apply (re_sub_digits_le true cvv_pattern _ cvv_nonempty cvv_expansion cvv_digit).
Qed.

(** A text the sanitizer leaves alone holds no match of the digit rules. *)
Lemma fixed_no_hit (y : str) :
  sanitize_financial_data y = y ->
  forall u v, y = u ++ v ->
    run false card_pattern (MState (rev u) v []) = [] /\
    run false account_pattern (MState (rev u) v []) = [].
Proof.
  unfold sanitize_financial_data. intros F.
  pose proof (cvv_pass_digits_le
                (re_sub false account_pattern [Text (U "[CUENTA-OCULTA]")]
                   (re_sub false card_pattern [Text (U "[TARJETA-OCULTA]")] y))) as L3.
  rewrite F in L3.
  destruct (card_pass_digits y) as [L1 | [E1 N1]].
  - destruct (account_pass_digits
                (re_sub false card_pattern [Text (U "[TARJETA-OCULTA]")] y))
      as [L2 | [E2 _]]; [lia|]. rewrite E2 in L3. lia.
  - rewrite E1 in L3.
    destruct (account_pass_digits y) as [L2 | [E2 N2]]; [lia|].
    intros u v E. split; auto.
Qed.

(** C5 (amended).  Applying the sanitizer a second time changes nothing
    exactly when the first application leaves no [[OCULTO]] mask directly
    followed by text that the card rule or the account rule matches: the CVV
    rule masks the first three or four digits after a label and can leave
    the rest of a longer number right behind its mask, with the closing
    bracket as a new word boundary before it. *)
Theorem sanitize_idempotent_unless_match_after_mask :
  forall x : str,
    sanitize_financial_data (sanitize_financial_data x)
    = sanitize_financial_data x
    <-> mask_then_match [] (sanitize_financial_data x) = false.
Proof.
  intros x. split.
  - intros F. apply mask_then_match_intro. intros u v E.
    rewrite app_nil_r. now apply (fixed_no_hit _ F).
  - intros H. pose proof (sanitized_no_hit x H) as N.
    set (y := sanitize_financial_data x) in *.
    unfold sanitize_financial_data at 1.
    rewrite (no_hit_fixed false card_pattern _ y) by (intros u v E; apply (N u v E)).
    rewrite (no_hit_fixed false account_pattern _ y) by (intros u v E; apply (N u v E)).
    apply no_hit_fixed. intros u v E. apply (N u v E).
Qed.

End Twice.

Lemma sanitize_idempotent_unless_match_after_mask_witness :
  sanitize_financial_data
    (U "tengo 1500 soles, cvv 123 y tarjeta 4111 1111 1111 1111")
  = U "tengo 1500 soles, cvv: [OCULTO] y tarjeta [TARJETA-OCULTA]" /\
  sanitize_financial_data
    (sanitize_financial_data
       (U "tengo 1500 soles, cvv 123 y tarjeta 4111 1111 1111 1111"))
  = sanitize_financial_data
      (U "tengo 1500 soles, cvv 123 y tarjeta 4111 1111 1111 1111").
Proof.
  split; [vm_compute; reflexivity|].
  pose proof (proj2 (@sanitize_idempotent_unless_match_after_mask Latin1
    (U "tengo 1500 soles, cvv 123 y tarjeta 4111 1111 1111 1111"))) as H.
  apply H. vm_compute. reflexivity.
Defined.
